(** * Valet parking backend: the assignment and state-transition engine

    A shallow embedding of the domain entities ([Vehicle], [Valet],
    [ParkingZone]), of the repositories they are stored in, and of the two
    use cases that drive them ([AssignValetRoundRobinUseCase],
    [CreateVehicleEntryUseCase]), followed by the properties of the
    specification that are stated about them.

    Conventions of the embedding.
    - A TypeScript [number] holding a database integer is a [Z]; a [Date] is
      its [getTime()] value, milliseconds since the epoch, also a [Z].
    - A method that mutates [this] and may [throw] is a computation in the
      monad [M S A := S -> Result A * S]: the state that comes back with an
      [Err] is the object as the exception left it.
    - [new Date()] and [Date.now()] are a parameter [now], read once per
      operation; [Math.floor(Math.random() * k)] is a parameter [r] with
      [0 <= r < k].
    - Strings are ASCII strings. *)

From Stdlib Require Import ZArith List String Ascii Bool Lia Sorted.
Import ListNotations.
Open Scope string_scope.
Open Scope Z_scope.

(* ------------------------------------------------------------------ *)
(** * Vehicle states and valet statuses (value objects) *)

Inductive VehicleState : Type :=
| PARKING
| PARKED
| WAITING_MARKOUT
| SCHEDULED
| RETRIEVAL_ASSIGNED
| ON_THE_WAY
| DELIVERED
| CLOSED.

Inductive ValetStatus : Type :=
| FREE
| BUSY
| BREAK
| OFF_DUTY.

Definition VehicleState_eqb (a b : VehicleState) : bool :=
  match a, b with
  | PARKING, PARKING | PARKED, PARKED | WAITING_MARKOUT, WAITING_MARKOUT
  | SCHEDULED, SCHEDULED | RETRIEVAL_ASSIGNED, RETRIEVAL_ASSIGNED
  | ON_THE_WAY, ON_THE_WAY | DELIVERED, DELIVERED | CLOSED, CLOSED => true
  | _, _ => false
  end.

Definition ValetStatus_eqb (a b : ValetStatus) : bool :=
  match a, b with
  | FREE, FREE | BUSY, BUSY | BREAK, BREAK | OFF_DUTY, OFF_DUTY => true
  | _, _ => false
  end.

(** [Array.prototype.includes] on an array of states. *)
Definition includes (l : list VehicleState) (s : VehicleState) : bool :=
  existsb (VehicleState_eqb s) l.

Definition Date := Z.

(* ------------------------------------------------------------------ *)
(** * Errors and the state-and-exception monad *)

(** One constructor per [throw new Error(...)] of the sources; the
    arguments are the values interpolated into the message. *)
Inductive Error : Type :=
(* VehicleState.ts *)
| InvalidStateTransition (from to : VehicleState)
(* Vehicle.ts *)
| CannotMarkParked (st : VehicleState)
| CannotRequestMarkOut (st : VehicleState)
| InvalidMarkOutTime
| CannotAssignRetrievalValet (st : VehicleState)
| CannotStartRetrieval (st : VehicleState)
| RetrievalTimeNotReached
| CannotMarkDelivered (st : VehicleState)
| CannotClose (st : VehicleState)
(* Valet.ts *)
| ValetCannotBeAssigned (name : string) (st : ValetStatus)
| CannotCompleteTask (st : ValetStatus)
| CannotTakeBreakWhileBusy
| NotOnBreak (st : ValetStatus)
| CannotGoOffDutyWhileBusy
| NotOffDuty (st : ValetStatus)
(* ParkingZone.ts *)
| NoSlotsAvailable
| AllSlotsAlreadyFree
(* AssignValetRoundRobin.ts *)
| NoActiveValets
| NoAvailableValets (free busy onBreak offDuty outOfShift : nat)
(* CreateVehicleEntry *)
| VehicleNumberRequired
| CustomerPhoneRequired
| InvalidPhoneNumber
| EntryOperatorRequired
| VehicleAlreadyParked (plate token : string) (st : VehicleState)
| NoParkingSlotsAvailable
(* MarkVehicleParked.ts *)
| VehicleNotFound
| NoParkingValetAssigned
| AssignedValetNotFound
(* the database client *)
| RecordNotFound
| UniqueConstraintFailed (field : string)
(* the JavaScript runtime: a property read on undefined *)
| TypeError.

Inductive Result (A : Type) : Type :=
| Ok (a : A)
| Err (e : Error).

Arguments Ok {A} a.
Arguments Err {A} e.

Definition isOk {A} (r : Result A) : bool :=
  match r with Ok _ => true | Err _ => false end.

Module StateExn.

Definition M (S A : Type) : Type := S -> Result A * S.

Definition ret {S A} (a : A) : M S A := fun s => (Ok a, s).

Definition bind {S A B} (m : M S A) (k : A -> M S B) : M S B :=
  fun s =>
    match m s with
    | (Ok a, s') => k a s'
    | (Err e, s') => (Err e, s')
    end.

Definition throw {S A} (e : Error) : M S A := fun s => (Err e, s).

(** Read a field of [this]. *)
Definition gets {S A} (f : S -> A) : M S A := fun s => (Ok (f s), s).

(** Assign to a field of [this]. *)
Definition modify {S} (f : S -> S) : M S unit := fun s => (Ok tt, f s).

(** A pure call that may throw. *)
Definition lift {S A} (r : Result A) : M S A := fun s => (r, s).

(** [if (c) throw e;] *)
Definition throwIf {S} (c : bool) (e : Error) : M S unit :=
  if c then throw e else ret tt.

End StateExn.
Import StateExn.

Declare Scope monad_scope.
Delimit Scope monad_scope with monad.
Notation "x <- m ;; k" := (bind m (fun x => k))
  (at level 61, m at next level, right associativity) : monad_scope.
Notation "m ;; k" := (bind m (fun _ => k))
  (at level 61, right associativity) : monad_scope.
Open Scope monad_scope.

(** [for (const x of l) { body(x) }]: the first exception ends the loop. *)
Fixpoint forEach {S A} (l : list A) (body : A -> M S unit) : M S unit :=
  match l with
  | [] => ret tt
  | x :: rest => body x ;; forEach rest body
  end.

(* ------------------------------------------------------------------ *)
(** * VehicleState.ts: the transition table *)

Module VehicleStateMachine.

Definition transitions (s : VehicleState) : list VehicleState :=
  match s with
  | PARKING => [PARKED]
  | PARKED => [SCHEDULED; WAITING_MARKOUT]
  | WAITING_MARKOUT => [SCHEDULED]
  | SCHEDULED => [RETRIEVAL_ASSIGNED]
  | RETRIEVAL_ASSIGNED => [ON_THE_WAY]
  | ON_THE_WAY => [DELIVERED]
  | DELIVERED => [CLOSED]
  | CLOSED => []
  end.

Definition transition (currentState nextState : VehicleState)
  : Result VehicleState :=
  let allowed := transitions currentState in
  if negb (includes allowed nextState)
  then Err (InvalidStateTransition currentState nextState)
  else Ok nextState.

Definition canBeMarkedOut (state : VehicleState) : bool :=
  includes [PARKED; WAITING_MARKOUT] state.

Definition isReadyForRetrieval (state : VehicleState) : bool :=
  includes [SCHEDULED; RETRIEVAL_ASSIGNED] state.

End VehicleStateMachine.

(* ------------------------------------------------------------------ *)
(** * Vehicle.ts: the vehicle entity *)

Record Vehicle : Type := mkVehicle {
  v_id : string;
  token : string;
  vehicleNumber : string;
  customerPhone : string;
  zone : string;
  slot : string;
  state : VehicleState;
  customerType : option string;
  arrivedAt : Date;
  parkedAt : option Date;
  markoutRequestedAt : option Date;
  scheduledAt : option Date;
  retrievalStartedAt : option Date;
  deliveredAt : option Date;
  closedAt : option Date;
  entryOperatorId : option string;
  parkingValetId : option string;
  retrievalValetId : option string;
  v_createdAt : Date;
  v_updatedAt : Date
}.

Module VehicleEntity.
Import VehicleStateMachine.

(** Field assignments [this.f = x]. *)
Definition set_state (x : VehicleState) (v : Vehicle) : Vehicle :=
  mkVehicle (v_id v) (token v) (vehicleNumber v) (customerPhone v) (zone v)
    (slot v) x (customerType v) (arrivedAt v) (parkedAt v)
    (markoutRequestedAt v) (scheduledAt v) (retrievalStartedAt v)
    (deliveredAt v) (closedAt v) (entryOperatorId v) (parkingValetId v)
    (retrievalValetId v) (v_createdAt v) (v_updatedAt v).

Definition set_parkedAt (x : option Date) (v : Vehicle) : Vehicle :=
  mkVehicle (v_id v) (token v) (vehicleNumber v) (customerPhone v) (zone v)
    (slot v) (state v) (customerType v) (arrivedAt v) x
    (markoutRequestedAt v) (scheduledAt v) (retrievalStartedAt v)
    (deliveredAt v) (closedAt v) (entryOperatorId v) (parkingValetId v)
    (retrievalValetId v) (v_createdAt v) (v_updatedAt v).

Definition set_markoutRequestedAt (x : option Date) (v : Vehicle) : Vehicle :=
  mkVehicle (v_id v) (token v) (vehicleNumber v) (customerPhone v) (zone v)
    (slot v) (state v) (customerType v) (arrivedAt v) (parkedAt v)
    x (scheduledAt v) (retrievalStartedAt v)
    (deliveredAt v) (closedAt v) (entryOperatorId v) (parkingValetId v)
    (retrievalValetId v) (v_createdAt v) (v_updatedAt v).

Definition set_scheduledAt (x : option Date) (v : Vehicle) : Vehicle :=
  mkVehicle (v_id v) (token v) (vehicleNumber v) (customerPhone v) (zone v)
    (slot v) (state v) (customerType v) (arrivedAt v) (parkedAt v)
    (markoutRequestedAt v) x (retrievalStartedAt v)
    (deliveredAt v) (closedAt v) (entryOperatorId v) (parkingValetId v)
    (retrievalValetId v) (v_createdAt v) (v_updatedAt v).

Definition set_retrievalStartedAt (x : option Date) (v : Vehicle) : Vehicle :=
  mkVehicle (v_id v) (token v) (vehicleNumber v) (customerPhone v) (zone v)
    (slot v) (state v) (customerType v) (arrivedAt v) (parkedAt v)
    (markoutRequestedAt v) (scheduledAt v) x
    (deliveredAt v) (closedAt v) (entryOperatorId v) (parkingValetId v)
    (retrievalValetId v) (v_createdAt v) (v_updatedAt v).

Definition set_deliveredAt (x : option Date) (v : Vehicle) : Vehicle :=
  mkVehicle (v_id v) (token v) (vehicleNumber v) (customerPhone v) (zone v)
    (slot v) (state v) (customerType v) (arrivedAt v) (parkedAt v)
    (markoutRequestedAt v) (scheduledAt v) (retrievalStartedAt v)
    x (closedAt v) (entryOperatorId v) (parkingValetId v)
    (retrievalValetId v) (v_createdAt v) (v_updatedAt v).

Definition set_closedAt (x : option Date) (v : Vehicle) : Vehicle :=
  mkVehicle (v_id v) (token v) (vehicleNumber v) (customerPhone v) (zone v)
    (slot v) (state v) (customerType v) (arrivedAt v) (parkedAt v)
    (markoutRequestedAt v) (scheduledAt v) (retrievalStartedAt v)
    (deliveredAt v) x (entryOperatorId v) (parkingValetId v)
    (retrievalValetId v) (v_createdAt v) (v_updatedAt v).

Definition set_retrievalValetId (x : option string) (v : Vehicle) : Vehicle :=
  mkVehicle (v_id v) (token v) (vehicleNumber v) (customerPhone v) (zone v)
    (slot v) (state v) (customerType v) (arrivedAt v) (parkedAt v)
    (markoutRequestedAt v) (scheduledAt v) (retrievalStartedAt v)
    (deliveredAt v) (closedAt v) (entryOperatorId v) (parkingValetId v)
    x (v_createdAt v) (v_updatedAt v).

Definition set_updatedAt (x : Date) (v : Vehicle) : Vehicle :=
  mkVehicle (v_id v) (token v) (vehicleNumber v) (customerPhone v) (zone v)
    (slot v) (state v) (customerType v) (arrivedAt v) (parkedAt v)
    (markoutRequestedAt v) (scheduledAt v) (retrievalStartedAt v)
    (deliveredAt v) (closedAt v) (entryOperatorId v) (parkingValetId v)
    (retrievalValetId v) (v_createdAt v) x.

Definition isSome {A} (o : option A) : bool :=
  match o with Some _ => true | None => false end.

Definition canBeMarkedParked (v : Vehicle) : bool :=
  VehicleState_eqb (state v) PARKING && isSome (parkingValetId v).

Definition markAsParked (now : Date) : M Vehicle unit :=
  ok <- gets canBeMarkedParked ;;
  st <- gets state ;;
  throwIf (negb ok) (CannotMarkParked st) ;;
  next <- lift (transition st PARKED) ;;
  modify (set_state next) ;;
  modify (set_parkedAt (Some now)) ;;
  modify (set_updatedAt now).

Definition canRequestMarkOut (v : Vehicle) : bool :=
  canBeMarkedOut (state v).

Definition requestMarkOut (now : Date) (selectedMinutes : Z)
  : M Vehicle unit :=
  ok <- gets canRequestMarkOut ;;
  st <- gets state ;;
  throwIf (negb ok) (CannotRequestMarkOut st) ;;
  throwIf (negb (existsb (Z.eqb selectedMinutes) [5; 7; 10]))
          InvalidMarkOutTime ;;
  next <- lift (transition st SCHEDULED) ;;
  modify (set_state next) ;;
  modify (set_markoutRequestedAt (Some now)) ;;
  modify (set_scheduledAt (Some (now + selectedMinutes * 60 * 1000))) ;;
  modify (set_updatedAt now).

Definition assignRetrievalValet (now : Date) (valetId : string)
  : M Vehicle unit :=
  st <- gets state ;;
  throwIf (negb (isReadyForRetrieval st)) (CannotAssignRetrievalValet st) ;;
  modify (set_retrievalValetId (Some valetId)) ;;
  st <- gets state ;;
  next <- lift (transition st RETRIEVAL_ASSIGNED) ;;
  modify (set_state next) ;;
  modify (set_updatedAt now).

Definition isRetrievalTimeReached (now : Date) (v : Vehicle) : bool :=
  match scheduledAt v with
  | None => false
  | Some t => t <=? now
  end.

Definition startRetrieval (now : Date) : M Vehicle unit :=
  st <- gets state ;;
  throwIf (negb (isReadyForRetrieval st)) (CannotStartRetrieval st) ;;
  reached <- gets (isRetrievalTimeReached now) ;;
  throwIf (negb reached) RetrievalTimeNotReached ;;
  next <- lift (transition st ON_THE_WAY) ;;
  modify (set_state next) ;;
  modify (set_retrievalStartedAt (Some now)) ;;
  modify (set_updatedAt now).

Definition markAsDelivered (now : Date) : M Vehicle unit :=
  st <- gets state ;;
  throwIf (negb (VehicleState_eqb st ON_THE_WAY)) (CannotMarkDelivered st) ;;
  next <- lift (transition st DELIVERED) ;;
  modify (set_state next) ;;
  modify (set_deliveredAt (Some now)) ;;
  modify (set_updatedAt now).

Definition close (now : Date) : M Vehicle unit :=
  st <- gets state ;;
  throwIf (negb (VehicleState_eqb st DELIVERED)) (CannotClose st) ;;
  next <- lift (transition st CLOSED) ;;
  modify (set_state next) ;;
  modify (set_closedAt (Some now)) ;;
  modify (set_updatedAt now).

(** The mutating operations of the entity, as one type. *)
Inductive Op : Type :=
| OpMarkAsParked
| OpRequestMarkOut (selectedMinutes : Z)
| OpAssignRetrievalValet (valetId : string)
| OpStartRetrieval
| OpMarkAsDelivered
| OpClose.

Definition run (now : Date) (op : Op) : M Vehicle unit :=
  match op with
  | OpMarkAsParked => markAsParked now
  | OpRequestMarkOut m => requestMarkOut now m
  | OpAssignRetrievalValet id => assignRetrievalValet now id
  | OpStartRetrieval => startRetrieval now
  | OpMarkAsDelivered => markAsDelivered now
  | OpClose => close now
  end.

Definition isOverdueForRetrieval (now : Date) (v : Vehicle) : bool :=
  match scheduledAt v with
  | None => false
  | Some t =>
      if negb (VehicleState_eqb (state v) SCHEDULED) then false
      else
        let overdueThreshold := 2 * 60 * 1000 in
        overdueThreshold <? now - t
  end.

(** A sequence of calls on one vehicle object, each at its own clock
    reading; a call that throws leaves the object as the exception left it
    and the sequence goes on. *)
Fixpoint runAll (calls : list (Date * Op)) (v : Vehicle) : Vehicle :=
  match calls with
  | [] => v
  | (now, op) :: rest => runAll rest (snd (run now op v))
  end.

End VehicleEntity.

(* ------------------------------------------------------------------ *)
(** * ValetStatus.ts and Valet.ts: the valet entity *)

Module ValetStatusRules.

Definition canBeAssigned (status : ValetStatus) : bool :=
  ValetStatus_eqb status FREE.

Definition getStatusAfterAssignment : ValetStatus := BUSY.

Definition getStatusAfterCompletion : ValetStatus := FREE.

End ValetStatusRules.

Record Valet : Type := mkValet {
  valet_id : string;
  name : string;
  phone : string;
  status : ValetStatus;
  assignmentSequence : Z;
  todayCount : Z;
  totalCount : Z;
  employeeId : option string;
  shiftStart : option Date;
  shiftEnd : option Date;
  isActive : bool;
  valet_createdAt : Date;
  valet_updatedAt : Date
}.

(** [Date.prototype.getHours] and [getMinutes]; the host runs in UTC (the
    image is built from node:20-alpine, which sets no time zone). *)
Definition getHours (d : Date) : Z := (d / 3600000) mod 24.
Definition getMinutes (d : Date) : Z := (d / 60000) mod 60.

Module ValetEntity.

Definition set_status (x : ValetStatus) (v : Valet) : Valet :=
  mkValet (valet_id v) (name v) (phone v) x (assignmentSequence v)
    (todayCount v) (totalCount v) (employeeId v) (shiftStart v) (shiftEnd v)
    (isActive v) (valet_createdAt v) (valet_updatedAt v).

Definition set_assignmentSequence (x : Z) (v : Valet) : Valet :=
  mkValet (valet_id v) (name v) (phone v) (status v) x
    (todayCount v) (totalCount v) (employeeId v) (shiftStart v) (shiftEnd v)
    (isActive v) (valet_createdAt v) (valet_updatedAt v).

Definition set_todayCount (x : Z) (v : Valet) : Valet :=
  mkValet (valet_id v) (name v) (phone v) (status v) (assignmentSequence v)
    x (totalCount v) (employeeId v) (shiftStart v) (shiftEnd v)
    (isActive v) (valet_createdAt v) (valet_updatedAt v).

Definition set_totalCount (x : Z) (v : Valet) : Valet :=
  mkValet (valet_id v) (name v) (phone v) (status v) (assignmentSequence v)
    (todayCount v) x (employeeId v) (shiftStart v) (shiftEnd v)
    (isActive v) (valet_createdAt v) (valet_updatedAt v).

Definition set_updatedAt (x : Date) (v : Valet) : Valet :=
  mkValet (valet_id v) (name v) (phone v) (status v) (assignmentSequence v)
    (todayCount v) (totalCount v) (employeeId v) (shiftStart v) (shiftEnd v)
    (isActive v) (valet_createdAt v) x.

Definition isInShift (now : Date) (v : Valet) : bool :=
  match shiftStart v, shiftEnd v with
  | Some shiftStart, Some shiftEnd =>
      let currentTime := getHours now * 60 + getMinutes now in
      let shiftStartMinutes := getHours shiftStart * 60 + getMinutes shiftStart in
      let shiftEndMinutes := getHours shiftEnd * 60 + getMinutes shiftEnd in
      if shiftEndMinutes <? shiftStartMinutes
      then (shiftStartMinutes <=? currentTime) || (currentTime <=? shiftEndMinutes)
      else (shiftStartMinutes <=? currentTime) && (currentTime <=? shiftEndMinutes)
  | _, _ => true
  end.

Definition canBeAssigned (now : Date) (v : Valet) : bool :=
  isActive v && ValetStatusRules.canBeAssigned (status v) && isInShift now v.

Definition assignTask (now : Date) : M Valet unit :=
  ok <- gets (canBeAssigned now) ;;
  nm <- gets name ;;
  st <- gets status ;;
  throwIf (negb ok) (ValetCannotBeAssigned nm st) ;;
  modify (set_status ValetStatusRules.getStatusAfterAssignment) ;;
  modify (fun v => set_assignmentSequence (assignmentSequence v + 1) v) ;;
  modify (fun v => set_todayCount (todayCount v + 1) v) ;;
  modify (fun v => set_totalCount (totalCount v + 1) v) ;;
  modify (set_updatedAt now).

Definition completeTask (now : Date) : M Valet unit :=
  st <- gets status ;;
  throwIf (negb (ValetStatus_eqb st BUSY)) (CannotCompleteTask st) ;;
  modify (set_status ValetStatusRules.getStatusAfterCompletion) ;;
  modify (set_updatedAt now).

Definition takeBreak (now : Date) : M Valet unit :=
  st <- gets status ;;
  throwIf (ValetStatus_eqb st BUSY) CannotTakeBreakWhileBusy ;;
  modify (set_status BREAK) ;;
  modify (set_updatedAt now).

Definition returnFromBreak (now : Date) : M Valet unit :=
  st <- gets status ;;
  throwIf (negb (ValetStatus_eqb st BREAK)) (NotOnBreak st) ;;
  modify (set_status FREE) ;;
  modify (set_updatedAt now).

Definition goOffDuty (now : Date) : M Valet unit :=
  st <- gets status ;;
  throwIf (ValetStatus_eqb st BUSY) CannotGoOffDutyWhileBusy ;;
  modify (set_status OFF_DUTY) ;;
  modify (set_updatedAt now).

Definition startDuty (now : Date) : M Valet unit :=
  st <- gets status ;;
  throwIf (negb (ValetStatus_eqb st OFF_DUTY)) (NotOffDuty st) ;;
  modify (set_status FREE) ;;
  modify (set_updatedAt now).

Definition resetDailyCounters (now : Date) : M Valet unit :=
  modify (set_assignmentSequence 0) ;;
  modify (set_todayCount 0) ;;
  modify (set_updatedAt now).

(** The mutating methods of the entity, as one type. *)
Inductive Op : Type :=
| OpAssignTask
| OpCompleteTask
| OpTakeBreak
| OpReturnFromBreak
| OpGoOffDuty
| OpStartDuty
| OpResetDailyCounters.

Definition run (now : Date) (op : Op) : M Valet unit :=
  match op with
  | OpAssignTask => assignTask now
  | OpCompleteTask => completeTask now
  | OpTakeBreak => takeBreak now
  | OpReturnFromBreak => returnFromBreak now
  | OpGoOffDuty => goOffDuty now
  | OpStartDuty => startDuty now
  | OpResetDailyCounters => resetDailyCounters now
  end.

Definition getWorkloadScore (v : Valet) : Z := assignmentSequence v.

(** A sequence of calls on one valet object, each at its own clock
    reading; a call that throws leaves the object as it was and the
    sequence goes on. *)
Fixpoint runAll (calls : list (Date * Op)) (v : Valet) : Valet :=
  match calls with
  | [] => v
  | (now, op) :: rest => runAll rest (snd (run now op v))
  end.

End ValetEntity.

(* ------------------------------------------------------------------ *)
(** * ParkingZone.ts: the zone entity *)

Record ParkingZone : Type := mkParkingZone {
  zone_id : string;
  zoneCode : string;
  totalSlots : Z;
  availableSlots : Z;
  zone_isActive : bool;
  zone_createdAt : option Date;
  zone_updatedAt : option Date;
  zoneName : option string;
  zoneDescription : option string;
  priority : Z
}.

Module ParkingZoneEntity.

Definition set_availableSlots (x : Z) (z : ParkingZone) : ParkingZone :=
  mkParkingZone (zone_id z) (zoneCode z) (totalSlots z) x (zone_isActive z)
    (zone_createdAt z) (zone_updatedAt z) (zoneName z) (zoneDescription z)
    (priority z).

Definition hasAvailability (z : ParkingZone) : bool :=
  (0 <? availableSlots z) && zone_isActive z.

Definition occupySlot : M ParkingZone unit :=
  avail <- gets availableSlots ;;
  throwIf (avail <=? 0) NoSlotsAvailable ;;
  modify (fun z => set_availableSlots (availableSlots z - 1) z).

Definition releaseSlot : M ParkingZone unit :=
  avail <- gets availableSlots ;;
  total <- gets totalSlots ;;
  throwIf (total <=? avail) AllSlotsAlreadyFree ;;
  modify (fun z => set_availableSlots (availableSlots z + 1) z).

Inductive Op : Type :=
| OpOccupySlot
| OpReleaseSlot.

Definition run (op : Op) : M ParkingZone unit :=
  match op with
  | OpOccupySlot => occupySlot
  | OpReleaseSlot => releaseSlot
  end.

(** A sequence of calls on one zone object; a call that throws leaves the
    object as the exception left it and the sequence goes on (the caller
    catches). *)
Fixpoint runAll (ops : list Op) (z : ParkingZone) : ParkingZone :=
  match ops with
  | [] => z
  | op :: rest => runAll rest (snd (run op z))
  end.

End ParkingZoneEntity.

(* ------------------------------------------------------------------ *)
(** * JavaScript strings, numbers and arrays as the sources use them *)

Module JS.

Definition isDigit (c : ascii) : bool :=
  let n := N_of_ascii c in ((48 <=? n) && (n <=? 57))%N.

(** The ASCII members of the class [\s]. *)
Definition isSpace (c : ascii) : bool :=
  let n := N_of_ascii c in (((9 <=? n) && (n <=? 13)) || (n =? 32))%N.

Fixpoint filterChars (p : ascii -> bool) (s : string) : string :=
  match s with
  | EmptyString => EmptyString
  | String c rest =>
      if p c then String c (filterChars p rest) else filterChars p rest
  end.

Fixpoint allChars (p : ascii -> bool) (s : string) : bool :=
  match s with
  | EmptyString => true
  | String c rest => p c && allChars p rest
  end.

Fixpoint mapChars (f : ascii -> ascii) (s : string) : string :=
  match s with
  | EmptyString => EmptyString
  | String c rest => String (f c) (mapChars f rest)
  end.

(** [s.replace(/\D/g, '')] *)
Definition removeNonDigits (s : string) : string := filterChars isDigit s.

(** [s.replace(/\s+/g, '')] *)
Definition removeWhitespace (s : string) : string :=
  filterChars (fun c => negb (isSpace c)) s.

Definition upperChar (c : ascii) : ascii :=
  let n := N_of_ascii c in
  if ((97 <=? n) && (n <=? 122))%N then ascii_of_N (n - 32) else c.

Definition toUpperCase (s : string) : string := mapChars upperChar s.

Fixpoint trimStart (s : string) : string :=
  match s with
  | EmptyString => EmptyString
  | String c rest => if isSpace c then trimStart rest else s
  end.

(** Drops the white space at the end: a character stays when something
    that is not white space follows it or it is not white space itself. *)
Fixpoint trimEnd (s : string) : string :=
  match s with
  | EmptyString => EmptyString
  | String c rest =>
      match trimEnd rest with
      | EmptyString => if isSpace c then EmptyString else String c EmptyString
      | rest' => String c rest'
      end
  end.

Definition trim (s : string) : string := trimEnd (trimStart s).

Definition strlen (s : string) : Z := Z.of_nat (String.length s).

(** [s.slice(0, n)] for [0 <= n]. *)
Fixpoint sliceTo (n : nat) (s : string) : string :=
  match n, s with
  | O, _ => EmptyString
  | _, EmptyString => EmptyString
  | S n', String c rest => String c (sliceTo n' rest)
  end.

(** [s.slice(n)] for [0 <= n]. *)
Fixpoint sliceFrom (n : nat) (s : string) : string :=
  match n, s with
  | O, _ => s
  | _, EmptyString => EmptyString
  | S n', String _ rest => sliceFrom n' rest
  end.

(** [s.slice(-n)]: the last [n] characters, all of [s] when it is shorter. *)
Definition sliceLast (n : nat) (s : string) : string :=
  sliceFrom (String.length s - n) s.

(** [s.startsWith(p)] *)
Definition startsWith (p s : string) : bool := String.prefix p s.

Fixpoint repeatChar (c : ascii) (n : nat) : string :=
  match n with
  | O => EmptyString
  | S n' => String c (repeatChar c n')
  end.

(** [s.padStart(n, c)] with a one-character pad. *)
Definition padStart (n : nat) (c : ascii) (s : string) : string :=
  (repeatChar c (n - String.length s) ++ s)%string.

Definition digitChar (d : Z) : ascii := ascii_of_N (48 + Z.to_N d).

(** Decimal digits of [n >= 0], most significant first, in front of [acc]. *)
Fixpoint digitsFuel (fuel : nat) (n : Z) (acc : string) : string :=
  match fuel with
  | O => acc
  | S fuel' =>
      let acc' := String (digitChar (n mod 10)) acc in
      if n <? 10 then acc' else digitsFuel fuel' (n / 10) acc'
  end.

(** [n.toString()] and the template literal [`${n}`] of an integer; a
    number of b bits has at most b decimal digits. *)
Definition numberToString (n : Z) : string :=
  if n <? 0
  then String "-" (digitsFuel (S (Z.to_nat (Z.log2 (- n)))) (- n) EmptyString)
  else digitsFuel (S (Z.to_nat (Z.log2 n))) n EmptyString.

(** Stable insertion sort by an integer key: the array that
    [Array.prototype.sort((a, b) => key(a) - key(b))] leaves (the sort of
    ECMAScript 2019 is stable, so the result is determined). *)
Fixpoint insertBy {A} (key : A -> Z) (x : A) (l : list A) : list A :=
  match l with
  | [] => [x]
  | y :: ys => if key x <=? key y then x :: y :: ys else y :: insertBy key x ys
  end.

Fixpoint sortBy {A} (key : A -> Z) (l : list A) : list A :=
  match l with
  | [] => []
  | x :: xs => insertBy key x (sortBy key xs)
  end.

(** The order that [sortBy key] sorts by. *)
Definition leBy {A} (key : A -> Z) (a b : A) : Prop := key a <= key b.

(** [!s] on a string. *)
Definition falsy (s : string) : bool := strlen s =? 0.

(** [s.split(sep)[0]]: the characters before the first separator, all of
    [s] when there is none. *)
Fixpoint splitHead (sep : ascii) (s : string) : string :=
  match s with
  | EmptyString => EmptyString
  | String c rest =>
      if Ascii.eqb c sep then EmptyString else String c (splitHead sep rest)
  end.

(** [set.has(x)] and [array.includes(x)] on strings. *)
Definition has (l : list string) (x : string) : bool :=
  existsb (String.eqb x) l.

(** Stable insertion sort by a comparison, for [orderBy] on a text
    column. *)
Fixpoint insertWith {A} (leb : A -> A -> bool) (x : A) (l : list A) : list A :=
  match l with
  | [] => [x]
  | y :: ys => if leb x y then x :: y :: ys else y :: insertWith leb x ys
  end.

Fixpoint sortWith {A} (leb : A -> A -> bool) (l : list A) : list A :=
  match l with
  | [] => []
  | x :: xs => insertWith leb x (sortWith leb xs)
  end.

End JS.

(* ------------------------------------------------------------------ *)
(** * The database and the repositories

    A table is the list of its rows.  A query without [orderBy] returns the
    rows in table order. *)

Record Database : Type := mkDatabase {
  valets : list Valet;
  vehicles : list Vehicle;
  parking_zones : list ParkingZone
}.

Definition onValets {A} (m : M (list Valet) A) : M Database A :=
  fun db =>
    let (r, t) := m (valets db) in
    (r, mkDatabase t (vehicles db) (parking_zones db)).

Definition onVehicles {A} (m : M (list Vehicle) A) : M Database A :=
  fun db =>
    let (r, t) := m (vehicles db) in
    (r, mkDatabase (valets db) t (parking_zones db)).

Definition onZones {A} (m : M (list ParkingZone) A) : M Database A :=
  fun db =>
    let (r, t) := m (parking_zones db) in
    (r, mkDatabase (valets db) (vehicles db) t).

Module ValetRepository.

Definition findById (id : string) (rows : list Valet) : option Valet :=
  find (fun v => String.eqb (valet_id v) id) rows.

(** [where: { is_active: true }, orderBy: { assignment_sequence: 'asc' }];
    rows of equal sequence stay in table order. *)
Definition findActive (rows : list Valet) : list Valet :=
  JS.sortBy assignmentSequence (filter isActive rows).

(** The columns [update] writes, on the row of the valet's id. *)
Definition writeRow (now : Date) (valet row : Valet) : Valet :=
  if String.eqb (valet_id row) (valet_id valet)
  then mkValet (valet_id row) (name row) (phone row) (status valet)
         (assignmentSequence valet) (todayCount valet) (totalCount valet)
         (employeeId row) (shiftStart row) (shiftEnd row) (isActive row)
         (valet_createdAt row) now
  else row.

Definition update (now : Date) (valet : Valet) : M (list Valet) Valet :=
  found <- gets (findById (valet_id valet)) ;;
  match found with
  | None => throw RecordNotFound
  | Some row =>
      modify (map (writeRow now valet)) ;;
      ret (writeRow now valet row)
  end.

(** [orderBy: { name: 'asc' }], names compared byte by byte. *)
Definition findAll (rows : list Valet) : list Valet :=
  JS.sortWith (fun a b => String.leb (name a) (name b)) rows.

End ValetRepository.

Module VehicleRepository.

Definition findById (id : string) (rows : list Vehicle) : option Vehicle :=
  find (fun v => String.eqb (v_id v) id) rows.

Definition findByToken (tok : string) (rows : list Vehicle) : option Vehicle :=
  find (fun v => String.eqb (token v) tok) rows.

(** [where: { vehicle_number, state: { notIn: [DELIVERED, CLOSED] } }] *)
Definition findActiveByVehicleNumber (vehicleNumber' : string)
  (rows : list Vehicle) : option Vehicle :=
  find (fun v => String.eqb (vehicleNumber v) vehicleNumber'
                 && negb (includes [DELIVERED; CLOSED] (state v))) rows.

(** The row that [create] inserts, read back through [toDomain]: only the
    seven columns of [data] are written, the database supplies the id and
    the creation time. *)
Definition newRow (now : Date) (rowId : string) (data : Vehicle) : Vehicle :=
  mkVehicle rowId (token data) (vehicleNumber data) (customerPhone data)
    (zone data) (slot data) (state data) None now None None None None None
    None None (parkingValetId data) None now now.

(** Modelled from the spec: the schema of the vehicles table is not among
    the sources; the storage layer is the authority on token uniqueness and
    rejects a collision. *)
Definition create (now : Date) (rowId : string) (data : Vehicle)
  : M (list Vehicle) Vehicle :=
  clash <- gets (findByToken (token data)) ;;
  match clash with
  | Some _ => throw (UniqueConstraintFailed "token")
  | None =>
      modify (fun rows => (rows ++ [newRow now rowId data])%list) ;;
      ret (newRow now rowId data)
  end.

Definition writeState (id : string) (st : VehicleState) (row : Vehicle)
  : Vehicle :=
  if String.eqb (v_id row) id then VehicleEntity.set_state st row else row.

Definition updateState (id : string) (st : VehicleState)
  : M (list Vehicle) Vehicle :=
  found <- gets (findById id) ;;
  match found with
  | None => throw RecordNotFound
  | Some row =>
      modify (map (writeState id st)) ;;
      ret (writeState id st row)
  end.

Definition findParkedVehicles (rows : list Vehicle) : list Vehicle :=
  filter (fun v => VehicleState_eqb (state v) PARKED) rows.

(** [d.setHours(0, 0, 0, 0)] and [d.setHours(23, 59, 59, 999)], in UTC. *)
Definition startOfDay (date : Date) : Date := date - date mod 86400000.
Definition endOfDay (date : Date) : Date := startOfDay date + 86399999.

(** [where: { created_at: { gte: startOfDay, lte: endOfDay } }] *)
Definition findByDate (date : Date) (rows : list Vehicle) : list Vehicle :=
  filter (fun v => (startOfDay date <=? v_createdAt v)
                   && (v_createdAt v <=? endOfDay date)) rows.

End VehicleRepository.

Module ParkingZoneRepository.

Definition findById (id : string) (rows : list ParkingZone)
  : option ParkingZone :=
  find (fun z => String.eqb (zone_id z) id) rows.

(** [where: { available_slots: { gt: 0 }, is_active: true },
     orderBy: { priority: 'asc' }], first row. *)
Definition findAvailableZone (rows : list ParkingZone) : option ParkingZone :=
  hd_error
    (JS.sortBy priority
       (filter (fun z => (0 <? availableSlots z) && zone_isActive z) rows)).

Definition addSlots (id : string) (k : Z) (row : ParkingZone) : ParkingZone :=
  if String.eqb (zone_id row) id
  then ParkingZoneEntity.set_availableSlots (availableSlots row + k) row
  else row.

Definition decrementAvailableSlots (id : string) : M (list ParkingZone) unit :=
  found <- gets (findById id) ;;
  match found with
  | None => throw RecordNotFound
  | Some _ => modify (map (addSlots id (-1)))
  end.

Definition incrementAvailableSlots (id : string) : M (list ParkingZone) unit :=
  found <- gets (findById id) ;;
  match found with
  | None => throw RecordNotFound
  | Some _ => modify (map (addSlots id 1))
  end.

End ParkingZoneRepository.

(* ------------------------------------------------------------------ *)
(** * AssignValetRoundRobin.ts *)

Module AssignValetRoundRobinUseCase.

Definition count {A} (p : A -> bool) (l : list A) : nat :=
  List.length (filter p l).

Definition createNoAvailableValetsError (now : Date) (allValets : list Valet)
  : Error :=
  NoAvailableValets
    (count (fun v => ValetStatus_eqb (status v) FREE) allValets)
    (count (fun v => ValetStatus_eqb (status v) BUSY) allValets)
    (count (fun v => ValetStatus_eqb (status v) BREAK) allValets)
    (count (fun v => ValetStatus_eqb (status v) OFF_DUTY) allValets)
    (count (fun v => negb (ValetEntity.isInShift now v)) allValets).

(** Steps 3 and 4: the valet the dispatcher picks among the assignable
    ones; [None] stands for reading a field of [undefined]. *)
Definition selectValet (availableValets : list Valet) : option Valet :=
  let availableValets := JS.sortBy assignmentSequence availableValets in
  match availableValets with
  | [] => None
  | first :: _ =>
      let lowestSequence := assignmentSequence first in
      let candidateValets :=
        filter (fun v => assignmentSequence v =? lowestSequence)
               availableValets in
      let candidateValets :=
        if (1 <? Z.of_nat (List.length candidateValets))
        then JS.sortBy todayCount candidateValets
        else candidateValets in
      hd_error candidateValets
  end.

Definition execute (now : Date) : M (list Valet) Valet :=
  allValets <- gets ValetRepository.findActive ;;
  throwIf (Z.of_nat (List.length allValets) =? 0) NoActiveValets ;;
  let availableValets := filter (ValetEntity.canBeAssigned now) allValets in
  throwIf (Z.of_nat (List.length availableValets) =? 0)
          (createNoAvailableValetsError now allValets) ;;
  match selectValet availableValets with
  | None => throw TypeError
  | Some selectedValet =>
      match ValetEntity.assignTask now selectedValet with
      | (Err e, _) => throw e
      | (Ok _, selectedValet) =>
          ValetRepository.update now selectedValet ;;
          ret selectedValet
      end
  end.

(** The two errors with which [execute] reports that nobody can take the
    task. *)
Definition isNoAvailableValetError (e : Error) : bool :=
  match e with
  | NoActiveValets | NoAvailableValets _ _ _ _ _ => true
  | _ => false
  end.

Definition resetDailyCounters (now : Date) : M (list Valet) unit :=
  allValets <- gets ValetRepository.findAll ;;
  forEach allValets (fun valet =>
    match ValetEntity.resetDailyCounters now valet with
    | (Err e, _) => throw e
    | (Ok _, valet) => ValetRepository.update now valet ;; ret tt
    end).

Definition reassignFromValet (now : Date) (valetId : string)
  : M (list Valet) Valet :=
  currentValet <- gets (ValetRepository.findById valetId) ;;
  match currentValet with
  | Some currentValet =>
      let currentValet :=
        ValetEntity.set_todayCount
          (Z.max 0 (todayCount currentValet - 1)) currentValet in
      let currentValet :=
        ValetEntity.set_assignmentSequence
          (Z.max 0 (assignmentSequence currentValet - 1)) currentValet in
      ValetRepository.update now currentValet ;; ret tt
  | None => ret tt
  end ;;
  execute now.

End AssignValetRoundRobinUseCase.

(* ------------------------------------------------------------------ *)
(** * CreateVehicleEntry: the entry use case *)

Module CreateVehicleEntryUseCase.

Record CreateVehicleEntryDTO : Type := mkDTO {
  dto_vehicleNumber : string;
  dto_customerPhone : string;
  dto_customerType : option string;
  dto_entryOperatorId : string
}.

Record VehicleEntryResponse : Type := mkResponse {
  res_vehicle : Vehicle;
  res_token : string;
  res_zone : string;
  res_slot : string;
  res_assignedValet : string * string
}.

(** What one call reads from outside the database: the clock, the two
    draws [Math.floor(Math.random() * 1000)] and
    [Math.floor(Math.random() * 100)], [crypto.randomUUID()] and the id the
    database gives the new row. *)
Record Env : Type := mkEnv {
  env_now : Date;
  env_tokenDraw : Z;
  env_slotDraw : Z;
  env_uuid : string;
  env_rowId : string
}.

(** [/^[6-9]\d{9}$/.test(s)] *)
Definition phoneRegex_test (s : string) : bool :=
  match s with
  | EmptyString => false
  | String c rest =>
      let n := N_of_ascii c in
      ((54 <=? n) && (n <=? 57))%N
      && (JS.strlen rest =? 9) && JS.allChars JS.isDigit rest
  end.

Definition validateInput (dto : CreateVehicleEntryDTO) : Result unit :=
  if JS.falsy (dto_vehicleNumber dto)
     || (JS.strlen (JS.trim (dto_vehicleNumber dto)) =? 0)
  then Err VehicleNumberRequired
  else if JS.falsy (dto_customerPhone dto)
          || (JS.strlen (JS.trim (dto_customerPhone dto)) =? 0)
  then Err CustomerPhoneRequired
  else
    let cleanPhone := JS.removeNonDigits (dto_customerPhone dto) in
    if negb (phoneRegex_test cleanPhone)
    then Err InvalidPhoneNumber
    else if JS.falsy (dto_entryOperatorId dto)
    then Err EntryOperatorRequired
    else Ok tt.

Definition normalizeVehicleNumber (vehicleNumber' : string) : string :=
  JS.trim (JS.toUpperCase (JS.removeWhitespace vehicleNumber')).

Definition normalizePhoneNumber (phone' : string) : string :=
  let cleaned := JS.removeNonDigits phone' in
  if JS.startsWith "91" cleaned && (JS.strlen cleaned =? 12)
  then JS.sliceFrom 2 cleaned
  else cleaned.

Definition checkDuplicateEntry (vehicleNumber' : string)
  : M (list Vehicle) unit :=
  let normalizedNumber := normalizeVehicleNumber vehicleNumber' in
  existingVehicle <-
    gets (VehicleRepository.findActiveByVehicleNumber normalizedNumber) ;;
  match existingVehicle with
  | Some existing =>
      throw (VehicleAlreadyParked normalizedNumber (token existing)
                                  (state existing))
  | None => ret tt
  end.

Definition generateToken (now : Date) (draw : Z) : string :=
  let timestamp := JS.sliceLast 6 (JS.numberToString now) in
  let random := JS.padStart 3 "0" (JS.numberToString draw) in
  JS.sliceTo 12 ("VLT-" ++ timestamp ++ random)%string.

Definition allocateSlot (zoneCode' : string) (draw : Z) : string :=
  let slotNumber := draw + 1 in
  JS.numberToString slotNumber.

(** The notification (step 10) is sent inside a [try] whose [catch] only
    logs, and the transition log (step 11) writes to the console: neither
    touches the database nor the result, and they are left out. *)
Definition execute (env : Env) (dto : CreateVehicleEntryDTO)
  : M Database VehicleEntryResponse :=
  lift (validateInput dto) ;;
  onVehicles (checkDuplicateEntry (dto_vehicleNumber dto)) ;;
  found <- gets (fun db =>
             ParkingZoneRepository.findAvailableZone (parking_zones db)) ;;
  match found with
  | None => throw NoParkingSlotsAvailable
  | Some zone' =>
      valet <- onValets (AssignValetRoundRobinUseCase.execute (env_now env)) ;;
      let token' := generateToken (env_now env) (env_tokenDraw env) in
      let slot' := allocateSlot (zoneCode zone') (env_slotDraw env) in
      let vehicle :=
        mkVehicle (env_uuid env) token'
          (normalizeVehicleNumber (dto_vehicleNumber dto))
          (normalizePhoneNumber (dto_customerPhone dto))
          (zoneCode zone') slot' PARKING (dto_customerType dto) (env_now env)
          None None None None None None (Some (dto_entryOperatorId dto))
          (Some (valet_id valet)) None (env_now env) (env_now env) in
      savedVehicle <-
        onVehicles (VehicleRepository.create (env_now env) (env_rowId env)
                                             vehicle) ;;
      onZones (ParkingZoneRepository.decrementAvailableSlots (zone_id zone')) ;;
      ret (mkResponse savedVehicle token' (zoneCode zone') slot'
                      (valet_id valet, name valet))
  end.

End CreateVehicleEntryUseCase.

(* ------------------------------------------------------------------ *)
(** * MarkVehicleParked.ts *)

Module MarkVehicleParkedUseCase.

(** Steps 3 and 6 taken alone: look the valet up, complete its task,
    persist it.  This is how a valet is released after an assignment. *)
Definition freeUpValet (now : Date) (valetId : string) : M (list Valet) unit :=
  found <- gets (ValetRepository.findById valetId) ;;
  match found with
  | None => throw AssignedValetNotFound
  | Some valet =>
      match ValetEntity.completeTask now valet with
      | (Err e, _) => throw e
      | (Ok _, valet) => ValetRepository.update now valet ;; ret tt
      end
  end.

Definition execute (now : Date) (vehicleId : string) : M Database Vehicle :=
  foundVehicle <- gets (fun db => VehicleRepository.findById vehicleId
                                    (vehicles db)) ;;
  match foundVehicle with
  | None => throw VehicleNotFound
  | Some vehicle =>
      match parkingValetId vehicle with
      | None => throw NoParkingValetAssigned
      | Some valetId =>
          throwIf (JS.falsy valetId) NoParkingValetAssigned ;;
          foundValet <- gets (fun db => ValetRepository.findById valetId
                                          (valets db)) ;;
          match foundValet with
          | None => throw AssignedValetNotFound
          | Some valet =>
              match VehicleEntity.markAsParked now vehicle with
              | (Err e, _) => throw e
              | (Ok _, vehicle) =>
                  onVehicles (VehicleRepository.updateState (v_id vehicle)
                                                            (state vehicle)) ;;
                  match ValetEntity.completeTask now valet with
                  | (Err e, _) => throw e
                  | (Ok _, valet) =>
                      onValets (ValetRepository.update now valet) ;;
                      ret vehicle
                  end
              end
          end
      end
  end.

End MarkVehicleParkedUseCase.

(* ------------------------------------------------------------------ *)
(** * StaffRole.ts: the permission matrix of the domain layer *)

Inductive StaffRole : Type :=
| ENTRY
| EXIT
| SUPERVISOR
| BILLING.

Module StaffPermissions.

Definition PERMISSIONS (role : StaffRole) : list string :=
  match role with
  | ENTRY => ["vehicle.create"; "vehicle.view"; "zone.view"; "valet.view"]
  | EXIT => ["vehicle.view"; "vehicle.search"; "vehicle.markDelivered";
             "vehicle.expedite"; "markout.override"]
  | SUPERVISOR => ["vehicle.*"; "valet.*"; "zone.*"; "staff.*"; "reports.*";
                   "markout.*"]
  | BILLING => ["vehicle.view"; "markout.trigger"]
  end.

Definition hasPermission (role : StaffRole) (permission : string) : bool :=
  let rolePermissions := PERMISSIONS role in
  let resource := JS.splitHead "." permission in
  let wildcardPermission := (resource ++ ".*")%string in
  JS.has rolePermissions permission || JS.has rolePermissions wildcardPermission.

Definition getPermissions (role : StaffRole) : list string := PERMISSIONS role.

Definition canCreateVehicleEntry (role : StaffRole) : bool :=
  hasPermission role "vehicle.create".

Definition canMarkDelivered (role : StaffRole) : bool :=
  hasPermission role "vehicle.markDelivered".

Definition canTriggerMarkOut (role : StaffRole) : bool :=
  hasPermission role "markout.trigger".

Definition canAccessReports (role : StaffRole) : bool :=
  hasPermission role "reports.*".

Definition isSupervisor (role : StaffRole) : bool :=
  match role with SUPERVISOR => true | _ => false end.

(** The value of the enum member, the string kept in [staff.role]. *)
Definition roleName (role : StaffRole) : string :=
  match role with
  | ENTRY => "ENTRY"
  | EXIT => "EXIT"
  | SUPERVISOR => "SUPERVISOR"
  | BILLING => "BILLING"
  end.

End StaffPermissions.

(* ------------------------------------------------------------------ *)
(** * auth.middleware.ts and context.ts: the permission check of the
      presentation layer (the two files carry the same function) *)

Module AccessControl.

(** What [rolePermissions[role]] evaluates to: the set of an own key, a
    member inherited from [Object.prototype], or [undefined]. *)
Inductive RoleLookup : Type :=
| OwnSet (permissions : list string)
| Inherited
| Undefined.

Definition objectPrototypeKeys : list string :=
  ["constructor"; "__defineGetter__"; "__defineSetter__"; "hasOwnProperty";
   "__lookupGetter__"; "__lookupSetter__"; "isPrototypeOf";
   "propertyIsEnumerable"; "toString"; "valueOf"; "__proto__";
   "toLocaleString"].

Definition rolePermissions (role : string) : RoleLookup :=
  if String.eqb role "ENTRY"
  then OwnSet ["vehicle.create"; "vehicle.view"; "zone.view"; "valet.view"]
  else if String.eqb role "EXIT"
  then OwnSet ["vehicle.view"; "vehicle.search"; "vehicle.markDelivered";
               "vehicle.expedite"; "markout.override"]
  else if String.eqb role "SUPERVISOR"
  then OwnSet ["*"]
  else if String.eqb role "BILLING"
  then OwnSet ["vehicle.view"; "markout.trigger"]
  else if JS.has objectPrototypeKeys role
  then Inherited
  else Undefined.

(** An inherited member is truthy and has no [has] method: the call
    [permissions.has('*')] throws a [TypeError]. *)
Definition checkPermission (role permission : string) : Result bool :=
  match rolePermissions role with
  | Undefined => Ok false
  | Inherited => Err TypeError
  | OwnSet permissions =>
      if JS.has permissions "*" then Ok true
      else if JS.has permissions permission then Ok true
      else
        let resource := JS.splitHead "." permission in
        if JS.has permissions (resource ++ ".*")%string then Ok true
        else Ok false
  end.

End AccessControl.

(* ------------------------------------------------------------------ *)
(** * Vocabulary of the properties *)

(** One dispatch round: assign a task, then release the valet that got it
    (the use case of [AssignValetRoundRobin.ts] followed by the release of
    [MarkVehicleParked.ts]). *)
Definition assignThenComplete (now : Date) : M (list Valet) Valet :=
  valet <- AssignValetRoundRobinUseCase.execute now ;;
  MarkVehicleParkedUseCase.freeUpValet now (valet_id valet) ;;
  ret valet.

(** K sequential rounds, the i-th at the clock reading [times[i]]. *)
Fixpoint dispatchRounds (times : list Date) : M (list Valet) unit :=
  match times with
  | [] => ret tt
  | now :: later => assignThenComplete now ;; dispatchRounds later
  end.

(** The valet as [assignTask] leaves it at [now]. *)
Definition assigned (now : Date) (v : Valet) : Valet :=
  mkValet (valet_id v) (name v) (phone v) BUSY (assignmentSequence v + 1)
    (todayCount v + 1) (totalCount v + 1) (employeeId v) (shiftStart v)
    (shiftEnd v) (isActive v) (valet_createdAt v) now.

(** [s] is [VLT-] followed by exactly [n] decimal digits. *)
Definition tokenFormat (n : nat) (s : string) : bool :=
  String.eqb (JS.sliceTo 4 s) "VLT-"
  && Nat.eqb (String.length (JS.sliceFrom 4 s)) n
  && JS.allChars JS.isDigit (JS.sliceFrom 4 s).

(** A vehicle that occupies a slot: its record is neither delivered nor
    closed. *)
Definition isActiveRecord (v : Vehicle) : bool :=
  negb (includes [DELIVERED; CLOSED] (state v)).

(** No active record later in the table shares zone and slot label with
    [v]. *)
Definition labelFreeIn (v : Vehicle) (rows : list Vehicle) : bool :=
  forallb (fun w => negb (isActiveRecord w && String.eqb (zone w) (zone v)
                          && String.eqb (slot w) (slot v))) rows.

(** Any two distinct active records of one zone carry different labels. *)
Fixpoint slotLabelsDistinct (rows : list Vehicle) : bool :=
  match rows with
  | [] => true
  | v :: rest =>
      (negb (isActiveRecord v) || labelFreeIn v rest)
      && slotLabelsDistinct rest
  end.

(** The vehicle entity that [execute] builds at step 7. *)
Definition entryVehicle (env : CreateVehicleEntryUseCase.Env)
  (dto : CreateVehicleEntryUseCase.CreateVehicleEntryDTO)
  (zone' : ParkingZone) (valet : Valet) : Vehicle :=
  mkVehicle (CreateVehicleEntryUseCase.env_uuid env) (CreateVehicleEntryUseCase.generateToken (CreateVehicleEntryUseCase.env_now env) (CreateVehicleEntryUseCase.env_tokenDraw env))
    (CreateVehicleEntryUseCase.normalizeVehicleNumber (CreateVehicleEntryUseCase.dto_vehicleNumber dto))
    (CreateVehicleEntryUseCase.normalizePhoneNumber (CreateVehicleEntryUseCase.dto_customerPhone dto))
    (zoneCode zone') (CreateVehicleEntryUseCase.allocateSlot (zoneCode zone') (CreateVehicleEntryUseCase.env_slotDraw env))
    PARKING (CreateVehicleEntryUseCase.dto_customerType dto) (CreateVehicleEntryUseCase.env_now env)
    None None None None None None (Some (CreateVehicleEntryUseCase.dto_entryOperatorId dto))
    (Some (valet_id valet)) None (CreateVehicleEntryUseCase.env_now env) (CreateVehicleEntryUseCase.env_now env).

(** The assignable valets of the table at [now]. *)
Definition assignable (now : Date) (rows : list Valet) (v : Valet) : Prop :=
  In v rows /\ ValetEntity.canBeAssigned now v = true.

(** The row [x] after the valet [sel] has been assigned a task and has
    completed it at [now]: the rows of that valet's id carry its counters,
    one higher, and are FREE again. *)
Definition released (now : Date) (sel x : Valet) : Valet :=
  if String.eqb (valet_id x) (valet_id sel)
  then mkValet (valet_id x) (name x) (phone x) FREE (assignmentSequence sel + 1)
         (todayCount sel + 1) (totalCount sel + 1) (employeeId x) (shiftStart x)
         (shiftEnd x) (isActive x) (valet_createdAt x) now
  else x.

(** The fairness invariant of the dispatch rounds: every valet is active,
    FREE and in shift at each of [times], and its counters are either the
    base pair [(s, t)] or one above it. *)
Definition Fair (times : list Date) (s t : Z) (rows : list Valet) : Prop :=
  forall v, In v rows ->
    isActive v = true /\ status v = FREE /\
    (forall now, In now times -> ValetEntity.isInShift now v = true) /\
    ((assignmentSequence v = s /\ todayCount v = t) \/
     (assignmentSequence v = s + 1 /\ todayCount v = t + 1)).

(** The place of a state in the lifecycle. *)
Definition rank (s : VehicleState) : Z :=
  match s with
  | PARKING => 0
  | PARKED => 1
  | WAITING_MARKOUT => 2
  | SCHEDULED => 3
  | RETRIEVAL_ASSIGNED => 4
  | ON_THE_WAY => 5
  | DELIVERED => 6
  | CLOSED => 7
  end.

(** A history of states in which each step is a transition that
    [VehicleStateMachine.transition] accepts. *)
Fixpoint validChain (path : list VehicleState) : Prop :=
  match path with
  | a :: (b :: _) as rest =>
      VehicleStateMachine.transition a b = Ok b /\ validChain rest
  | _ => True
  end.

(** The state a method of the vehicle entity moves to. *)
Definition target (op : VehicleEntity.Op) : VehicleState :=
  match op with
  | VehicleEntity.OpMarkAsParked => PARKED
  | VehicleEntity.OpRequestMarkOut _ => SCHEDULED
  | VehicleEntity.OpAssignRetrievalValet _ => RETRIEVAL_ASSIGNED
  | VehicleEntity.OpStartRetrieval => ON_THE_WAY
  | VehicleEntity.OpMarkAsDelivered => DELIVERED
  | VehicleEntity.OpClose => CLOSED
  end.

(** The constructor arguments of a vehicle that are declared [readonly]. *)
Definition sameIdentity (v w : Vehicle) : Prop :=
  v_id w = v_id v /\ token w = token v /\ vehicleNumber w = vehicleNumber v /\
  customerPhone w = customerPhone v /\ zone w = zone v /\ slot w = slot v /\
  customerType w = customerType v /\ arrivedAt w = arrivedAt v /\
  entryOperatorId w = entryOperatorId v /\ v_createdAt w = v_createdAt v.

(** Calls in sequence, stopping at the first one that throws. *)
Definition vehicleCalls (calls : list (Date * VehicleEntity.Op))
  : M Vehicle unit :=
  forEach calls (fun call => VehicleEntity.run (fst call) (snd call)).

Definition valetCalls (calls : list (Date * ValetEntity.Op)) : M Valet unit :=
  forEach calls (fun call => ValetEntity.run (fst call) (snd call)).

(** Assignments one after the other, nobody released in between; the
    valets assigned, in order. *)
Fixpoint assignEach (times : list Date) : M (list Valet) (list Valet) :=
  match times with
  | [] => ret []
  | now :: later =>
      valet <- AssignValetRoundRobinUseCase.execute now ;;
      valets <- assignEach later ;;
      ret (valet :: valets)
  end.

(** The valets of the table that wait for a task. *)
Definition freeValets (rows : list Valet) : list Valet :=
  filter (fun v => isActive v && ValetStatus_eqb (status v) FREE) rows.

(** A row after the daily reset at [now]. *)
Definition resetRow (now : Date) (x : Valet) : Valet :=
  mkValet (valet_id x) (name x) (phone x) (status x) 0 0 (totalCount x)
    (employeeId x) (shiftStart x) (shiftEnd x) (isActive x)
    (valet_createdAt x) now.

(** The row [x] after the task of the valet [cur] has been taken away at
    [now]: the rows of that valet's id carry its status and total count and
    its two daily counters lowered by one, not below zero. *)
Definition abandoned (now : Date) (cur x : Valet) : Valet :=
  if String.eqb (valet_id x) (valet_id cur)
  then mkValet (valet_id x) (name x) (phone x) (status cur)
         (Z.max 0 (assignmentSequence cur - 1)) (Z.max 0 (todayCount cur - 1))
         (totalCount cur) (employeeId x) (shiftStart x) (shiftEnd x)
         (isActive x) (valet_createdAt x) now
  else x.

(** The table while the reset loop runs: the rows whose id has been
    visited are reset, the others are as they were. *)
Definition resetSome (now : Date) (visited : list string) (x : Valet) : Valet :=
  if JS.has visited (valet_id x) then resetRow now x else x.

(** An ASCII lower-case letter. *)
Definition isLowerCase (c : ascii) : bool :=
  let n := N_of_ascii c in ((97 <=? n) && (n <=? 122))%N.

(** The error of the storage layer on the vehicle insert. *)
Definition isInsertError (e : Error) : bool :=
  match e with UniqueConstraintFailed _ => true | _ => false end.

(** The free slots of all zones together. *)
Definition totalAvailable (zones : list ParkingZone) : Z :=
  fold_right (fun z acc => availableSlots z + acc) 0 zones.

(** The plates of the vehicles that are inside. *)
Definition activePlates (rows : list Vehicle) : list string :=
  map vehicleNumber (filter isActiveRecord rows).

(** Arrivals one after the other, each with what it reads from outside;
    an arrival that is refused leaves the database as the failure left it
    and the next one goes on. *)
Fixpoint runEntries
  (calls : list (CreateVehicleEntryUseCase.Env *
                 CreateVehicleEntryUseCase.CreateVehicleEntryDTO))
  (db : Database) : Database :=
  match calls with
  | [] => db
  | (env, dto) :: rest =>
      runEntries rest (snd (CreateVehicleEntryUseCase.execute env dto db))
  end.

(** The [k] low decimal digits of [n], most significant first. *)
Fixpoint decimal (k : nat) (n : Z) : string :=
  match k with
  | O => EmptyString
  | S k' =>
      (decimal k' (n / 10) ++ String (JS.digitChar (n mod 10)) EmptyString)%string
  end.

(* ------------------------------------------------------------------ *)
(** * Sample data *)

Module Sample.

(** A vehicle parked at minute 1 whose retrieval is scheduled for minute 7. *)
Definition scheduledVehicle : Vehicle :=
  mkVehicle "veh-1" "VLT-12345600" "KL07AB1234" "9876543210" "A" "42"
    SCHEDULED None 0 (Some 60000) (Some 120000) (Some 420000) None None None
    None (Some "valet-1") None 0 120000.

(** The same vehicle once a retrieval valet has been assigned. *)
Definition assignedVehicle : Vehicle :=
  VehicleEntity.set_retrievalValetId (Some "valet-2")
    (VehicleEntity.set_state RETRIEVAL_ASSIGNED scheduledVehicle).

(** Two valets at the start of the day, without shift windows. *)
Definition anil : Valet :=
  mkValet "valet-1" "Anil" "9000000001" FREE 0 0 0 None None None true 0 0.

Definition binu : Valet :=
  mkValet "valet-2" "Binu" "9000000002" FREE 0 0 0 None None None true 0 0.

(** A valet on the night shift, 22:00 to 06:00. *)
Definition nightValet : Valet :=
  mkValet "valet-4" "Devan" "9000000004" FREE 0 0 0 None
    (Some 79200000) (Some 21600000) true 0 0.

(** A valet in the middle of a task. *)
Definition busyValet : Valet :=
  mkValet "valet-3" "Chacko" "9000000003" BUSY 4 4 40 None None None true 0 0.

Definition zoneA : ParkingZone :=
  mkParkingZone "zone-1" "A" 2 2 true None None None None 1.

Definition fullZone : ParkingZone :=
  mkParkingZone "zone-1" "A" 2 0 true None None None None 1.

Definition emptyLot : Database := mkDatabase [anil; binu] [] [zoneA].

(** The vehicle of [scheduledVehicle] after it has left. *)
Definition closedVehicle : Vehicle :=
  mkVehicle "veh-0" "VLT-99999900" "KL07AB1234" "9876543210" "A" "17"
    CLOSED None 0 None None None None None None None (Some "valet-1") None 0 0.

Definition firstEnv : CreateVehicleEntryUseCase.Env :=
  CreateVehicleEntryUseCase.mkEnv 1700000123456 7 41 "uuid-1" "veh-1".

Definition firstEntry : CreateVehicleEntryUseCase.CreateVehicleEntryDTO :=
  CreateVehicleEntryUseCase.mkDTO "kl 07 ab 1234" "9876543210" None "op-1".

(** The plate of [firstEntry] is inside, waiting for its retrieval. *)
Definition occupiedLot : Database :=
  mkDatabase [anil; binu] [scheduledVehicle] [zoneA].

(** The plate of [firstEntry] has been here and has left. *)
Definition vacatedLot : Database :=
  mkDatabase [anil; binu] [closedVehicle] [zoneA].

(** The same, with every slot of the only zone taken. *)
Definition fullLot : Database :=
  mkDatabase [anil; binu] [closedVehicle] [fullZone].

Definition badPhoneEntry : CreateVehicleEntryUseCase.CreateVehicleEntryDTO :=
  CreateVehicleEntryUseCase.mkDTO "KL07AB1234" "12345" None "op-1".

(** A second arrival, for which the slot draw comes out the same. *)
Definition secondEnv : CreateVehicleEntryUseCase.Env :=
  CreateVehicleEntryUseCase.mkEnv 1700000200000 8 41 "uuid-2" "veh-2".

Definition secondEntry : CreateVehicleEntryUseCase.CreateVehicleEntryDTO :=
  CreateVehicleEntryUseCase.mkDTO "KL01CD5678" "9123456780" None "op-1".

End Sample.

(* ------------------------------------------------------------------ *)
(** * Properties of the vehicle entity *)

Section VehicleProperties.
Import VehicleEntity VehicleStateMachine.

Local Ltac run_method :=
  cbv [startRetrieval assignRetrievalValet markAsParked requestMarkOut
       markAsDelivered close run bind gets throwIf throw ret modify lift
       transition transitions isReadyForRetrieval canBeMarkedOut
       canRequestMarkOut canBeMarkedParked isRetrievalTimeReached includes
       existsb VehicleState_eqb negb orb andb].

(** Every method but [assignRetrievalValet] checks before it writes: when
    it throws, the object is as it was. *)
Lemma failure_leaves_vehicle_unchanged (now : Date) (op : Op) (v v' : Vehicle)
  (e : Error) :
  (forall id, op <> OpAssignRetrievalValet id) ->
  run now op v = (Err e, v') -> v' = v.
Proof.
  intros Hop. destruct op as [| m | id | | |]; try (exfalso; eapply Hop; reflexivity).
  - run_method. destruct v as [? ? ? ? ? ? st ? ? ? ? ? ? ? ? ? pv ? ? ?]; simpl.
    destruct st, pv; simpl; intros H; inversion H; reflexivity.
  - run_method. destruct v as [? ? ? ? ? ? st ? ? ? ? ? ? ? ? ? pv ? ? ?]; simpl.
    destruct st; simpl; try (intros H; inversion H; reflexivity);
      destruct (m =? 5), (m =? 7), (m =? 10); simpl;
      intros H; inversion H; reflexivity.
  - run_method. destruct v as [? ? ? ? ? ? st ? ? ? ? sch ? ? ? ? pv ? ? ?]; simpl.
    destruct st; simpl; try (intros H; inversion H; reflexivity);
      destruct sch as [t|]; simpl; try (intros H; inversion H; reflexivity);
      destruct (t <=? now); simpl; intros H; inversion H; reflexivity.
  - run_method. destruct v as [? ? ? ? ? ? st ? ? ? ? ? ? ? ? ? pv ? ? ?]; simpl.
    destruct st; simpl; intros H; inversion H; reflexivity.
  - run_method. destruct v as [? ? ? ? ? ? st ? ? ? ? ? ? ? ? ? pv ? ? ?]; simpl.
    destruct st; simpl; intros H; inversion H; reflexivity.
Qed.

(** [assignRetrievalValet] called in a state that its own guard refuses
    leaves the object as it was. *)
Lemma assignRetrievalValet_guard (now : Date) (id : string) (v : Vehicle) :
  isReadyForRetrieval (state v) = false ->
  assignRetrievalValet now id v = (Err (CannotAssignRetrievalValet (state v)), v).
Proof.
  intros H. unfold assignRetrievalValet, bind, gets, throwIf. rewrite H. reflexivity.
Qed.

(** From SCHEDULED it succeeds. *)
Lemma assignRetrievalValet_scheduled (now : Date) (id : string) (v : Vehicle) :
  state v = SCHEDULED ->
  assignRetrievalValet now id v =
    (Ok tt, set_updatedAt now (set_state RETRIEVAL_ASSIGNED
                                 (set_retrievalValetId (Some id) v))).
Proof.
  intros H. destruct v; simpl in H; subst. reflexivity.
Qed.

(** From RETRIEVAL_ASSIGNED, once the scheduled time has come,
    [startRetrieval] goes through. *)
Lemma startRetrieval_assigned (v : Vehicle) (now t : Date) :
  scheduledAt v = Some t -> state v = RETRIEVAL_ASSIGNED -> t <= now ->
  startRetrieval now v =
    (Ok tt, set_updatedAt now (set_retrievalStartedAt (Some now)
                                 (set_state ON_THE_WAY v))).
Proof.
  intros Hs Hst Hle. destruct v; simpl in Hs, Hst; subst.
  apply Z.leb_le in Hle. run_method. simpl. rewrite Hle. reflexivity.
Qed.

(** C1, the code at the failing input.  On a SCHEDULED vehicle whose
    [scheduledAt] is set, [startRetrieval] called at or after [scheduledAt]
    passes its guard and its time gate and is then refused by the
    transition table, which has no edge from SCHEDULED to ON_THE_WAY: it
    fails with the invalid-transition error.  Called before [scheduledAt]
    it fails with the time-gate error.  In both cases the vehicle is
    unchanged. *)
Theorem C1_startRetrieval_from_scheduled (v : Vehicle) (now t : Date) :
  state v = SCHEDULED -> scheduledAt v = Some t ->
  (t <= now ->
   startRetrieval now v = (Err (InvalidStateTransition SCHEDULED ON_THE_WAY), v)) /\
  (now < t ->
   startRetrieval now v = (Err RetrievalTimeNotReached, v)).
Proof.
  intros Hst Hs. destruct v; simpl in Hs, Hst; subst. split.
  - intros Hle. apply Z.leb_le in Hle. run_method. simpl. rewrite Hle. reflexivity.
  - intros Hlt. apply Z.leb_gt in Hlt. run_method. simpl. rewrite Hlt. reflexivity.
Qed.

Lemma C1_startRetrieval_from_scheduled_witness :
  startRetrieval 420000 Sample.scheduledVehicle
  = (Err (InvalidStateTransition SCHEDULED ON_THE_WAY), Sample.scheduledVehicle) /\
  startRetrieval 419999 Sample.scheduledVehicle
  = (Err RetrievalTimeNotReached, Sample.scheduledVehicle).
Proof.
  split.
  - apply (proj1 (C1_startRetrieval_from_scheduled Sample.scheduledVehicle
                    420000 420000 eq_refl eq_refl)). lia.
  - apply (proj2 (C1_startRetrieval_from_scheduled Sample.scheduledVehicle
                    419999 420000 eq_refl eq_refl)). lia.
Defined.

(** C2, the code at the failing input.  On a vehicle already in
    RETRIEVAL_ASSIGNED, [assignRetrievalValet] always fails, and it fails
    after it has overwritten [retrievalValetId]: the vehicle that the
    exception leaves carries the new valet id. *)
Theorem C2_assignRetrievalValet_partial_write (v : Vehicle) (now : Date)
  (valetId : string) :
  state v = RETRIEVAL_ASSIGNED ->
  assignRetrievalValet now valetId v =
    (Err (InvalidStateTransition RETRIEVAL_ASSIGNED RETRIEVAL_ASSIGNED),
     set_retrievalValetId (Some valetId) v).
Proof.
  intros Hst. destruct v; simpl in Hst; subst. reflexivity.
Qed.

Lemma C2_assignRetrievalValet_partial_write_witness :
  retrievalValetId Sample.assignedVehicle = Some "valet-2" /\
  fst (assignRetrievalValet 420000 "valet-7" Sample.assignedVehicle)
  = Err (InvalidStateTransition RETRIEVAL_ASSIGNED RETRIEVAL_ASSIGNED) /\
  retrievalValetId (snd (assignRetrievalValet 420000 "valet-7" Sample.assignedVehicle))
  = Some "valet-7".
Proof.
  rewrite (C2_assignRetrievalValet_partial_write Sample.assignedVehicle 420000 "valet-7" eq_refl).
  repeat split.
Defined.

End VehicleProperties.

(* ------------------------------------------------------------------ *)
(** * Properties of the valet entity *)

Section ValetProperties.
Import ValetEntity.

(** C10.  A BUSY valet leaves that status only through [completeTask], and
    then to FREE: [takeBreak] and [goOffDuty] on a BUSY valet fail and leave
    it unchanged, and after any single method of the entity the status is
    still BUSY unless the method was [completeTask], which makes it FREE. *)
Theorem C10_busy_released_only_by_completeTask (v : Valet) (now : Date)
  (op : Op) :
  status v = BUSY ->
  takeBreak now v = (Err CannotTakeBreakWhileBusy, v) /\
  goOffDuty now v = (Err CannotGoOffDutyWhileBusy, v) /\
  (status (snd (run now op v)) <> BUSY ->
   op = OpCompleteTask /\ fst (run now op v) = Ok tt /\
   status (snd (run now op v)) = FREE) /\
  (op <> OpCompleteTask -> op <> OpResetDailyCounters ->
   exists e, run now op v = (Err e, v)).
Proof.
  intros Hst. destruct v as [i n p st sq td tt' em ss se ia ca ua].
  simpl in Hst; subst st.
  split; [reflexivity | split; [reflexivity | split]].
  - destruct op; simpl; unfold assignTask, canBeAssigned, bind, gets, throwIf;
      simpl; try rewrite andb_false_r; simpl; intros H;
      try (exfalso; apply H; reflexivity).
    repeat split.
  - intros H1 H2. destruct op; try congruence; simpl;
      unfold assignTask, canBeAssigned, bind, gets, throwIf; simpl;
      try rewrite andb_false_r; simpl; eexists; reflexivity.
Qed.

End ValetProperties.

(* ------------------------------------------------------------------ *)
(** * Properties of the zone entity *)

Section ZoneProperties.
Import ParkingZoneEntity.

Lemma run_keeps_bounds (op : Op) (z : ParkingZone) :
  0 <= availableSlots z <= totalSlots z ->
  0 <= availableSlots (snd (run op z)) <= totalSlots z /\
  totalSlots (snd (run op z)) = totalSlots z.
Proof.
  intros H. destruct z as [i c tot av a ca ua zn zd pr]; simpl in *.
  destruct op; simpl; unfold occupySlot, releaseSlot, bind, gets, throwIf; simpl.
  - destruct (Z.leb_spec av 0); simpl; lia.
  - destruct (Z.leb_spec tot av); simpl; lia.
Qed.

(** The entity.  On a zone whose [availableSlots] is within
    [0, totalSlots], every sequence of [occupySlot] and [releaseSlot] calls
    leaves it within these bounds; [occupySlot] at [availableSlots = 0]
    fails and changes nothing, and [releaseSlot] at
    [availableSlots = totalSlots] fails with the all-slots-already-free
    error and changes nothing. *)
Lemma entity_slots_within_bounds (z : ParkingZone) (ops : list Op) :
  0 <= availableSlots z <= totalSlots z ->
  (0 <= availableSlots (runAll ops z) <= totalSlots (runAll ops z)) /\
  totalSlots (runAll ops z) = totalSlots z /\
  (availableSlots z = 0 -> occupySlot z = (Err NoSlotsAvailable, z)) /\
  (availableSlots z = totalSlots z ->
   releaseSlot z = (Err AllSlotsAlreadyFree, z)).
Proof.
  intros H. split; [| split; [| split]].
  - revert z H. induction ops as [| op ops IH]; intros z H; simpl; [exact H |].
    apply IH. destruct (run_keeps_bounds op z H) as [H1 H2]. rewrite H2. exact H1.
  - revert z H. induction ops as [| op ops IH]; intros z H; simpl; [reflexivity |].
    destruct (run_keeps_bounds op z H) as [H1 H2].
    rewrite IH; [exact H2 | rewrite H2; exact H1].
  - intros H0. unfold occupySlot, bind, gets, throwIf. rewrite H0. reflexivity.
  - intros H0. unfold releaseSlot, bind, gets, throwIf. rewrite H0.
    rewrite Z.leb_refl. reflexivity.
Qed.

End ZoneProperties.

(* ------------------------------------------------------------------ *)
(** * Facts about the string helpers *)

Section StringFacts.
Import JS.

Lemma filterChars_app (p : ascii -> bool) (a b : string) :
  filterChars p (a ++ b)%string = (filterChars p a ++ filterChars p b)%string.
Proof.
  induction a as [| c a IH]; simpl; [reflexivity |].
  destruct (p c); simpl; rewrite IH; reflexivity.
Qed.

Lemma filterChars_all (p : ascii -> bool) (s : string) :
  allChars p s = true -> filterChars p s = s.
Proof.
  induction s as [| c s IH]; simpl; [reflexivity |].
  intros H. apply andb_true_iff in H as [Hc Hs]. rewrite Hc, IH; auto.
Qed.

Lemma allChars_filterChars (p : ascii -> bool) (s : string) :
  allChars p (filterChars p s) = true.
Proof.
  induction s as [| c s IH]; simpl; [reflexivity |].
  destruct (p c) eqn:Hc; simpl; [rewrite Hc |]; exact IH.
Qed.

Lemma strlen_cons (c : ascii) (s : string) : strlen (String c s) = strlen s + 1.
Proof. unfold strlen. simpl String.length. lia. Qed.

Lemma strlen_nonneg (s : string) : 0 <= strlen s.
Proof. unfold strlen. lia. Qed.

Lemma trim_keeps_nonblank (c : ascii) (s : string) :
  isSpace c = false -> (strlen (trim (String c s)) =? 0) = false.
Proof.
  intros Hc. unfold trim. simpl trimStart. rewrite Hc. simpl trimEnd.
  destruct (trimEnd s) as [| c' s']; [rewrite Hc |]; rewrite strlen_cons;
    apply Z.eqb_neq.
  - pose proof (strlen_nonneg EmptyString). lia.
  - pose proof (strlen_nonneg (String c' s')). lia.
Qed.

End StringFacts.

(* ------------------------------------------------------------------ *)
(** * Properties of the entry validation *)

Section ValidationProperties.
Import JS CreateVehicleEntryUseCase.

Lemma phoneRegex_test_length (s : string) :
  phoneRegex_test s = true -> strlen s = 10.
Proof.
  destruct s as [| c rest]; simpl; [discriminate |].
  intros H. apply andb_true_iff in H as [H _]. apply andb_true_iff in H as [_ H].
  apply Z.eqb_eq in H. rewrite strlen_cons. lia.
Qed.

(** A digit string that the pattern accepts is refused once [91] is put in
    front of it: twelve digits are not ten. *)
Lemma phoneRegex_test_country_code (d : string) :
  phoneRegex_test d = true -> phoneRegex_test ("91" ++ d)%string = false.
Proof.
  intros H. apply phoneRegex_test_length in H.
  change (phoneRegex_test ("91" ++ d)%string)
    with (true && (strlen (String "1" d) =? 9) && allChars isDigit (String "1" d)).
  rewrite strlen_cons, H. reflexivity.
Qed.

Lemma prefix_empty (s : string) : String.prefix EmptyString s = true.
Proof. destruct s; reflexivity. Qed.

(** What [validateInput] accepts. *)
Lemma validateInput_ok (dto : CreateVehicleEntryDTO) :
  validateInput dto = Ok tt <->
  (falsy (dto_vehicleNumber dto) = false /\
   (strlen (trim (dto_vehicleNumber dto)) =? 0) = false /\
   falsy (dto_customerPhone dto) = false /\
   (strlen (trim (dto_customerPhone dto)) =? 0) = false /\
   phoneRegex_test (removeNonDigits (dto_customerPhone dto)) = true /\
   falsy (dto_entryOperatorId dto) = false).
Proof.
  unfold validateInput.
  destruct (falsy (dto_vehicleNumber dto)),
    (strlen (trim (dto_vehicleNumber dto)) =? 0),
    (falsy (dto_customerPhone dto)),
    (strlen (trim (dto_customerPhone dto)) =? 0),
    (phoneRegex_test (removeNonDigits (dto_customerPhone dto))),
    (falsy (dto_entryOperatorId dto)); simpl;
    split; intros H; try discriminate; try reflexivity;
    repeat match goal with H : _ /\ _ |- _ => destruct H end;
    try discriminate; repeat split.
Qed.

(** C9, the code at the failing input.  A phone number that [validateInput]
    accepts is refused as soon as the country code [91] or [+91] is written
    in front of it, and [createEntry] then fails without touching the
    database, although [normalizePhoneNumber] would strip that prefix. *)
Theorem C9_country_code_prefix_rejected (plate phone' operatorId pre : string)
  (ctype : option string) :
  validateInput (mkDTO plate phone' ctype operatorId) = Ok tt ->
  pre = "91" \/ pre = "+91" ->
  validateInput (mkDTO plate (pre ++ phone') ctype operatorId)
  = Err InvalidPhoneNumber /\
  (forall env db,
     execute env (mkDTO plate (pre ++ phone') ctype operatorId) db
     = (Err InvalidPhoneNumber, db)) /\
  normalizePhoneNumber (pre ++ phone') = normalizePhoneNumber phone'.
Proof.
  intros Hok Hpre. apply validateInput_ok in Hok. simpl in Hok.
  destruct Hok as (H1 & H2 & H3 & H4 & H5 & H6).
  set (d := removeNonDigits phone') in *.
  assert (Hclean : removeNonDigits (pre ++ phone') = ("91" ++ d)%string).
  { unfold removeNonDigits. rewrite filterChars_app.
    destruct Hpre; subst pre; reflexivity. }
  assert (Hval : validateInput (mkDTO plate (pre ++ phone') ctype operatorId)
                 = Err InvalidPhoneNumber).
  { unfold validateInput. simpl. rewrite H1, H2, Hclean.
    rewrite (phoneRegex_test_country_code d H5). simpl.
    destruct Hpre; subst pre; simpl append;
      rewrite trim_keeps_nonblank by reflexivity; reflexivity. }
  split; [exact Hval | split].
  - intros env db. unfold execute, bind, lift. rewrite Hval. reflexivity.
  - unfold normalizePhoneNumber. rewrite Hclean. fold d.
    pose proof (phoneRegex_test_length d H5) as Hlen.
    assert (Hs : startsWith "91" ("91" ++ d)%string = true).
    { unfold startsWith. simpl. apply prefix_empty. }
    rewrite Hs. simpl append. rewrite !strlen_cons, Hlen. simpl.
    rewrite andb_false_r. reflexivity.
Qed.

Lemma C9_country_code_prefix_rejected_witness :
  validateInput (mkDTO "KL07AB1234" "9876543210" None "op-1") = Ok tt /\
  validateInput (mkDTO "KL07AB1234" "+919876543210" None "op-1")
  = Err InvalidPhoneNumber /\
  normalizePhoneNumber "+919876543210" = "9876543210".
Proof.
  split; [reflexivity |].
  pose proof (C9_country_code_prefix_rejected "KL07AB1234" "9876543210" "op-1"
                "+91" None eq_refl (or_intror eq_refl)) as H.
  split; [exact (proj1 H) | exact (proj2 (proj2 H))].
Defined.

End ValidationProperties.

(* ------------------------------------------------------------------ *)
(** * Decimal numerals *)

Section NumeralFacts.
Import JS.

Lemma digitChar_isDigit (d : Z) : 0 <= d < 10 -> isDigit (digitChar d) = true.
Proof.
  intros H.
  assert (Hd : d = 0 \/ d = 1 \/ d = 2 \/ d = 3 \/ d = 4 \/ d = 5 \/ d = 6 \/
               d = 7 \/ d = 8 \/ d = 9) by lia.
  repeat (destruct Hd as [Hd | Hd]; [subst d; reflexivity |]).
  subst d; reflexivity.
Qed.

Lemma digitsFuel_digits (fuel : nat) :
  forall (n : Z) (acc : string),
    0 <= n -> allChars isDigit acc = true ->
    allChars isDigit (digitsFuel fuel n acc) = true.
Proof.
  induction fuel as [| fuel IH]; intros n acc Hn Hacc; simpl; [exact Hacc |].
  assert (Hd : allChars isDigit (String (digitChar (n mod 10)) acc) = true).
  { simpl. rewrite digitChar_isDigit by (apply Z.mod_pos_bound; lia). exact Hacc. }
  destruct (n <? 10); [exact Hd |].
  apply IH; [apply Z.div_pos; lia | exact Hd].
Qed.

Lemma digitsFuel_length_acc (fuel : nat) :
  forall (n : Z) (acc : string),
    (String.length acc <= String.length (digitsFuel fuel n acc))%nat.
Proof.
  induction fuel as [| fuel IH]; intros n acc; simpl; [lia |].
  destruct (n <? 10); simpl; [lia |].
  etransitivity; [| apply IH]. simpl. lia.
Qed.

(** A number of at least [10^k] has more than [k] digits, given the fuel. *)
Lemma digitsFuel_length_ge (k : nat) :
  forall (fuel : nat) (n : Z) (acc : string),
    10 ^ Z.of_nat k <= n < 2 ^ Z.of_nat fuel ->
    (S k + String.length acc <= String.length (digitsFuel fuel n acc))%nat.
Proof.
  induction k as [| k IH]; intros fuel n acc [Hlo Hhi].
  - change (10 ^ Z.of_nat 0) with 1 in Hlo.
    destruct fuel as [| fuel]; [change (2 ^ Z.of_nat 0) with 1 in Hhi; lia |].
    simpl digitsFuel. destruct (n <? 10); [simpl; lia |].
    etransitivity; [| apply digitsFuel_length_acc]. simpl. lia.
  - rewrite Nat2Z.inj_succ, Z.pow_succ_r in Hlo by lia.
    assert (0 < 10 ^ Z.of_nat k) by (apply Z.pow_pos_nonneg; lia).
    destruct fuel as [| fuel]; [change (2 ^ Z.of_nat 0) with 1 in Hhi; lia |].
    rewrite Nat2Z.inj_succ, Z.pow_succ_r in Hhi by lia.
    simpl digitsFuel. destruct (Z.ltb_spec n 10); [lia |].
    specialize (IH fuel (n / 10) (String (digitChar (n mod 10)) acc)).
    simpl in IH. etransitivity; [| apply IH].
    + lia.
    + split.
      * apply Z.div_le_lower_bound; lia.
      * apply Z.div_lt_upper_bound; lia.
Qed.

(** A number below [10^(k+1)] has at most [k+1] digits. *)
Lemma digitsFuel_length_le (k : nat) :
  forall (fuel : nat) (n : Z) (acc : string),
    0 <= n < 10 ^ Z.of_nat (S k) ->
    (String.length (digitsFuel fuel n acc) <= S k + String.length acc)%nat.
Proof.
  induction k as [| k IH]; intros fuel n acc [Hlo Hhi].
  - destruct fuel as [| fuel]; simpl; [lia |].
    change (10 ^ Z.of_nat 1) with 10 in Hhi.
    destruct (Z.ltb_spec n 10); [simpl; lia | lia].
  - destruct fuel as [| fuel]; simpl digitsFuel; [lia |].
    destruct (Z.ltb_spec n 10); [simpl; lia |].
    rewrite Nat2Z.inj_succ, Z.pow_succ_r in Hhi by lia.
    specialize (IH fuel (n / 10) (String (digitChar (n mod 10)) acc)).
    simpl String.length in IH. etransitivity; [apply IH |].
    + split; [apply Z.div_pos; lia | apply Z.div_lt_upper_bound; lia].
    + lia.
Qed.

Lemma numberToString_fuel (n : Z) :
  0 < n -> n < 2 ^ Z.of_nat (S (Z.to_nat (Z.log2 n))).
Proof.
  intros H. pose proof (Z.log2_spec n H) as [_ Hhi].
  pose proof (Z.log2_nonneg n).
  rewrite Nat2Z.inj_succ, Z2Nat.id by lia. exact Hhi.
Qed.

Lemma numberToString_digits (n : Z) :
  0 <= n -> allChars isDigit (numberToString n) = true.
Proof.
  intros H. unfold numberToString.
  destruct (Z.ltb_spec n 0); [lia |].
  apply digitsFuel_digits; [exact H | reflexivity].
Qed.

Lemma numberToString_length_ge (k : nat) (n : Z) :
  10 ^ Z.of_nat k <= n -> (S k <= String.length (numberToString n))%nat.
Proof.
  intros H.
  assert (0 < 10 ^ Z.of_nat k) by (apply Z.pow_pos_nonneg; lia).
  unfold numberToString. destruct (Z.ltb_spec n 0); [lia |].
  pose proof (digitsFuel_length_ge k (S (Z.to_nat (Z.log2 n))) n EmptyString) as Hge.
  simpl String.length in Hge. rewrite Nat.add_0_r in Hge. apply Hge.
  split; [exact H | apply numberToString_fuel; lia].
Qed.

Lemma numberToString_length_le (k : nat) (n : Z) :
  0 <= n < 10 ^ Z.of_nat (S k) ->
  (String.length (numberToString n) <= S k)%nat.
Proof.
  intros H. unfold numberToString. destruct (Z.ltb_spec n 0); [lia |].
  pose proof (digitsFuel_length_le k (S (Z.to_nat (Z.log2 n))) n EmptyString H) as Hle.
  change (String.length EmptyString) with 0%nat in Hle. lia.
Qed.

Lemma length_append (a b : string) :
  String.length (a ++ b)%string = (String.length a + String.length b)%nat.
Proof. induction a as [| c a IH]; simpl; [reflexivity | rewrite IH; reflexivity]. Qed.

Lemma allChars_append (p : ascii -> bool) (a b : string) :
  allChars p (a ++ b)%string = allChars p a && allChars p b.
Proof.
  induction a as [| c a IH]; simpl; [reflexivity |].
  rewrite IH. apply andb_assoc.
Qed.

Lemma length_repeatChar (c : ascii) (n : nat) : String.length (repeatChar c n) = n.
Proof. induction n as [| n IH]; simpl; [reflexivity | rewrite IH; reflexivity]. Qed.

Lemma allChars_repeatChar (p : ascii -> bool) (c : ascii) (n : nat) :
  p c = true -> allChars p (repeatChar c n) = true.
Proof. intros H. induction n as [| n IH]; simpl; [reflexivity | rewrite H; exact IH]. Qed.

Lemma length_sliceFrom (n : nat) :
  forall s, String.length (sliceFrom n s) = (String.length s - n)%nat.
Proof.
  induction n as [| n IH]; intros [| c s]; simpl; try reflexivity. apply IH.
Qed.

Lemma allChars_sliceFrom (p : ascii -> bool) (n : nat) :
  forall s, allChars p s = true -> allChars p (sliceFrom n s) = true.
Proof.
  induction n as [| n IH]; intros [| c s]; simpl; auto.
  intros H. apply andb_true_iff in H as [_ H]. apply IH, H.
Qed.

(** The three random digits of a token. *)
Lemma random_part (draw : Z) :
  0 <= draw < 1000 ->
  let random := padStart 3 "0" (numberToString draw) in
  String.length random = 3%nat /\ allChars isDigit random = true.
Proof.
  intros H random. subst random. unfold padStart.
  pose proof (numberToString_length_le 2 draw) as Hle.
  pose proof (numberToString_digits draw) as Hd.
  split.
  - rewrite length_append, length_repeatChar.
    assert (String.length (numberToString draw) <= 3)%nat by (apply Hle; simpl; lia).
    lia.
  - rewrite allChars_append, allChars_repeatChar by reflexivity.
    apply Hd. lia.
Qed.

(** The timestamp digits of a token, for a clock of five digits or more. *)
Lemma timestamp_part (now : Z) :
  10000 <= now ->
  let timestamp := sliceLast 6 (numberToString now) in
  (String.length timestamp = 5%nat \/ String.length timestamp = 6%nat) /\
  allChars isDigit timestamp = true.
Proof.
  intros H timestamp. subst timestamp. unfold sliceLast.
  pose proof (numberToString_length_ge 4 now) as Hge.
  assert (5 <= String.length (numberToString now))%nat by (apply Hge; simpl; lia).
  split.
  - rewrite length_sliceFrom. lia.
  - apply allChars_sliceFrom, numberToString_digits. lia.
Qed.

End NumeralFacts.

(* ------------------------------------------------------------------ *)
(** * Reasoning in the monad *)

Section MonadFacts.
Context {S A B : Type}.

Lemma bind_Ok_inv (m : M S A) (k : A -> M S B) (s s' : S) (b : B) :
  bind m k s = (Ok b, s') ->
  exists a s1, m s = (Ok a, s1) /\ k a s1 = (Ok b, s').
Proof.
  unfold bind. destruct (m s) as [[a | e] s1]; intros H.
  - exists a, s1. split; [reflexivity | exact H].
  - discriminate H.
Qed.

Lemma bind_Ok (m : M S A) (k : A -> M S B) (s s1 : S) (a : A) :
  m s = (Ok a, s1) -> bind m k s = k a s1.
Proof. unfold bind. intros ->. reflexivity. Qed.

Lemma bind_Err (m : M S A) (k : A -> M S B) (s s1 : S) (e : Error) :
  m s = (Err e, s1) -> bind m k s = (Err e, s1).
Proof. unfold bind. intros ->. reflexivity. Qed.

End MonadFacts.

(* ------------------------------------------------------------------ *)
(** * Properties of the entry use case *)

Section EntryProperties.
Import JS CreateVehicleEntryUseCase.

(** What a successful [execute] has gone through and what it leaves. *)
Lemma execute_ok_inv (env : Env) (dto : CreateVehicleEntryDTO)
  (db db' : Database) (res : VehicleEntryResponse) :
  execute env dto db = (Ok res, db') ->
  validateInput dto = Ok tt /\
  VehicleRepository.findActiveByVehicleNumber
    (normalizeVehicleNumber (dto_vehicleNumber dto)) (vehicles db) = None /\
  exists (zone' : ParkingZone) (valet : Valet) (valets' : list Valet),
    ParkingZoneRepository.findAvailableZone (parking_zones db) = Some zone' /\
    AssignValetRoundRobinUseCase.execute (env_now env) (valets db)
    = (Ok valet, valets') /\
    let row := VehicleRepository.newRow (env_now env) (env_rowId env)
                 (entryVehicle env dto zone' valet) in
    VehicleRepository.findByToken (token row) (vehicles db) = None /\
    res = mkResponse row (token row) (zoneCode zone') (slot row)
            (valet_id valet, name valet) /\
    db' = mkDatabase valets' (vehicles db ++ [row])%list
            (map (ParkingZoneRepository.addSlots (zone_id zone') (-1))
                 (parking_zones db)).
Proof.
  unfold execute. intros H.
  apply bind_Ok_inv in H as ([] & db1 & Hval & H).
  unfold lift in Hval. injection Hval as Hval ?; subst db1.
  apply bind_Ok_inv in H as ([] & db1 & Hdup & H).
  unfold onVehicles, checkDuplicateEntry, bind, gets in Hdup.
  destruct (VehicleRepository.findActiveByVehicleNumber _ (vehicles db))
    as [dup |] eqn:Hfind; [discriminate Hdup |].
  inversion Hdup; subst db1. clear Hdup.
  apply bind_Ok_inv in H as (found & db1 & Hzone & H).
  unfold gets in Hzone. inversion Hzone; subst found db1. clear Hzone. simpl in H.
  destruct (ParkingZoneRepository.findAvailableZone (parking_zones db))
    as [zone' |] eqn:Hzone; [| discriminate H].
  apply bind_Ok_inv in H as (valet & db1 & Hvalet & H).
  unfold onValets in Hvalet. simpl in Hvalet.
  destruct (AssignValetRoundRobinUseCase.execute (env_now env) (valets db))
    as [[valet' | e] valets'] eqn:Hassign; inversion Hvalet; subst valet' db1.
  clear Hvalet.
  fold (entryVehicle env dto zone' valet) in H.
  apply bind_Ok_inv in H as (saved & db1 & Hsave & H).
  unfold onVehicles, VehicleRepository.create, bind, gets, modify, ret in Hsave.
  simpl in Hsave.
  destruct (VehicleRepository.findByToken _ (vehicles db)) as [clash |] eqn:Htok;
    [discriminate Hsave |].
  inversion Hsave; subst saved db1. clear Hsave.
  apply bind_Ok_inv in H as ([] & db1 & Hdec & H).
  unfold onZones, ParkingZoneRepository.decrementAvailableSlots, bind, gets,
    modify in Hdec. simpl in Hdec.
  destruct (ParkingZoneRepository.findById (zone_id zone') (parking_zones db));
    [| discriminate Hdec].
  inversion Hdec; subst db1. clear Hdec.
  unfold ret in H. inversion H; subst res db'. clear H.
  split; [exact Hval | split; [reflexivity |]].
  exists zone', valet, valets'. repeat split; assumption.
Qed.

End EntryProperties.

(* ------------------------------------------------------------------ *)
(** * Facts about the stable sort *)

Section SortFacts.
Import JS.
Context {A : Type} (key : A -> Z).

Lemma insertBy_In (x y : A) (l : list A) :
  In y (insertBy key x l) <-> y = x \/ In y l.
Proof.
  induction l as [| z l IH]; simpl.
  - intuition.
  - destruct (key x <=? key z); simpl; [intuition | rewrite IH; intuition].
Qed.

Lemma sortBy_In (y : A) (l : list A) : In y (sortBy key l) <-> In y l.
Proof.
  induction l as [| x l IH]; simpl; [reflexivity |].
  rewrite insertBy_In, IH. intuition.
Qed.

Lemma insertBy_sorted (x : A) (l : list A) :
  StronglySorted (leBy key) l -> StronglySorted (leBy key) (insertBy key x l).
Proof.
  induction l as [| z l IH]; simpl; intros Hs.
  - constructor; constructor.
  - apply StronglySorted_inv in Hs as [Hl Hz].
    destruct (Z.leb_spec (key x) (key z)) as [Hle | Hgt].
    + constructor; [constructor; assumption |].
      constructor; [exact Hle |].
      eapply Forall_impl; [| exact Hz]. unfold leBy. intros a Ha. lia.
    + constructor; [apply IH, Hl |].
      apply Forall_forall. intros a Ha. apply insertBy_In in Ha as [-> | Ha].
      * unfold leBy. lia.
      * rewrite Forall_forall in Hz. apply Hz, Ha.
Qed.

Lemma sortBy_sorted (l : list A) : StronglySorted (leBy key) (sortBy key l).
Proof.
  induction l as [| x l IH]; simpl; [constructor | apply insertBy_sorted, IH].
Qed.

(** The first element of the sorted array has the least key. *)
Lemma sortBy_head_min (l : list A) (x : A) (xs : list A) :
  sortBy key l = x :: xs ->
  In x l /\ forall y, In y l -> key x <= key y.
Proof.
  intros H. split.
  - apply sortBy_In. rewrite H. left. reflexivity.
  - intros y Hy. apply sortBy_In in Hy. rewrite H in Hy.
    pose proof (sortBy_sorted l) as Hs. rewrite H in Hs.
    apply StronglySorted_inv in Hs as [_ Hx]. rewrite Forall_forall in Hx.
    destruct Hy as [<- | Hy]; [lia | apply Hx, Hy].
Qed.

Lemma sortBy_nonempty (l : list A) : l <> [] -> sortBy key l <> [].
Proof.
  destruct l as [| x l]; [congruence |]. intros _ H.
  assert (Hx : In x (sortBy key (x :: l))) by (apply sortBy_In; left; reflexivity).
  rewrite H in Hx. exact Hx.
Qed.

End SortFacts.

(* ------------------------------------------------------------------ *)
(** * Properties of the dispatcher *)

Section DispatcherProperties.
Import JS AssignValetRoundRobinUseCase.

(** Steps 3 and 4 pick a valet of least sequence and, among those of least
    sequence, of least count for the day. *)
Lemma selectValet_least (availableValets : list Valet) :
  availableValets <> [] ->
  exists sel,
    selectValet availableValets = Some sel /\
    In sel availableValets /\
    forall u, In u availableValets ->
      assignmentSequence sel <= assignmentSequence u /\
      (assignmentSequence u = assignmentSequence sel ->
       todayCount sel <= todayCount u).
Proof.
  intros Hne. unfold selectValet.
  destruct (sortBy assignmentSequence availableValets) as [| first rest] eqn:Hsort.
  { exfalso. eapply sortBy_nonempty; eauto. }
  destruct (sortBy_head_min _ _ _ _ Hsort) as [Hfirst Hmin].
  set (cands := filter (fun v => assignmentSequence v =? assignmentSequence first)
                       (first :: rest)).
  assert (Hcands : forall u, In u cands <->
            In u availableValets /\ assignmentSequence u = assignmentSequence first).
  { intros u. unfold cands. rewrite filter_In, <- Hsort, sortBy_In, Z.eqb_eq.
    reflexivity. }
  assert (Hpick : exists sel, hd_error
            (if 1 <? Z.of_nat (List.length cands)
             then sortBy todayCount cands else cands) = Some sel /\
            In sel cands /\ forall u, In u cands -> todayCount sel <= todayCount u).
  { destruct (Z.ltb_spec 1 (Z.of_nat (List.length cands))) as [Hlen | Hlen].
    - destruct (sortBy todayCount cands) as [| sel more] eqn:Hs2.
      + exfalso. apply (sortBy_nonempty todayCount cands); [| exact Hs2].
        intros Hnil. rewrite Hnil in Hlen. simpl in Hlen. lia.
      + exists sel. split; [reflexivity |]. apply (sortBy_head_min _ _ _ _ Hs2).
    - assert (Hin : In first cands) by (apply Hcands; split; [exact Hfirst | reflexivity]).
      destruct cands as [| c [| c' more]]; simpl in Hin, Hlen; [contradiction | | lia].
      exists c. split; [reflexivity |]. split; [left; reflexivity |].
      intros u [<- | []]. lia. }
  destruct Hpick as (sel & Hhd & Hsel & Htoday).
  exists sel. split; [exact Hhd |].
  apply Hcands in Hsel as [Hin Hseq]. split; [exact Hin |].
  intros u Hu. split.
  - rewrite Hseq. apply Hmin, Hu.
  - intros Heq. apply Htoday, Hcands. split; [exact Hu | congruence].
Qed.

Lemma assignTask_ok (now : Date) (v : Valet) :
  ValetEntity.canBeAssigned now v = true ->
  ValetEntity.assignTask now v = (Ok tt, assigned now v).
Proof.
  intros H. unfold ValetEntity.assignTask, bind, gets, throwIf. rewrite H.
  reflexivity.
Qed.

Lemma findById_present (v : Valet) (rows : list Valet) :
  In v rows -> exists row, ValetRepository.findById (valet_id v) rows = Some row
                           /\ In row rows /\ valet_id row = valet_id v.
Proof.
  intros Hin. unfold ValetRepository.findById.
  destruct (find (fun w => String.eqb (valet_id w) (valet_id v)) rows) as [row |] eqn:Hf.
  - exists row. apply find_some in Hf as [H1 H2]. apply String.eqb_eq in H2. auto.
  - exfalso. eapply find_none in Hf; [| exact Hin]. simpl in Hf.
    rewrite String.eqb_refl in Hf. discriminate.
Qed.

Lemma update_present (now : Date) (v : Valet) (rows : list Valet) :
  (exists row, In row rows /\ valet_id row = valet_id v) ->
  exists saved, ValetRepository.update now v rows
                = (Ok saved, map (ValetRepository.writeRow now v) rows).
Proof.
  intros (row & Hin & Hid). unfold ValetRepository.update, bind, gets, modify, ret.
  destruct (findById_present row rows Hin) as (r & Hf & _ & _).
  rewrite Hid in Hf. rewrite Hf. eexists. reflexivity.
Qed.

Lemma available_In (now : Date) (rows : list Valet) (v : Valet) :
  In v (filter (ValetEntity.canBeAssigned now) (ValetRepository.findActive rows))
  <-> assignable now rows v.
Proof.
  unfold assignable, ValetRepository.findActive.
  rewrite filter_In, sortBy_In, filter_In. split.
  - intros [[H1 _] H2]. auto.
  - intros [H1 H2]. repeat split; auto.
    unfold ValetEntity.canBeAssigned in H2.
    apply andb_true_iff in H2 as [H2 _]. apply andb_true_iff in H2 as [H2 _].
    exact H2.
Qed.

(** When somebody is assignable, [execute] assigns a valet of least
    sequence (of least count for the day among equals) and persists it. *)
Lemma execute_assigns_least (now : Date) (rows : list Valet) :
  (exists v, assignable now rows v) ->
  exists sel,
    assignable now rows sel /\
    (forall u, assignable now rows u ->
       assignmentSequence sel <= assignmentSequence u /\
       (assignmentSequence u = assignmentSequence sel ->
        todayCount sel <= todayCount u)) /\
    execute now rows
    = (Ok (assigned now sel),
       map (ValetRepository.writeRow now (assigned now sel)) rows).
Proof.
  intros (v & Hv).
  set (allValets := ValetRepository.findActive rows).
  set (availableValets := filter (ValetEntity.canBeAssigned now) allValets).
  assert (Hav : In v availableValets) by (apply available_In, Hv).
  assert (Hne : availableValets <> []) by (intros E; rewrite E in Hav; exact Hav).
  destruct (selectValet_least availableValets Hne) as (sel & Hsel & Hin & Hleast).
  apply available_In in Hin as Hass.
  exists sel. split; [exact Hass | split].
  - intros u Hu. apply Hleast, available_In, Hu.
  - unfold execute, bind, gets, throwIf. fold allValets. fold availableValets.
    assert (Hall : allValets <> []).
    { intros E. unfold availableValets in Hne. rewrite E in Hne. apply Hne. reflexivity. }
    destruct allValets as [| a al] eqn:Eall; [congruence |].
    destruct availableValets as [| b bl] eqn:Eav; [congruence |].
    cbn [List.length Z.of_nat Z.eqb Pos.of_succ_nat throw ret].
    rewrite Hsel. destruct Hass as [Hrows Hcan].
    rewrite (assignTask_ok now sel Hcan).
    destruct (update_present now (assigned now sel) rows) as (saved & Hup).
    { exists sel. split; [exact Hrows | reflexivity]. }
    unfold bind in Hup |- *. rewrite Hup. reflexivity.
Qed.

(** When nobody is assignable, [execute] fails with one of its two
    nobody-available errors and writes nothing. *)
Lemma execute_nobody (now : Date) (rows : list Valet) :
  (forall v, ~ assignable now rows v) ->
  exists e, execute now rows = (Err e, rows) /\ isNoAvailableValetError e = true.
Proof.
  intros Hnone. unfold execute, bind, gets, throwIf.
  set (allValets := ValetRepository.findActive rows).
  set (availableValets := filter (ValetEntity.canBeAssigned now) allValets).
  assert (Hav : forall b, ~ In b availableValets).
  { intros b Hb. apply (Hnone b), available_In, Hb. }
  destruct allValets as [| a al] eqn:Eall.
  - exists NoActiveValets. split; reflexivity.
  - destruct availableValets as [| b bl] eqn:Eav.
    + eexists. split; reflexivity.
    + exfalso. apply (Hav b). left. reflexivity.
Qed.

End DispatcherProperties.

Section DispatcherTheorems.
Import JS AssignValetRoundRobinUseCase.

Lemma canBeAssigned_iff (now : Date) (v : Valet) :
  ValetEntity.canBeAssigned now v = true <->
  status v = FREE /\ isActive v = true /\ ValetEntity.isInShift now v = true.
Proof.
  unfold ValetEntity.canBeAssigned, ValetStatusRules.canBeAssigned.
  rewrite !andb_true_iff. destruct (status v); simpl; intuition congruence.
Qed.

(** C3.  When at least one valet of the table is FREE, active and in
    shift, [execute] selects among those valets one of lowest
    [assignmentSequence] and, among the ones of that sequence, of lowest
    [todayCount]; it returns and persists that valet with
    [assignmentSequence], [todayCount] and [totalCount] one higher and with
    status BUSY.  When there is no such valet it fails with a
    nobody-available error and the table is as it was. *)
Theorem C3_round_robin_selection (now : Date) (rows : list Valet) :
  ((exists v, In v rows /\ status v = FREE /\ isActive v = true /\
              ValetEntity.isInShift now v = true) ->
   exists sel rows',
     (In sel rows /\ status sel = FREE /\ isActive sel = true /\
      ValetEntity.isInShift now sel = true) /\
     (forall u, In u rows -> status u = FREE -> isActive u = true ->
                ValetEntity.isInShift now u = true ->
        assignmentSequence sel <= assignmentSequence u /\
        (assignmentSequence u = assignmentSequence sel ->
         todayCount sel <= todayCount u)) /\
     execute now rows = (Ok (assigned now sel), rows') /\
     rows' = map (ValetRepository.writeRow now (assigned now sel)) rows /\
     In (assigned now sel) rows' /\
     status (assigned now sel) = BUSY /\
     assignmentSequence (assigned now sel) = assignmentSequence sel + 1 /\
     todayCount (assigned now sel) = todayCount sel + 1 /\
     totalCount (assigned now sel) = totalCount sel + 1) /\
  ((forall v, In v rows -> status v = FREE -> isActive v = true ->
              ValetEntity.isInShift now v = true -> False) ->
   exists e, execute now rows = (Err e, rows) /\
             isNoAvailableValetError e = true).
Proof.
  split.
  - intros (v & Hin & Hv).
    destruct (execute_assigns_least now rows) as (sel & [Hsel Hcan] & Hleast & Hex).
    { exists v. split; [exact Hin | apply canBeAssigned_iff, Hv]. }
    exists sel, (map (ValetRepository.writeRow now (assigned now sel)) rows).
    apply canBeAssigned_iff in Hcan.
    split; [split; [exact Hsel | exact Hcan] |].
    split.
    { intros u Hu H1 H2 H3. apply Hleast. split; [exact Hu |].
      apply canBeAssigned_iff. auto. }
    split; [exact Hex |]. split; [reflexivity |].
    split; [| repeat split].
    apply in_map_iff. exists sel. split; [| exact Hsel].
    unfold ValetRepository.writeRow, assigned. simpl.
    rewrite String.eqb_refl. reflexivity.
  - intros Hnone. apply execute_nobody. intros v [Hin Hcan].
    apply canBeAssigned_iff in Hcan as (H1 & H2 & H3). eauto.
Qed.

Lemma isInShift_released (now now' : Date) (sel x : Valet) :
  ValetEntity.isInShift now (released now' sel x) = ValetEntity.isInShift now x.
Proof.
  unfold released. destruct (String.eqb (valet_id x) (valet_id sel)); reflexivity.
Qed.

Lemma writeRow_twice (now : Date) (sel r x : Valet) :
  valet_id r = valet_id sel -> status r = BUSY ->
  assignmentSequence r = assignmentSequence sel + 1 ->
  todayCount r = todayCount sel + 1 -> totalCount r = totalCount sel + 1 ->
  ValetRepository.writeRow now
    (ValetEntity.set_updatedAt now (ValetEntity.set_status FREE r))
    (ValetRepository.writeRow now (assigned now sel) x)
  = released now sel x.
Proof.
  intros Hid Hst Hs Ht Htot. unfold ValetRepository.writeRow, released. simpl.
  destruct (String.eqb (valet_id x) (valet_id sel)) eqn:E; simpl.
  - rewrite Hid, E, Hs, Ht, Htot. reflexivity.
  - rewrite Hid, E. reflexivity.
Qed.

(** One round: the valet picked is of least sequence, and the table that
    the round leaves differs from the old one in the rows of that valet. *)
Lemma assignThenComplete_spec (now : Date) (rows : list Valet) :
  (exists v, assignable now rows v) ->
  exists sel,
    assignable now rows sel /\
    (forall u, assignable now rows u ->
       assignmentSequence sel <= assignmentSequence u) /\
    assignThenComplete now rows
    = (Ok (assigned now sel), map (released now sel) rows).
Proof.
  intros Hex.
  destruct (execute_assigns_least now rows Hex) as (sel & Hsel & Hleast & Hrun).
  exists sel. split; [exact Hsel | split; [intros u Hu; apply Hleast, Hu |]].
  unfold assignThenComplete. rewrite (bind_Ok _ _ _ _ _ Hrun).
  set (rows1 := map (ValetRepository.writeRow now (assigned now sel)) rows).
  assert (Hin1 : In (assigned now sel) rows1).
  { apply in_map_iff. exists sel. split; [| apply Hsel].
    unfold ValetRepository.writeRow, assigned. simpl.
    rewrite String.eqb_refl. reflexivity. }
  destruct (findById_present _ _ Hin1) as (r & Hfind & Hr & Hid).
  change (valet_id (assigned now sel)) with (valet_id sel) in Hfind, Hid.
  assert (Hr' : status r = BUSY /\
                assignmentSequence r = assignmentSequence sel + 1 /\
                todayCount r = todayCount sel + 1 /\
                totalCount r = totalCount sel + 1).
  { apply in_map_iff in Hr as (x & Hx & _). subst r.
    unfold ValetRepository.writeRow in Hid |- *. simpl in Hid |- *.
    destruct (String.eqb (valet_id x) (valet_id sel)) eqn:E; simpl; [auto |].
    rewrite Hid, String.eqb_refl in E. discriminate. }
  destruct Hr' as (Hst & Hs & Ht & Htot).
  assert (Hfree : MarkVehicleParkedUseCase.freeUpValet now (valet_id sel) rows1
                  = (Ok tt, map (released now sel) rows)).
  { unfold MarkVehicleParkedUseCase.freeUpValet, bind, gets. rewrite Hfind.
    unfold ValetEntity.completeTask, bind, gets, throwIf, modify, ret.
    rewrite Hst. simpl.
    destruct (update_present now
                (ValetEntity.set_updatedAt now (ValetEntity.set_status FREE r)) rows1)
      as (saved & Hup).
    { exists r. split; [exact Hr | reflexivity]. }
    change ValetStatusRules.getStatusAfterCompletion with FREE.
    rewrite Hup. f_equal. unfold rows1. rewrite map_map.
    apply map_ext. intros x. apply writeRow_twice; assumption. }
  change (valet_id (assigned now sel)) with (valet_id sel).
  rewrite (bind_Ok _ _ _ _ _ Hfree). reflexivity.
Qed.

Lemma Fair_assignable (now : Date) (times : list Date) (s t : Z)
  (rows : list Valet) (v : Valet) :
  Fair (now :: times) s t rows -> In v rows -> assignable now rows v.
Proof.
  intros HF Hin. destruct (HF v Hin) as (Ha & Hst & Hshift & _).
  split; [exact Hin |]. apply canBeAssigned_iff.
  repeat split; auto. apply Hshift. left. reflexivity.
Qed.

(** A round keeps the invariant, possibly one base higher. *)
Lemma Fair_step (now : Date) (times : list Date) (s t : Z) (rows : list Valet) :
  rows <> [] -> Fair (now :: times) s t rows ->
  exists sel rows' s' t',
    assignThenComplete now rows = (Ok sel, rows') /\
    map valet_id rows' = map valet_id rows /\
    Fair times s' t' rows'.
Proof.
  intros Hne HF.
  destruct rows as [| v0 rest] eqn:Erows; [congruence |]. rewrite <- Erows in *.
  assert (Hv0 : In v0 rows) by (rewrite Erows; left; reflexivity).
  destruct (assignThenComplete_spec now rows) as (sel & [Hsel Hcan] & Hleast & Hrun).
  { exists v0. eapply Fair_assignable; eauto. }
  assert (Hids : map valet_id (map (released now sel) rows) = map valet_id rows).
  { rewrite map_map. apply map_ext. intros x. unfold released.
    destruct (String.eqb (valet_id x) (valet_id sel)); reflexivity. }
  destruct (HF sel Hsel) as (_ & _ & _ & Hpair).
  assert (Hkeep : forall s' t',
            (forall x, In x rows ->
               (assignmentSequence x = s' /\ todayCount x = t') \/
               (assignmentSequence x = s' + 1 /\ todayCount x = t' + 1)) ->
            assignmentSequence sel = s' -> todayCount sel = t' ->
            Fair times s' t' (map (released now sel) rows)).
  { intros s' t' Hall Hs' Ht' y Hy. apply in_map_iff in Hy as (x & <- & Hx).
    destruct (HF x Hx) as (Ha & Hst & Hshift & _).
    split; [| split; [| split]].
    - unfold released. destruct (String.eqb _ _); [simpl; exact Ha | exact Ha].
    - unfold released. destruct (String.eqb _ _); [reflexivity | exact Hst].
    - intros now' Hnow'. rewrite isInShift_released. apply Hshift. right. exact Hnow'.
    - unfold released. destruct (String.eqb _ _); simpl.
      + right. lia.
      + apply Hall, Hx. }
  destruct Hpair as [[Hs Ht] | [Hs Ht]].
  - exists (assigned now sel), (map (released now sel) rows), s, t.
    split; [exact Hrun | split; [exact Hids |]].
    apply Hkeep; auto. intros x Hx. apply (HF x Hx).
  - exists (assigned now sel), (map (released now sel) rows), (s + 1), (t + 1).
    split; [exact Hrun | split; [exact Hids |]].
    apply Hkeep; auto. intros x Hx. left.
    destruct (HF x Hx) as (_ & _ & _ & [[Hxs Hxt] | [Hxs Hxt]]); [| auto].
    pose proof (Hleast x (Fair_assignable now times s t rows x HF Hx)). lia.
Qed.

Lemma Fair_rounds (times : list Date) :
  forall (s t : Z) (rows : list Valet),
    rows <> [] -> Fair times s t rows ->
    exists rows' s' t',
      dispatchRounds times rows = (Ok tt, rows') /\
      map valet_id rows' = map valet_id rows /\
      Fair [] s' t' rows'.
Proof.
  induction times as [| now later IH]; intros s t rows Hne HF.
  - exists rows, s, t. split; [reflexivity | split; [reflexivity | exact HF]].
  - destruct (Fair_step now later s t rows Hne HF)
      as (sel & rows1 & s1 & t1 & Hrun & Hids & HF1).
    assert (Hne1 : rows1 <> []).
    { intros E. rewrite E in Hids. destruct rows; [congruence | discriminate]. }
    destruct (IH s1 t1 rows1 Hne1 HF1) as (rows' & s' & t' & Hrest & Hids' & HF').
    exists rows', s', t'. split; [| split; [congruence | exact HF']].
    simpl. rewrite (bind_Ok _ _ _ _ _ Hrun). exact Hrest.
Qed.

(** C6.  Starting from N >= 1 valets that are FREE, active, in shift at
    every call and have equal counters, K sequential rounds (assign, then
    complete the valet assigned) all succeed, leave the same N valets, and
    the [todayCount] of any two of them differ by at most 1. *)
Theorem C6_round_robin_fairness (times : list Date) (s t : Z)
  (rows : list Valet) :
  rows <> [] ->
  (forall v, In v rows ->
     status v = FREE /\ isActive v = true /\
     assignmentSequence v = s /\ todayCount v = t /\
     forall now, In now times -> ValetEntity.isInShift now v = true) ->
  exists rows',
    dispatchRounds times rows = (Ok tt, rows') /\
    map valet_id rows' = map valet_id rows /\
    forall a b, In a rows' -> In b rows' ->
      -1 <= todayCount a - todayCount b <= 1.
Proof.
  intros Hne Hstart.
  destruct (Fair_rounds times s t rows Hne) as (rows' & s' & t' & Hrun & Hids & HF).
  { intros v Hv. destruct (Hstart v Hv) as (H1 & H2 & H3 & H4 & H5).
    repeat split; auto. }
  exists rows'. split; [exact Hrun | split; [exact Hids |]].
  intros a b Ha Hb.
  destruct (HF a Ha) as (_ & _ & _ & Hpa). destruct (HF b Hb) as (_ & _ & _ & Hpb).
  lia.
Qed.

End DispatcherTheorems.

(* ------------------------------------------------------------------ *)
(** * Properties of the entry use case, continued *)

Section EntryTheorems.
Import JS CreateVehicleEntryUseCase.

Lemma findAvailableZone_In (rows : list ParkingZone) (z : ParkingZone) :
  ParkingZoneRepository.findAvailableZone rows = Some z ->
  In z rows /\ 0 < availableSlots z /\ zone_isActive z = true.
Proof.
  unfold ParkingZoneRepository.findAvailableZone. intros H.
  destruct (sortBy priority _) as [| z' more] eqn:Hs; [discriminate H |].
  injection H as ->.
  destruct (sortBy_head_min _ _ _ _ Hs) as [Hin _].
  apply filter_In in Hin as [Hin Hp]. apply andb_true_iff in Hp as [Hp1 Hp2].
  apply Z.ltb_lt in Hp1. auto.
Qed.

Lemma zone_findById_present (z : ParkingZone) (rows : list ParkingZone) :
  In z rows -> ParkingZoneRepository.findById (zone_id z) rows <> None.
Proof.
  intros Hin Hf. unfold ParkingZoneRepository.findById in Hf.
  eapply find_none in Hf; [| exact Hin]. simpl in Hf.
  rewrite String.eqb_refl in Hf. discriminate.
Qed.


Lemma findActive_none (plate : string) (rows : list Vehicle) :
  VehicleRepository.findActiveByVehicleNumber plate rows = None <->
  (forall v, In v rows -> vehicleNumber v = plate ->
             state v = DELIVERED \/ state v = CLOSED).
Proof.
  unfold VehicleRepository.findActiveByVehicleNumber. split.
  - intros H v Hin Hplate. eapply find_none in H; [| exact Hin]. simpl in H.
    rewrite Hplate, String.eqb_refl in H. simpl in H.
    destruct (state v); simpl in H; try discriminate; auto.
  - intros H. destruct (find _ rows) as [v |] eqn:Hf; [| reflexivity].
    apply find_some in Hf as [Hin Hp]. apply andb_true_iff in Hp as [Hp1 Hp2].
    apply String.eqb_eq in Hp1. destruct (H v Hin Hp1) as [E | E];
      rewrite E in Hp2; discriminate.
Qed.


End EntryTheorems.

Section EntryClaims.
Import JS CreateVehicleEntryUseCase.

Lemma generateToken_format (now draw : Z) :
  10000 <= now -> 0 <= draw < 1000 ->
  tokenFormat 8 (generateToken now draw) = true.
Proof.
  intros Hnow Hdraw. unfold generateToken.
  destruct (timestamp_part now Hnow) as [Hl Hd].
  destruct (random_part draw Hdraw) as [Hl2 Hd2].
  set (ts := sliceLast 6 (numberToString now)) in *.
  set (rnd := padStart 3 "0" (numberToString draw)) in *.
  clearbody ts rnd.
  destruct rnd as [| r1 [| r2 [| r3 [| r4 rnd]]]]; try discriminate Hl2.
  destruct ts as [| a1 [| a2 [| a3 [| a4 [| a5 [| a6 [| a7 ts]]]]]]];
    simpl in Hl; try (exfalso; lia);
    simpl in Hd, Hd2;
    repeat (apply andb_true_iff in Hd as [? Hd]);
    repeat (apply andb_true_iff in Hd2 as [? Hd2]);
    unfold tokenFormat; simpl;
    repeat match goal with H : isDigit _ = true |- _ => rewrite H; clear H end;
    reflexivity.
Qed.

(** C7, as stated, fails: the token is cut to 12 characters, which leaves 8
    digits after [VLT-]. *)
Lemma C7_token_has_eight_digits_not_nine :
  generateToken 1700000123456 7 = "VLT-12345600" /\
  tokenFormat 9 (generateToken 1700000123456 7) = false.
Proof. split; reflexivity. Qed.

(** C7, amended.  Every customer-facing token generated by createEntry is
    [VLT-] followed by exactly 8 digits, for a clock reading of five
    digits or more. *)
Theorem C7_token_is_VLT_and_eight_digits (env : Env)
  (dto : CreateVehicleEntryDTO) (db db' : Database)
  (res : VehicleEntryResponse) :
  10000 <= env_now env -> 0 <= env_tokenDraw env < 1000 ->
  execute env dto db = (Ok res, db') ->
  res_token res = generateToken (env_now env) (env_tokenDraw env) /\
  token (res_vehicle res) = res_token res /\
  tokenFormat 8 (res_token res) = true.
Proof.
  intros Hnow Hdraw Hrun.
  apply execute_ok_inv in Hrun as (_ & _ & z & valet & valets' & _ & _ & _ & Hres & _).
  subst res. simpl. repeat split. apply generateToken_format; assumption.
Qed.

Lemma C7_token_is_VLT_and_eight_digits_witness :
  exists res db',
    execute Sample.firstEnv Sample.firstEntry Sample.emptyLot = (Ok res, db') /\
    res_token res = "VLT-12345600" /\
    tokenFormat 8 (res_token res) = true.
Proof.
  eexists. eexists. split; [vm_compute; reflexivity |].
  split; [reflexivity |].
  eapply (C7_token_is_VLT_and_eight_digits Sample.firstEnv Sample.firstEntry
            Sample.emptyLot).
  - simpl. lia.
  - simpl. lia.
  - vm_compute. reflexivity.
Defined.

(** C8, as stated, fails: two arrivals for which the slot draw comes out
    the same are both admitted to zone A with the label 42. *)
Lemma C8_same_label_issued_twice :
  let first := execute Sample.firstEnv Sample.firstEntry Sample.emptyLot in
  let second := execute Sample.secondEnv Sample.secondEntry (snd first) in
  isOk (fst first) = true /\ isOk (fst second) = true /\
  map (fun v => (zone v, slot v, state v)) (vehicles (snd second))
  = [("A", "42", PARKING); ("A", "42", PARKING)] /\
  slotLabelsDistinct (vehicles (snd second)) = false.
Proof. vm_compute. repeat split. Qed.

(** C8, amended.  Slot allocation does not look at the labels in use: a
    successful createEntry adds one record, in the zone that
    [findAvailableZone] returns, whose label is the numeral of the draw
    plus one, a number from 1 to 100, whatever records are in the table. *)
Theorem C8_slot_label_is_the_draw (env : Env) (dto : CreateVehicleEntryDTO)
  (db db' : Database) (res : VehicleEntryResponse) :
  0 <= env_slotDraw env < 100 ->
  execute env dto db = (Ok res, db') ->
  exists zone',
    ParkingZoneRepository.findAvailableZone (parking_zones db) = Some zone' /\
    vehicles db' = (vehicles db ++ [res_vehicle res])%list /\
    zone (res_vehicle res) = zoneCode zone' /\
    slot (res_vehicle res) = numberToString (env_slotDraw env + 1) /\
    res_slot res = slot (res_vehicle res) /\
    1 <= env_slotDraw env + 1 <= 100.
Proof.
  intros Hdraw Hrun.
  apply execute_ok_inv in Hrun as (_ & _ & z & valet & valets' & Hz & _ & _ & Hres & Hdb).
  subst res db'. exists z. simpl. repeat split; try assumption; lia.
Qed.

Lemma C8_slot_label_is_the_draw_witness :
  exists res db',
    execute Sample.secondEnv Sample.secondEntry
      (snd (execute Sample.firstEnv Sample.firstEntry Sample.emptyLot))
    = (Ok res, db') /\
    slot (res_vehicle res) = "42" /\ zone (res_vehicle res) = "A".
Proof.
  eexists. eexists. split; [vm_compute; reflexivity |].
  edestruct (C8_slot_label_is_the_draw Sample.secondEnv Sample.secondEntry
               (snd (execute Sample.firstEnv Sample.firstEntry Sample.emptyLot)))
    as (z & Hz & _ & Hzone & Hslot & _).
  - simpl. lia.
  - vm_compute. reflexivity.
  - split; [exact Hslot |]. rewrite Hzone.
    vm_compute in Hz. injection Hz as <-. reflexivity.
Defined.

End EntryClaims.

Section DuplicateEntry.
Import JS CreateVehicleEntryUseCase.




End DuplicateEntry.

(* ------------------------------------------------------------------ *)
(** * The properties at the sample data *)

Section Witnesses.

Lemma C3_round_robin_selection_witness :
  (exists sel rows',
     In sel [Sample.busyValet; Sample.anil; Sample.binu] /\
     AssignValetRoundRobinUseCase.execute 1700000123456
       [Sample.busyValet; Sample.anil; Sample.binu]
     = (Ok (assigned 1700000123456 sel), rows') /\
     status sel = FREE /\ assignmentSequence sel <= assignmentSequence Sample.binu) /\
  (exists e,
     AssignValetRoundRobinUseCase.execute 1700000123456 [Sample.busyValet]
     = (Err e, [Sample.busyValet]) /\
     AssignValetRoundRobinUseCase.isNoAvailableValetError e = true).
Proof.
  split.
  - destruct (proj1 (C3_round_robin_selection 1700000123456
                       [Sample.busyValet; Sample.anil; Sample.binu]))
      as (sel & rows' & (Hin & Hfree & _) & Hleast & Hrun & _).
    + exists Sample.anil. repeat split. right. left. reflexivity.
    + exists sel, rows'. repeat split; try assumption.
      apply Hleast; try reflexivity. right. right. left. reflexivity.
  - apply (proj2 (C3_round_robin_selection 1700000123456 [Sample.busyValet])).
    intros v [<- | []] Hst. discriminate Hst.
Defined.

Lemma C6_round_robin_fairness_witness :
  exists rows',
    dispatchRounds [1700000123456; 1700000200000; 1700000300000]
                   [Sample.anil; Sample.binu] = (Ok tt, rows') /\
    map valet_id rows' = ["valet-1"; "valet-2"] /\
    forall a b, In a rows' -> In b rows' ->
      -1 <= todayCount a - todayCount b <= 1.
Proof.
  apply (C6_round_robin_fairness
           [1700000123456; 1700000200000; 1700000300000] 0 0
           [Sample.anil; Sample.binu]).
  - discriminate.
  - intros v [<- | [<- | []]]; repeat split.
Defined.

Lemma C10_busy_released_only_by_completeTask_witness :
  ValetEntity.takeBreak 1700000123456 Sample.busyValet
  = (Err CannotTakeBreakWhileBusy, Sample.busyValet) /\
  ValetEntity.goOffDuty 1700000123456 Sample.busyValet
  = (Err CannotGoOffDutyWhileBusy, Sample.busyValet) /\
  status (snd (ValetEntity.run 1700000123456 ValetEntity.OpCompleteTask
                 Sample.busyValet)) = FREE /\
  exists e, ValetEntity.run 1700000123456 ValetEntity.OpStartDuty Sample.busyValet
            = (Err e, Sample.busyValet).
Proof.
  destruct (C10_busy_released_only_by_completeTask Sample.busyValet
              1700000123456 ValetEntity.OpCompleteTask eq_refl)
    as (Hbreak & Hoff & Hleave & _).
  destruct (C10_busy_released_only_by_completeTask Sample.busyValet
              1700000123456 ValetEntity.OpStartDuty eq_refl)
    as (_ & _ & _ & Hfail).
  split; [exact Hbreak | split; [exact Hoff | split]].
  - apply Hleave. discriminate.
  - apply Hfail; discriminate.
Defined.

End Witnesses.

(* ------------------------------------------------------------------ *)
(** * Remarks on the persistence layer *)

Section RepositoryRemarks.

(** The reservation path never picks a zone without a free slot, so the
    decrement that follows keeps the count of that zone at 0 or more. *)
Remark reserved_zone_has_a_slot (rows : list ParkingZone) (z : ParkingZone) :
  ParkingZoneRepository.findAvailableZone rows = Some z ->
  0 <= availableSlots (ParkingZoneRepository.addSlots (zone_id z) (-1) z).
Proof.
  intros H. apply findAvailableZone_In in H as (_ & Hpos & _).
  unfold ParkingZoneRepository.addSlots. rewrite String.eqb_refl. simpl. lia.
Qed.

(** The repository counters themselves carry no bound check, unlike
    [releaseSlot] of the entity: an increment on a zone that is already all
    free goes through. *)
Remark repository_increment_is_unguarded :
  availableSlots Sample.zoneA = totalSlots Sample.zoneA /\
  ParkingZoneRepository.incrementAvailableSlots "zone-1" [Sample.zoneA]
  = (Ok tt, [ParkingZoneEntity.set_availableSlots 3 Sample.zoneA]).
Proof. split; reflexivity. Qed.

(** When [MarkVehicleParkedUseCase.execute] succeeds, what it has done to
    the valets table is [freeUpValet] on the parking valet of the vehicle. *)
Remark markParked_frees_the_parking_valet (now : Date) (vehicleId : string)
  (db db' : Database) (parked : Vehicle) :
  MarkVehicleParkedUseCase.execute now vehicleId db = (Ok parked, db') ->
  exists vehicle valetId,
    VehicleRepository.findById vehicleId (vehicles db) = Some vehicle /\
    parkingValetId vehicle = Some valetId /\
    MarkVehicleParkedUseCase.freeUpValet now valetId (valets db)
    = (Ok tt, valets db').
Proof.
  unfold MarkVehicleParkedUseCase.execute. intros H.
  apply bind_Ok_inv in H as (found & db1 & Hfind & H).
  unfold gets in Hfind. injection Hfind as <- <-.
  destruct (VehicleRepository.findById vehicleId (vehicles db))
    as [vehicle |] eqn:Hveh; [| discriminate H].
  destruct (parkingValetId vehicle) as [valetId |] eqn:Hpv; [| discriminate H].
  exists vehicle, valetId. split; [reflexivity | split; [exact Hpv |]].
  apply bind_Ok_inv in H as ([] & db1 & Hfalsy & H).
  unfold throwIf in Hfalsy. destruct (JS.falsy valetId); [discriminate Hfalsy |].
  injection Hfalsy as <-.
  apply bind_Ok_inv in H as (foundValet & db1 & Hval & H).
  unfold gets in Hval. injection Hval as <- <-.
  unfold MarkVehicleParkedUseCase.freeUpValet, bind, gets.
  destruct (ValetRepository.findById valetId (valets db)) as [valet |];
    [| discriminate H].
  destruct (VehicleEntity.markAsParked now vehicle) as [[[] | e] vehicle'];
    [| discriminate H].
  apply bind_Ok_inv in H as (saved & db1 & Hstate & H).
  assert (Hvalets : valets db1 = valets db).
  { unfold onVehicles in Hstate.
    destruct (VehicleRepository.updateState _ _ (vehicles db)) as [r t].
    injection Hstate as _ <-. reflexivity. }
  destruct (ValetEntity.completeTask now valet) as [[[] | e] valet'];
    [| discriminate H].
  apply bind_Ok_inv in H as (saved' & db2 & Hup & H).
  unfold ret in H. injection H as _ <-.
  unfold onValets in Hup. rewrite Hvalets in Hup.
  destruct (ValetRepository.update now valet' (valets db)) as [[r | e] t];
    [| discriminate Hup].
  injection Hup as _ <-. reflexivity.
Qed.

End RepositoryRemarks.

(* ------------------------------------------------------------------ *)
(** * Further properties of the state machine and the vehicle entity *)

Section LifecycleProperties.
Import VehicleEntity VehicleStateMachine.

Lemma transition_rank (a b : VehicleState) :
  transition a b = Ok b -> rank a < rank b.
Proof. destruct a, b; simpl; intros H; try discriminate H; lia. Qed.

Lemma validChain_bounds (path : list VehicleState) :
  forall a, validChain (a :: path) ->
    Z.of_nat (List.length (a :: path)) <= 8 - rank a /\
    forall x, In x path -> rank a < rank x.
Proof.
  induction path as [| b path IH]; intros a H.
  - split; [destruct a; simpl; lia | intros x []].
  - destruct H as [Hab Hrest]. apply transition_rank in Hab.
    destruct (IH b Hrest) as [Hlen Hlt]. split.
    + change (List.length (a :: b :: path)) with (S (List.length (b :: path))).
      rewrite Nat2Z.inj_succ. lia.
    + intros x [<- | Hx]; [exact Hab |]. specialize (Hlt x Hx). lia.
Qed.

(** X1.  The transition table is forward-only: a history of accepted
    transitions never visits a state twice and has at most eight states,
    and nothing follows CLOSED. *)
Theorem X1_transitions_are_forward_only (path : list VehicleState) :
  validChain path ->
  NoDup path /\ (List.length path <= 8)%nat /\
  (forall next, transition CLOSED next <> Ok next).
Proof.
  intros H. split; [| split].
  - induction path as [| a path IH]; [constructor |].
    constructor.
    + intros Hin. destruct (validChain_bounds path a H) as [_ Hlt].
      specialize (Hlt a Hin). lia.
    + apply IH. destruct path as [| b path]; [exact I | apply H].
  - destruct path as [| a path]; [simpl; lia |].
    destruct (validChain_bounds path a H) as [Hlen _].
    assert (0 <= rank a) by (destruct a; simpl; lia). lia.
  - intros next. destruct next; discriminate.
Qed.

Lemma X1_transitions_are_forward_only_witness :
  NoDup [PARKING; PARKED; WAITING_MARKOUT; SCHEDULED; RETRIEVAL_ASSIGNED;
         ON_THE_WAY; DELIVERED; CLOSED] /\
  transition CLOSED PARKING <> Ok PARKING.
Proof.
  destruct (X1_transitions_are_forward_only
              [PARKING; PARKED; WAITING_MARKOUT; SCHEDULED; RETRIEVAL_ASSIGNED;
               ON_THE_WAY; DELIVERED; CLOSED]) as (H1 & _ & H3).
  - simpl. repeat split.
  - split; [exact H1 | apply H3].
Defined.

Local Ltac run_op :=
  cbv [run startRetrieval assignRetrievalValet markAsParked requestMarkOut
       markAsDelivered close bind gets throwIf throw ret modify lift
       transition transitions isReadyForRetrieval canBeMarkedOut
       canRequestMarkOut canBeMarkedParked isRetrievalTimeReached includes
       existsb VehicleState_eqb negb orb andb].

(** One call of a method, whatever its outcome, leaves the [readonly]
    fields alone; when it succeeds the new state is the method's target
    and the step is in the transition table. *)
Lemma run_step (now : Date) (op : Op) (v : Vehicle) :
  sameIdentity v (snd (run now op v)) /\
  parkingValetId (snd (run now op v)) = parkingValetId v /\
  (fst (run now op v) = Ok tt ->
   state (snd (run now op v)) = target op /\
   In (target op) (transitions (state v))).
Proof.
  unfold sameIdentity.
  destruct v as [? ? ? ? ? ? st ? ? ? ? sch ? ? ? ? pv ? ? ?].
  destruct op as [| m | id | | |]; run_op; simpl.
  - destruct st, pv; simpl; repeat split; try discriminate; auto.
  - destruct st; simpl; repeat split; try discriminate; auto;
      destruct (m =? 5), (m =? 7), (m =? 10); simpl; try discriminate; auto.
  - destruct st; simpl; repeat split; try discriminate; auto.
  - destruct st; simpl; try (repeat split; try discriminate; auto; fail);
      destruct sch as [t |]; simpl; try (repeat split; try discriminate; auto; fail);
      destruct (t <=? now); simpl; repeat split; try discriminate; auto.
  - destruct st; simpl; repeat split; try discriminate; auto.
  - destruct st; simpl; repeat split; try discriminate; auto.
Qed.

(** X2.  Every method of the vehicle entity that succeeds has performed a
    transition of the table, to the state that belongs to the method. *)
Theorem X2_successful_method_follows_the_table (now : Date) (op : Op)
  (v v' : Vehicle) :
  run now op v = (Ok tt, v') ->
  state v' = target op /\ transition (state v) (state v') = Ok (state v').
Proof.
  intros H. destruct (run_step now op v) as (_ & _ & Hok).
  rewrite H in Hok. simpl in Hok. destruct (Hok eq_refl) as [Ht Hin].
  split; [exact Ht |]. rewrite Ht. unfold transition.
  assert (Hinc : includes (transitions (state v)) (target op) = true).
  { unfold includes. apply existsb_exists. exists (target op). split; [exact Hin |].
    destruct (target op); reflexivity. }
  rewrite Hinc. reflexivity.
Qed.

Lemma X2_successful_method_follows_the_table_witness :
  state (snd (run 420000 OpStartRetrieval Sample.assignedVehicle)) = ON_THE_WAY /\
  transition RETRIEVAL_ASSIGNED ON_THE_WAY = Ok ON_THE_WAY.
Proof.
  destruct (X2_successful_method_follows_the_table 420000 OpStartRetrieval
              Sample.assignedVehicle
              (snd (run 420000 OpStartRetrieval Sample.assignedVehicle))
              eq_refl) as [H1 H2].
  split; [exact H1 | exact H2].
Defined.

(** X3.  No sequence of method calls on a vehicle, successful or not, changes
    its id, token, plate, phone, zone, slot, customer type, arrival time,
    entry operator, parking valet or creation time. *)
Theorem X3_methods_keep_the_readonly_fields
  (calls : list (Date * Op)) (v : Vehicle) :
  sameIdentity v (runAll calls v) /\
  parkingValetId (runAll calls v) = parkingValetId v.
Proof.
  revert v. induction calls as [| [now op] calls IH]; intros v; simpl.
  - unfold sameIdentity. repeat split.
  - destruct (run_step now op v) as (Hid & Hpv & _).
    destruct (IH (snd (run now op v))) as [Hid' Hpv'].
    unfold sameIdentity in *. intuition congruence.
Qed.

End LifecycleProperties.

Section LifecycleComposition.
Import VehicleEntity VehicleStateMachine.

Lemma markAsParked_ok (now : Date) (v : Vehicle) :
  state v = PARKING -> parkingValetId v <> None ->
  markAsParked now v
  = (Ok tt, set_updatedAt now (set_parkedAt (Some now) (set_state PARKED v))).
Proof.
  intros Hst Hpv. destruct v; simpl in Hst, Hpv; subst.
  destruct parkingValetId0; [reflexivity | congruence].
Qed.

Lemma requestMarkOut_ok (now m : Z) (v : Vehicle) :
  state v = PARKED \/ state v = WAITING_MARKOUT ->
  m = 5 \/ m = 7 \/ m = 10 ->
  requestMarkOut now m v
  = (Ok tt, set_updatedAt now
              (set_scheduledAt (Some (now + m * 60 * 1000))
                 (set_markoutRequestedAt (Some now) (set_state SCHEDULED v)))).
Proof.
  intros Hst Hm. destruct v; simpl in Hst.
  destruct Hst; subst; destruct Hm as [-> | [-> | ->]]; reflexivity.
Qed.

Lemma markAsDelivered_ok (now : Date) (v : Vehicle) :
  state v = ON_THE_WAY ->
  markAsDelivered now v
  = (Ok tt, set_updatedAt now (set_deliveredAt (Some now) (set_state DELIVERED v))).
Proof. intros Hst. destruct v; simpl in Hst; subst. reflexivity. Qed.

Lemma close_ok (now : Date) (v : Vehicle) :
  state v = DELIVERED ->
  close now v
  = (Ok tt, set_updatedAt now (set_closedAt (Some now) (set_state CLOSED v))).
Proof. intros Hst. destruct v; simpl in Hst; subst. reflexivity. Qed.

(** X4.  The whole lifecycle goes through: on a vehicle in PARKING with a
    parking valet, the six methods called in order, with a lead time of
    5, 7 or 10 minutes and the retrieval started no earlier than the
    scheduled time, all succeed; the vehicle ends CLOSED with every stamp
    set to the clock reading of its call. *)
Theorem X4_full_lifecycle_succeeds (v : Vehicle) (valetId : string)
  (m t1 t2 t3 t4 t5 t6 : Z) :
  state v = PARKING -> parkingValetId v <> None ->
  m = 5 \/ m = 7 \/ m = 10 ->
  t2 + m * 60 * 1000 <= t4 ->
  exists v',
    vehicleCalls [(t1, OpMarkAsParked); (t2, OpRequestMarkOut m);
                  (t3, OpAssignRetrievalValet valetId); (t4, OpStartRetrieval);
                  (t5, OpMarkAsDelivered); (t6, OpClose)] v = (Ok tt, v') /\
    state v' = CLOSED /\
    parkedAt v' = Some t1 /\ markoutRequestedAt v' = Some t2 /\
    scheduledAt v' = Some (t2 + m * 60 * 1000) /\
    retrievalValetId v' = Some valetId /\
    retrievalStartedAt v' = Some t4 /\ deliveredAt v' = Some t5 /\
    closedAt v' = Some t6 /\ v_updatedAt v' = t6.
Proof.
  intros Hst Hpv Hm Hgate.
  set (v1 := set_updatedAt t1 (set_parkedAt (Some t1) (set_state PARKED v))).
  set (v2 := set_updatedAt t2
               (set_scheduledAt (Some (t2 + m * 60 * 1000))
                  (set_markoutRequestedAt (Some t2) (set_state SCHEDULED v1)))).
  set (v3 := set_updatedAt t3 (set_state RETRIEVAL_ASSIGNED
                                 (set_retrievalValetId (Some valetId) v2))).
  set (v4 := set_updatedAt t4 (set_retrievalStartedAt (Some t4)
                                 (set_state ON_THE_WAY v3))).
  set (v5 := set_updatedAt t5 (set_deliveredAt (Some t5) (set_state DELIVERED v4))).
  set (v6 := set_updatedAt t6 (set_closedAt (Some t6) (set_state CLOSED v5))).
  exists v6. split; [| repeat split].
  unfold vehicleCalls. cbn [forEach fst snd run].
  rewrite (bind_Ok _ _ _ _ _ (markAsParked_ok t1 v Hst Hpv)). fold v1.
  rewrite (bind_Ok _ _ _ _ _ (requestMarkOut_ok t2 m v1 (or_introl eq_refl) Hm)).
  fold v2.
  rewrite (bind_Ok _ _ _ _ _ (assignRetrievalValet_scheduled t3 valetId v2 eq_refl)).
  fold v3.
  rewrite (bind_Ok _ _ _ _ _
             (startRetrieval_assigned v3 t4 (t2 + m * 60 * 1000) eq_refl eq_refl Hgate)).
  fold v4.
  rewrite (bind_Ok _ _ _ _ _ (markAsDelivered_ok t5 v4 eq_refl)). fold v5.
  rewrite (bind_Ok _ _ _ _ _ (close_ok t6 v5 eq_refl)). reflexivity.
Qed.

Lemma X4_full_lifecycle_succeeds_witness :
  exists v',
    vehicleCalls [(60000, OpMarkAsParked); (120000, OpRequestMarkOut 5);
                  (130000, OpAssignRetrievalValet "valet-2");
                  (420000, OpStartRetrieval); (500000, OpMarkAsDelivered);
                  (600000, OpClose)]
      (set_state PARKING Sample.scheduledVehicle) = (Ok tt, v') /\
    state v' = CLOSED /\ scheduledAt v' = Some 420000.
Proof.
  destruct (X4_full_lifecycle_succeeds
              (set_state PARKING Sample.scheduledVehicle) "valet-2"
              5 60000 120000 130000 420000 500000 600000)
    as (v' & Hrun & Hst & _ & _ & Hsch & _).
  - reflexivity.
  - discriminate.
  - left. reflexivity.
  - lia.
  - exists v'. repeat split; assumption.
Defined.

(** X5.  [requestMarkOut] succeeds exactly from PARKED or WAITING_MARKOUT with
    a lead time of 5, 7 or 10 minutes; it then schedules the retrieval that
    many minutes after the request, and the time gate of the vehicle opens
    at that instant and not before. *)
Theorem X5_requestMarkOut_schedules_the_retrieval (now m : Z) (v : Vehicle) :
  (fst (requestMarkOut now m v) = Ok tt <->
   (state v = PARKED \/ state v = WAITING_MARKOUT) /\
   (m = 5 \/ m = 7 \/ m = 10)) /\
  (fst (requestMarkOut now m v) = Ok tt ->
   let v' := snd (requestMarkOut now m v) in
   state v' = SCHEDULED /\ markoutRequestedAt v' = Some now /\
   scheduledAt v' = Some (now + m * 60 * 1000) /\
   forall later, isRetrievalTimeReached later v' = (now + m * 60 * 1000 <=? later)) /\
  (fst (requestMarkOut now m v) <> Ok tt -> snd (requestMarkOut now m v) = v).
Proof.
  destruct v as [? ? ? ? ? ? st ? ? ? ? sch ? ? ? ? pv ? ? ?].
  cbv [requestMarkOut bind gets throwIf throw ret modify lift transition
       transitions canBeMarkedOut canRequestMarkOut includes existsb
       VehicleState_eqb isRetrievalTimeReached]. simpl.
  destruct (Z.eqb_spec m 5), (Z.eqb_spec m 7), (Z.eqb_spec m 10);
    destruct st; simpl; (split; [split | split]);
    try (intros H; discriminate H);
    try (intros [[H | H] _]; discriminate H);
    try (intros [_ H]; exfalso; lia);
    try (intros _; split; [auto | lia]);
    try (intros _; repeat split; reflexivity);
    try reflexivity; try (intros H; exfalso; apply H; reflexivity).
Qed.

Lemma X5_requestMarkOut_schedules_the_retrieval_witness :
  let v := set_state PARKED Sample.scheduledVehicle in
  fst (requestMarkOut 120000 7 v) = Ok tt /\
  scheduledAt (snd (requestMarkOut 120000 7 v)) = Some 540000 /\
  isRetrievalTimeReached 539999 (snd (requestMarkOut 120000 7 v)) = false.
Proof.
  intros v.
  destruct (X5_requestMarkOut_schedules_the_retrieval 120000 7 v)
    as (Hiff & Hok & _).
  assert (H : fst (requestMarkOut 120000 7 v) = Ok tt).
  { apply Hiff. split; [left; reflexivity | right; left; reflexivity]. }
  destruct (Hok H) as (_ & _ & Hsch & Hgate).
  split; [exact H | split; [exact Hsch |]].
  rewrite Hgate. reflexivity.
Defined.

(** X6.  A vehicle is overdue for retrieval only while it is SCHEDULED and its
    time gate is open; once overdue it stays overdue as the clock advances,
    and a successful [assignRetrievalValet] ends it. *)
Theorem X6_overdue_for_retrieval (now : Date) (v : Vehicle) :
  isOverdueForRetrieval now v = true ->
  state v = SCHEDULED /\
  isRetrievalTimeReached now v = true /\
  (forall later, now <= later -> isOverdueForRetrieval later v = true) /\
  (forall at' valetId later,
     fst (assignRetrievalValet at' valetId v) = Ok tt /\
     isOverdueForRetrieval later (snd (assignRetrievalValet at' valetId v)) = false).
Proof.
  destruct v as [? ? ? ? ? ? st ? ? ? ? sch ? ? ? ? pv ? ? ?].
  unfold isOverdueForRetrieval, isRetrievalTimeReached. simpl.
  destruct sch as [t |]; [| discriminate].
  destruct st; simpl; try discriminate.
  intros H. apply Z.ltb_lt in H. repeat split.
  - apply Z.leb_le. lia.
  - intros later Hl. apply Z.ltb_lt. lia.
Qed.

Lemma X6_overdue_for_retrieval_witness :
  isOverdueForRetrieval 540001 Sample.scheduledVehicle = true /\
  isOverdueForRetrieval 540000 Sample.scheduledVehicle = false /\
  isOverdueForRetrieval 600000 Sample.scheduledVehicle = true.
Proof.
  destruct (X6_overdue_for_retrieval 540001 Sample.scheduledVehicle eq_refl)
    as (_ & _ & Hlater & _).
  split; [reflexivity | split; [reflexivity |]].
  apply Hlater. lia.
Defined.

End LifecycleComposition.

(* ------------------------------------------------------------------ *)
(** * Further properties of the valet entity *)

Section ValetEntityProperties.
Import ValetEntity.

Local Ltac run_valet :=
  cbv [run assignTask completeTask takeBreak returnFromBreak goOffDuty
       startDuty resetDailyCounters bind gets throwIf throw ret modify
       ValetStatusRules.getStatusAfterAssignment
       ValetStatusRules.getStatusAfterCompletion].

(** What one call does to the counters: [assignTask] raises the three of
    them by one, [resetDailyCounters] zeroes the sequence and the count of
    the day, every other method and every failed call leaves them. *)
Lemma run_counters (now : Date) (op : Op) (v : Valet) :
  let v' := snd (run now op v) in
  (op = OpAssignTask /\ fst (run now op v) = Ok tt /\
   assignmentSequence v' = assignmentSequence v + 1 /\
   todayCount v' = todayCount v + 1 /\ totalCount v' = totalCount v + 1) \/
  (op = OpResetDailyCounters /\
   assignmentSequence v' = 0 /\ todayCount v' = 0 /\
   totalCount v' = totalCount v /\ status v' = status v) \/
  (assignmentSequence v' = assignmentSequence v /\
   todayCount v' = todayCount v /\ totalCount v' = totalCount v).
Proof.
  destruct v as [i n p st sq td tot em ss se ia ca ua].
  destruct op; run_valet; simpl.
  - destruct (canBeAssigned now _); simpl; [left; repeat split | right; right; repeat split].
  - destruct st; simpl; right; right; repeat split.
  - destruct st; simpl; right; right; repeat split.
  - destruct st; simpl; right; right; repeat split.
  - destruct st; simpl; right; right; repeat split.
  - destruct st; simpl; right; right; repeat split.
  - right; left; repeat split.
Qed.

(** X7.  Under any sequence of method calls, successful or not, a valet's
    counters stay non-negative, the count of the day never exceeds the
    total count, the total count never goes down, and a sequence number
    equal to the count of the day stays equal to it. *)
Theorem X7_valet_counters_invariant (calls : list (Date * Op)) (v : Valet) :
  0 <= assignmentSequence v -> 0 <= todayCount v <= totalCount v ->
  let v' := runAll calls v in
  0 <= assignmentSequence v' /\ 0 <= todayCount v' <= totalCount v' /\
  totalCount v <= totalCount v' /\
  (assignmentSequence v = todayCount v ->
   assignmentSequence v' = todayCount v').
Proof.
  revert v. induction calls as [| [now op] calls IH]; intros v Hs Ht; simpl.
  - repeat split; auto; lia.
  - pose proof (run_counters now op v) as Hstep. simpl in Hstep.
    set (v1 := snd (run now op v)) in *.
    assert (H1 : 0 <= assignmentSequence v1 /\
                 0 <= todayCount v1 <= totalCount v1 /\
                 totalCount v <= totalCount v1 /\
                 (assignmentSequence v = todayCount v ->
                  assignmentSequence v1 = todayCount v1)).
    { destruct Hstep as [(_ & _ & Ha & Hb & Hc) | [(_ & Ha & Hb & Hc & _) | (Ha & Hb & Hc)]];
        rewrite Ha, Hb, Hc; repeat split; lia. }
    destruct H1 as (Ha & Hb & Hc & Hd).
    specialize (IH v1 Ha Hb). simpl in IH.
    destruct IH as (Ia & Ib & Ic & Id).
    repeat split; lia.
Qed.

Lemma X7_valet_counters_invariant_witness :
  let v := runAll [(100, OpCompleteTask); (200, OpAssignTask);
                   (300, OpAssignTask); (400, OpResetDailyCounters);
                   (500, OpCompleteTask); (600, OpAssignTask)]
             Sample.busyValet in
  0 <= todayCount v <= totalCount v /\ 40 <= totalCount v /\
  assignmentSequence v = todayCount v.
Proof.
  intros v.
  destruct (X7_valet_counters_invariant
              [(100, OpCompleteTask); (200, OpAssignTask);
               (300, OpAssignTask); (400, OpResetDailyCounters);
               (500, OpCompleteTask); (600, OpAssignTask)] Sample.busyValet)
    as (_ & Hb & Hc & Hd).
  - simpl. lia.
  - simpl. lia.
  - split; [exact Hb | split; [exact Hc | apply Hd; reflexivity]].
Defined.

(** X8.  A valet holds one task at a time: after a successful [assignTask] a
    second [assignTask] fails and leaves the valet as it is, until
    [completeTask] has made it FREE again, with each counter one higher
    than before the task. *)
Theorem X8_one_task_at_a_time (now later : Date) (v : Valet) :
  canBeAssigned now v = true ->
  let busy := snd (assignTask now v) in
  fst (assignTask now v) = Ok tt /\ status busy = BUSY /\
  (forall again, assignTask again busy
                 = (Err (ValetCannotBeAssigned (name v) BUSY), busy)) /\
  valetCalls [(now, OpAssignTask); (later, OpCompleteTask)] v
  = (Ok tt, set_updatedAt later (set_status FREE (assigned now v))).
Proof.
  intros Hcan. pose proof (assignTask_ok now v Hcan) as Hrun.
  rewrite Hrun. simpl fst. simpl snd.
  split; [reflexivity | split; [reflexivity | split]].
  - intros again. unfold assignTask, canBeAssigned, bind, gets, throwIf.
    simpl status. simpl ValetStatusRules.canBeAssigned.
    rewrite andb_false_r. reflexivity.
  - unfold valetCalls. cbn [forEach fst snd run].
    rewrite (bind_Ok _ _ _ _ _ Hrun). reflexivity.
Qed.

Lemma X8_one_task_at_a_time_witness :
  fst (assignTask 100 Sample.anil) = Ok tt /\
  fst (assignTask 200 (snd (assignTask 100 Sample.anil)))
  = Err (ValetCannotBeAssigned "Anil" BUSY) /\
  status (snd (valetCalls [(100, OpAssignTask); (300, OpCompleteTask)]
                 Sample.anil)) = FREE.
Proof.
  destruct (X8_one_task_at_a_time 100 300 Sample.anil eq_refl)
    as (H1 & _ & H3 & H4).
  split; [exact H1 | split].
  - exact (f_equal fst (H3 200)).
  - exact (f_equal (fun r => status (snd r)) H4).
Defined.

(** X9.  Breaks and duty: a valet that is not BUSY can take a break or go off
    duty and come back FREE with its counters untouched, and while it is
    away [assignTask] refuses it; coming back is refused to a valet that
    is not away in that way. *)
Theorem X9_break_and_duty_round_trips (t1 t2 t3 : Date) (v : Valet) :
  status v <> BUSY ->
  valetCalls [(t1, OpTakeBreak); (t2, OpReturnFromBreak)] v
  = (Ok tt, set_updatedAt t2 (set_status FREE v)) /\
  valetCalls [(t1, OpGoOffDuty); (t2, OpStartDuty)] v
  = (Ok tt, set_updatedAt t2 (set_status FREE v)) /\
  fst (assignTask t3 (snd (takeBreak t1 v))) <> Ok tt /\
  fst (assignTask t3 (snd (goOffDuty t1 v))) <> Ok tt /\
  (status v <> BREAK -> returnFromBreak t1 v = (Err (NotOnBreak (status v)), v)) /\
  (status v <> OFF_DUTY -> startDuty t1 v = (Err (NotOffDuty (status v)), v)).
Proof.
  intros Hst. destruct v as [i n p st sq td tot em ss se ia ca ua].
  simpl in Hst. unfold valetCalls.
  destruct st; try congruence; simpl; run_valet; simpl;
    unfold canBeAssigned; simpl; rewrite ?andb_false_r; simpl;
    repeat split; try discriminate; try congruence.
Qed.

Lemma X9_break_and_duty_round_trips_witness :
  status (snd (valetCalls [(100, OpTakeBreak); (200, OpReturnFromBreak)]
                 Sample.anil)) = FREE /\
  fst (startDuty 100 Sample.anil) = Err (NotOffDuty FREE).
Proof.
  assert (Hst : status Sample.anil <> BUSY) by discriminate.
  destruct (X9_break_and_duty_round_trips 100 200 300 Sample.anil Hst)
    as (H1 & _ & _ & _ & _ & H6).
  split.
  - exact (f_equal (fun r => status (snd r)) H1).
  - assert (Hoff : status Sample.anil <> OFF_DUTY) by discriminate.
    exact (f_equal fst (H6 Hoff)).
Defined.

Lemma getHours_next_day (d : Date) : getHours (d + 86400000) = getHours d.
Proof.
  unfold getHours.
  replace (d + 86400000) with (d + 24 * 3600000) by lia.
  rewrite Z.div_add by lia. rewrite Z.add_mod by lia.
  rewrite Z.mod_same by lia. rewrite Z.add_0_r. apply Z.mod_mod. lia.
Qed.

Lemma getMinutes_next_day (d : Date) : getMinutes (d + 86400000) = getMinutes d.
Proof.
  unfold getMinutes.
  replace (d + 86400000) with (d + 1440 * 60000) by lia.
  rewrite Z.div_add by lia.
  replace 1440 with (24 * 60) by lia.
  rewrite Z.mod_add by lia. reflexivity.
Qed.

(** X10.  Shift eligibility is a matter of the time of day: it is the same 24
    hours later; a valet without a shift window is always in shift; a
    valet is in shift at the instant its shift starts and at the instant
    it ends. *)
Theorem X10_shift_is_by_time_of_day (now : Date) (v : Valet) :
  isInShift (now + 86400000) v = isInShift now v /\
  ((shiftStart v = None \/ shiftEnd v = None) -> isInShift now v = true) /\
  (forall s e, shiftStart v = Some s -> shiftEnd v = Some e ->
     isInShift s v = true /\ isInShift e v = true).
Proof.
  unfold isInShift. split; [| split].
  - rewrite getHours_next_day, getMinutes_next_day. reflexivity.
  - intros [H | H]; rewrite H; [reflexivity |].
    destruct (shiftStart v); reflexivity.
  - intros s e Hs He. rewrite Hs, He.
    set (a := getHours s * 60 + getMinutes s).
    set (b := getHours e * 60 + getMinutes e).
    destruct (Z.ltb_spec b a); split;
      rewrite ?Z.leb_refl, ?orb_true_r, ?andb_true_r; simpl; try reflexivity;
      apply Z.leb_le; lia.
Qed.

Lemma X10_shift_is_by_time_of_day_witness :
  isInShift 82800000 Sample.nightValet = true /\
  isInShift (82800000 + 86400000) Sample.nightValet = true /\
  isInShift 43200000 Sample.nightValet = false /\
  isInShift 79200000 Sample.nightValet = true /\
  isInShift 21600000 Sample.nightValet = true /\
  isInShift 43200000 Sample.anil = true.
Proof.
  destruct (X10_shift_is_by_time_of_day 82800000 Sample.nightValet)
    as (Hday & _ & Hedge).
  destruct (Hedge 79200000 21600000 eq_refl eq_refl) as [Hs He].
  destruct (X10_shift_is_by_time_of_day 43200000 Sample.anil) as (_ & Hnone & _).
  split; [reflexivity | split; [rewrite Hday; reflexivity |]].
  split; [reflexivity | split; [exact Hs | split; [exact He |]]].
  apply Hnone. left. reflexivity.
Defined.

End ValetEntityProperties.

(* ------------------------------------------------------------------ *)
(** * Further properties of the valet repository and the dispatcher *)

Section ValetTableProperties.
Import JS AssignValetRoundRobinUseCase.

Lemma writeRow_id (now : Date) (v x : Valet) :
  valet_id (ValetRepository.writeRow now v x) = valet_id x.
Proof.
  unfold ValetRepository.writeRow.
  destruct (String.eqb (valet_id x) (valet_id v)); reflexivity.
Qed.

Lemma findById_map (f : Valet -> Valet) (id : string) (rows : list Valet) :
  (forall x, valet_id (f x) = valet_id x) ->
  ValetRepository.findById id (map f rows)
  = option_map f (ValetRepository.findById id rows).
Proof.
  intros Hid. unfold ValetRepository.findById.
  induction rows as [| x rows IH]; simpl; [reflexivity |].
  rewrite Hid. destruct (String.eqb (valet_id x) id); [reflexivity | exact IH].
Qed.

Lemma findById_Some (id : string) (rows : list Valet) (row : Valet) :
  ValetRepository.findById id rows = Some row -> In row rows /\ valet_id row = id.
Proof.
  unfold ValetRepository.findById. intros H. apply find_some in H as [H1 H2].
  apply String.eqb_eq in H2. auto.
Qed.

(** X11.  [update] and [findById] round trip: an update of a valet whose id
    is in the table is read back as the row of the table with the status
    and the three counters of the valet written and the update time set to
    the time of the write; every other column of the row (id, name, phone,
    employee id, shift start, shift end, active flag, creation time) is as
    before.  Rows of other ids read back as before, and the ids of the
    table stay.  An update of an id that is not in the table fails and
    writes nothing. *)
Theorem X11_update_then_findById (now : Date) (v : Valet) (rows : list Valet) :
  (ValetRepository.findById (valet_id v) rows = None ->
   ValetRepository.update now v rows = (Err RecordNotFound, rows)) /\
  (forall row, ValetRepository.findById (valet_id v) rows = Some row ->
   exists saved rows',
     ValetRepository.update now v rows = (Ok saved, rows') /\
     ValetRepository.findById (valet_id v) rows' = Some saved /\
     saved = mkValet (valet_id row) (name row) (phone row) (status v)
               (assignmentSequence v) (todayCount v) (totalCount v)
               (employeeId row) (shiftStart row) (shiftEnd row) (isActive row)
               (valet_createdAt row) now /\
     map valet_id rows' = map valet_id rows /\
     forall id, id <> valet_id v ->
       ValetRepository.findById id rows' = ValetRepository.findById id rows).
Proof.
  split.
  - intros H. unfold ValetRepository.update, bind, gets. rewrite H. reflexivity.
  - intros row H. apply findById_Some in H as Hrow. destruct Hrow as [Hin Hid].
    exists (ValetRepository.writeRow now v row),
           (map (ValetRepository.writeRow now v) rows).
    split; [| split].
    + unfold ValetRepository.update, bind, gets, modify, ret. rewrite H. reflexivity.
    + rewrite findById_map by apply writeRow_id. rewrite H. reflexivity.
    + unfold ValetRepository.writeRow at 1.
      rewrite Hid, String.eqb_refl. split; [reflexivity | split].
      * rewrite map_map. apply map_ext. intros x. apply writeRow_id.
      * intros id Hne. rewrite findById_map by apply writeRow_id.
        destruct (ValetRepository.findById id rows) as [r |] eqn:Hr; [| reflexivity].
        apply findById_Some in Hr as [_ Hrid]. simpl.
        unfold ValetRepository.writeRow.
        destruct (String.eqb_spec (valet_id r) (valet_id v)); [congruence | reflexivity].
Qed.

Lemma X11_update_then_findById_witness :
  exists saved rows',
    ValetRepository.update 500 (assigned 400 Sample.binu)
      [Sample.anil; Sample.binu] = (Ok saved, rows') /\
    ValetRepository.findById "valet-2" rows' = Some saved /\
    status saved = BUSY /\
    ValetRepository.findById "valet-1" rows' = Some Sample.anil.
Proof.
  destruct (proj2 (X11_update_then_findById 500 (assigned 400 Sample.binu)
                     [Sample.anil; Sample.binu]) Sample.binu eq_refl)
    as (saved & rows' & Hup & Hfind & Hsaved & _ & Hother).
  exists saved, rows'. split; [exact Hup | split; [exact Hfind | split]].
  - rewrite Hsaved. reflexivity.
  - rewrite (Hother "valet-1"); [reflexivity | discriminate].
Defined.

(** A successful [execute] picked an assignable valet of the table and
    its table is the old one with that valet written. *)
Lemma execute_inv (now : Date) (rows rows' : list Valet) (r : Result Valet) :
  execute now rows = (r, rows') ->
  (exists sel, r = Ok (assigned now sel) /\ assignable now rows sel /\
               rows' = map (ValetRepository.writeRow now (assigned now sel)) rows) \/
  (exists e, r = Err e /\ rows' = rows /\ isNoAvailableValetError e = true).
Proof.
  intros H.
  destruct (filter (ValetEntity.canBeAssigned now) (ValetRepository.findActive rows))
    as [| a l] eqn:Hav.
  - right. destruct (execute_nobody now rows) as (e & He & Hno).
    { intros v Hv. apply available_In in Hv. rewrite Hav in Hv. exact Hv. }
    rewrite He in H. injection H as <- <-. exists e. auto.
  - left. destruct (execute_assigns_least now rows) as (sel & Hsel & _ & Hrun).
    { exists a. apply available_In. rewrite Hav. left. reflexivity. }
    rewrite Hrun in H. injection H as <- <-. exists sel. auto.
Qed.

Lemma writeRow_unique (now : Date) (sel : Valet) (rows : list Valet) :
  NoDup (map valet_id rows) -> In sel rows ->
  map (ValetRepository.writeRow now (assigned now sel)) rows
  = map (fun x => if String.eqb (valet_id x) (valet_id sel)
                  then assigned now sel else x) rows.
Proof.
  intros Hnd Hin. apply map_ext_in. intros x Hx.
  unfold ValetRepository.writeRow. simpl.
  destruct (String.eqb_spec (valet_id x) (valet_id sel)) as [E | E]; [| reflexivity].
  assert (x = sel).
  { clear - Hnd Hin Hx E. induction rows as [| y rows IH]; [contradiction |].
    simpl in Hnd. inversion Hnd as [| ? ? Hy Hrest]; subst.
    destruct Hx as [-> | Hx], Hin as [-> | Hin]; auto.
    - exfalso. apply Hy. rewrite E. apply in_map, Hin.
    - exfalso. apply Hy. rewrite <- E. apply in_map, Hx. }
  subst x. reflexivity.
Qed.

Lemma freeValets_after_assignment (now : Date) (sel : Valet) (rows : list Valet) :
  NoDup (map valet_id rows) -> In sel rows ->
  isActive sel = true -> status sel = FREE ->
  S (List.length (freeValets (map (fun x => if String.eqb (valet_id x) (valet_id sel)
                                            then assigned now sel else x) rows)))
  = List.length (freeValets rows).
Proof.
  intros Hnd Hin Hact Hfree. induction rows as [| y rows IH]; [contradiction |].
  simpl in Hnd. inversion Hnd as [| ? ? Hy Hrest]; subst. simpl map.
  destruct (String.eqb_spec (valet_id y) (valet_id sel)) as [E | E].
  - assert (y = sel).
    { destruct Hin as [-> | Hin]; [reflexivity |].
      exfalso. apply Hy. rewrite E. apply in_map, Hin. }
    subst y.
    assert (Hrest' : map (fun x => if String.eqb (valet_id x) (valet_id sel)
                                   then assigned now sel else x) rows = rows).
    { rewrite <- (map_id rows) at 2. apply map_ext_in. intros x Hx.
      destruct (String.eqb_spec (valet_id x) (valet_id sel)) as [E' | E']; [| reflexivity].
      exfalso. apply Hy. rewrite <- E'. apply in_map, Hx. }
    rewrite Hrest'. unfold freeValets.
    cbn [filter isActive status assigned ValetStatus_eqb].
    rewrite Hact, Hfree, andb_false_r. reflexivity.
  - destruct Hin as [-> | Hin]; [congruence |].
    specialize (IH Hrest Hin). unfold freeValets in *. simpl filter.
    destruct (isActive y && ValetStatus_eqb (status y) FREE); simpl; lia.
Qed.

End ValetTableProperties.

Section DispatcherExhaustion.
Import JS AssignValetRoundRobinUseCase.

Lemma freeValets_In (rows : list Valet) (v : Valet) :
  In v (freeValets rows) <-> In v rows /\ isActive v = true /\ status v = FREE.
Proof.
  unfold freeValets. rewrite filter_In, andb_true_iff.
  destruct (status v); simpl; intuition congruence.
Qed.

Lemma assignable_free (now : Date) (rows : list Valet) (v : Valet) :
  assignable now rows v -> In v (freeValets rows).
Proof.
  intros [Hin Hcan]. apply canBeAssigned_iff in Hcan as (H1 & H2 & _).
  apply freeValets_In. auto.
Qed.

(** X12.  With N valets waiting for a task and nobody released, N assignments
    in a row succeed and go to N different valets, after which nobody is
    waiting and the next assignment fails with the nobody-available error,
    the table untouched.  (The ids of the table are unique and every valet
    is in shift at each call.) *)
Theorem X12_assignments_exhaust_the_free_valets (times : list Date) :
  forall (extra : Date) (rows : list Valet),
    NoDup (map valet_id rows) ->
    (forall v now, In v rows -> In now (extra :: times) ->
                   ValetEntity.isInShift now v = true) ->
    List.length times = List.length (freeValets rows) ->
    exists sels rows',
      assignEach times rows = (Ok sels, rows') /\
      List.length sels = List.length times /\
      NoDup (map valet_id sels) /\
      (forall s, In s sels ->
         status s = BUSY /\
         exists v, In v (freeValets rows) /\ valet_id s = valet_id v) /\
      freeValets rows' = [] /\
      exists e, execute extra rows' = (Err e, rows') /\
                isNoAvailableValetError e = true.
Proof.
  induction times as [| now later IH]; intros extra rows Hnd Hshift Hlen.
  - exists [], rows. simpl in Hlen.
    assert (Hnone : freeValets rows = []).
    { destruct (freeValets rows); [reflexivity | discriminate Hlen]. }
    split; [reflexivity | split; [reflexivity | split; [constructor |]]].
    split; [intros s [] | split; [exact Hnone |]].
    apply execute_nobody. intros v Hv. apply assignable_free in Hv.
    rewrite Hnone in Hv. exact Hv.
  - simpl in Hlen.
    destruct (freeValets rows) as [| f fs] eqn:Hfree; [discriminate Hlen |].
    assert (Hf : In f (freeValets rows)) by (rewrite Hfree; left; reflexivity).
    apply freeValets_In in Hf as (Hfin & Hfact & Hfst).
    destruct (execute_assigns_least now rows) as (sel & [Hsel Hcan] & _ & Hrun).
    { exists f. split; [exact Hfin |]. apply canBeAssigned_iff.
      repeat split; auto. apply Hshift; [exact Hfin | right; left; reflexivity]. }
    apply canBeAssigned_iff in Hcan as (Hsst & Hsact & _).
    rewrite (writeRow_unique now sel rows Hnd Hsel) in Hrun.
    set (rows1 := map (fun x => if String.eqb (valet_id x) (valet_id sel)
                                then assigned now sel else x) rows) in *.
    assert (Hids : map valet_id rows1 = map valet_id rows).
    { unfold rows1. rewrite map_map. apply map_ext. intros x.
      destruct (String.eqb_spec (valet_id x) (valet_id sel)) as [E | E];
        [simpl; congruence | reflexivity]. }
    assert (Hrows1 : forall x, In x rows1 ->
              (x = assigned now sel) \/ (In x rows /\ valet_id x <> valet_id sel)).
    { intros x Hx. unfold rows1 in Hx. apply in_map_iff in Hx as (y & Hy & Hyin).
      destruct (String.eqb_spec (valet_id y) (valet_id sel)) as [E | E];
        subst x; [left; reflexivity | right; auto]. }
    pose proof (freeValets_after_assignment now sel rows Hnd Hsel Hsact Hsst) as Hcount.
    fold rows1 in Hcount. rewrite Hfree in Hcount. simpl in Hcount, Hlen.
    destruct (IH extra rows1) as (sels & rows' & Hrest & Hl & Hnd' & Hsels & Hnone & Hfail).
    { rewrite Hids. exact Hnd. }
    { intros v t Hv Ht. destruct (Hrows1 v Hv) as [-> | [Hvin _]].
      - change (ValetEntity.isInShift t (assigned now sel))
          with (ValetEntity.isInShift t sel).
        apply Hshift; [exact Hsel |]. destruct Ht as [<- | Ht]; [left | right; right]; auto.
      - apply Hshift; [exact Hvin |]. destruct Ht as [<- | Ht]; [left | right; right]; auto. }
    { lia. }
    assert (Hback : forall v, In v (freeValets rows1) ->
              In v (freeValets rows) /\ valet_id v <> valet_id sel).
    { intros v Hv. apply freeValets_In in Hv as (Hv1 & Hv2 & Hv3).
      destruct (Hrows1 v Hv1) as [-> | [Hvin Hne]]; [discriminate Hv3 |].
      split; [apply freeValets_In; auto | exact Hne]. }
    exists (assigned now sel :: sels), rows'.
    split; [| split; [| split; [| split; [| split]]]].
    + simpl. rewrite (bind_Ok _ _ _ _ _ Hrun). rewrite (bind_Ok _ _ _ _ _ Hrest).
      reflexivity.
    + simpl. rewrite Hl. reflexivity.
    + simpl. constructor; [| exact Hnd'].
      intros Hin. apply in_map_iff in Hin as (s & Hsid & Hs).
      destruct (Hsels s Hs) as (_ & v & Hv & Hvid).
      destruct (Hback v Hv) as [_ Hne]. apply Hne. congruence.
    + intros s [<- | Hs].
      * split; [reflexivity |]. exists sel. split; [| reflexivity].
        rewrite <- Hfree. apply freeValets_In. auto.
      * destruct (Hsels s Hs) as (Hb & v & Hv & Hvid).
        split; [exact Hb |]. exists v. split; [| exact Hvid].
        rewrite <- Hfree. apply Hback, Hv.
    + exact Hnone.
    + exact Hfail.
Qed.

Lemma X12_assignments_exhaust_the_free_valets_witness :
  exists sels rows',
    assignEach [100; 200] [Sample.anil; Sample.busyValet; Sample.binu]
    = (Ok sels, rows') /\
    map valet_id sels = ["valet-1"; "valet-2"] /\
    exists e, execute 300 rows' = (Err e, rows') /\
              isNoAvailableValetError e = true.
Proof.
  destruct (X12_assignments_exhaust_the_free_valets [100; 200] 300
              [Sample.anil; Sample.busyValet; Sample.binu])
    as (sels & rows' & Hrun & _ & _ & _ & _ & Hfail).
  - repeat constructor; simpl; intuition discriminate.
  - intros v now [<- | [<- | [<- | []]]] _; reflexivity.
  - reflexivity.
  - exists sels, rows'. split; [exact Hrun | split; [| exact Hfail]].
    vm_compute in Hrun. injection Hrun as <- _. reflexivity.
Defined.

End DispatcherExhaustion.

Section ReassignAndReset.
Import JS AssignValetRoundRobinUseCase.

Lemma reassign_update (now : Date) (cur : Valet) (rows : list Valet) :
  ValetRepository.findById (valet_id cur) rows = Some cur ->
  ValetRepository.update now
    (ValetEntity.set_assignmentSequence
       (Z.max 0 (assignmentSequence
                   (ValetEntity.set_todayCount (Z.max 0 (todayCount cur - 1)) cur) - 1))
       (ValetEntity.set_todayCount (Z.max 0 (todayCount cur - 1)) cur)) rows
  = (Ok (abandoned now cur cur), map (abandoned now cur) rows).
Proof.
  intros Hf. unfold ValetRepository.update, bind, gets, modify, ret.
  cbn [valet_id ValetEntity.set_assignmentSequence ValetEntity.set_todayCount].
  rewrite Hf.
  f_equal; unfold ValetRepository.writeRow, abandoned; simpl;
    rewrite ?String.eqb_refl; reflexivity.
Qed.

(** X13.  [reassignFromValet]: with an id that is not in the table it is
    [execute]; with the id of a valet of the table it first lowers that
    valet's two daily counters by one, not below zero, and then runs
    [execute].  When the abandoned valet is BUSY it stays BUSY with its
    total count as it was, and the task goes to a valet of another id. *)
Theorem X13_reassign_from_valet (now : Date) (valetId : string)
  (rows : list Valet) :
  (ValetRepository.findById valetId rows = None ->
   reassignFromValet now valetId rows = execute now rows) /\
  (forall cur, ValetRepository.findById valetId rows = Some cur ->
     reassignFromValet now valetId rows
     = execute now (map (abandoned now cur) rows) /\
     (status cur = BUSY ->
      forall sel rows',
        reassignFromValet now valetId rows = (Ok sel, rows') ->
        valet_id sel <> valetId /\
        forall x, In x rows' -> valet_id x = valetId ->
          status x = BUSY /\ totalCount x = totalCount cur /\
          todayCount x = Z.max 0 (todayCount cur - 1) /\
          assignmentSequence x = Z.max 0 (assignmentSequence cur - 1))).
Proof.
  split.
  - intros Hf. unfold reassignFromValet.
    erewrite bind_Ok by (unfold gets; rewrite Hf; reflexivity).
    cbv beta iota. erewrite bind_Ok by reflexivity. reflexivity.
  - intros cur Hf. apply findById_Some in Hf as Hcur. destruct Hcur as [Hin Hid].
    assert (Hre : reassignFromValet now valetId rows
                  = execute now (map (abandoned now cur) rows)).
    { unfold reassignFromValet.
      erewrite bind_Ok by (unfold gets; rewrite Hf; reflexivity).
      cbv beta iota zeta.
      erewrite bind_Ok; [reflexivity |].
      erewrite bind_Ok; [reflexivity |].
      apply reassign_update. rewrite Hid. exact Hf. }
    split; [exact Hre |].
    intros Hbusy sel rows' Hrun. rewrite Hre in Hrun.
    apply execute_inv in Hrun as [(s & Hs & [Hsin Hcan] & Hrows) | (e & He & _)];
      [| discriminate He].
    injection Hs as ->.
    apply canBeAssigned_iff in Hcan as (Hfree & _ & _).
    apply in_map_iff in Hsin as (y & Hy & Hyin).
    assert (Hne : valet_id s <> valetId).
    { subst s. unfold abandoned in *.
      destruct (String.eqb_spec (valet_id y) (valet_id cur)) as [E | E].
      - simpl in Hfree. congruence.
      - congruence. }
    split; [exact Hne |].
    intros x Hx Hxid. subst rows'. apply in_map_iff in Hx as (x1 & <- & Hx1).
    rewrite writeRow_id in Hxid.
    unfold ValetRepository.writeRow. simpl valet_id.
    destruct (String.eqb_spec (valet_id x1) (valet_id s)) as [E | E]; [congruence |].
    apply in_map_iff in Hx1 as (z & <- & Hz).
    unfold abandoned in Hxid |- *.
    destruct (String.eqb_spec (valet_id z) (valet_id cur)) as [E' | E'];
      [simpl; auto | congruence].
Qed.

Lemma X13_reassign_from_valet_witness :
  reassignFromValet 500 "nobody" [Sample.busyValet; Sample.anil]
  = execute 500 [Sample.busyValet; Sample.anil] /\
  exists sel rows',
    reassignFromValet 500 "valet-3" [Sample.busyValet; Sample.anil]
    = (Ok sel, rows') /\
    valet_id sel <> "valet-3" /\
    forall x, In x rows' -> valet_id x = "valet-3" ->
      status x = BUSY /\ todayCount x = 3.
Proof.
  destruct (X13_reassign_from_valet 500 "nobody" [Sample.busyValet; Sample.anil])
    as [Hnone _].
  destruct (X13_reassign_from_valet 500 "valet-3" [Sample.busyValet; Sample.anil])
    as [_ Hsome].
  split; [apply Hnone; reflexivity |].
  destruct (Hsome Sample.busyValet eq_refl) as [_ Hbusy].
  eexists. eexists. split; [vm_compute; reflexivity |].
  edestruct (Hbusy eq_refl) as [Hne Hrows]; [vm_compute; reflexivity |].
  split; [exact Hne |].
  intros x Hx Hid. destruct (Hrows x Hx Hid) as (H1 & _ & H3 & _).
  split; [exact H1 | exact H3].
Defined.

Lemma insertWith_In {A} (leb : A -> A -> bool) (x y : A) (l : list A) :
  In y (insertWith leb x l) <-> y = x \/ In y l.
Proof.
  induction l as [| z l IH]; simpl; [intuition |].
  destruct (leb x z); simpl; [intuition | rewrite IH; intuition].
Qed.

Lemma sortWith_In {A} (leb : A -> A -> bool) (y : A) (l : list A) :
  In y (sortWith leb l) <-> In y l.
Proof.
  induction l as [| x l IH]; simpl; [reflexivity |].
  rewrite insertWith_In, IH. intuition.
Qed.

Lemma reset_loop (now : Date) (rows : list Valet) :
  NoDup (map valet_id rows) ->
  forall (todo : list Valet) (visited : list string),
    (forall u, In u todo -> In u rows) ->
    forEach todo (fun valet =>
      match ValetEntity.resetDailyCounters now valet with
      | (Err e, _) => throw e
      | (Ok _, valet) => ValetRepository.update now valet ;; ret tt
      end) (map (resetSome now visited) rows)
    = (Ok tt, map (resetSome now (visited ++ map valet_id todo)) rows).
Proof.
  intros Hnd. induction todo as [| u todo IH]; intros visited Hsub.
  - simpl. rewrite app_nil_r. reflexivity.
  - assert (Hu : In u rows) by (apply Hsub; left; reflexivity).
    simpl forEach.
    set (u' := snd (ValetEntity.resetDailyCounters now u)).
    assert (Hstep : ValetRepository.update now u' (map (resetSome now visited) rows)
                    = (Ok (ValetRepository.writeRow now u' (resetSome now visited u)),
                       map (resetSome now (visited ++ [valet_id u])) rows)).
    { unfold ValetRepository.update, bind, gets, modify, ret.
      assert (Hfind : ValetRepository.findById (valet_id u')
                        (map (resetSome now visited) rows)
                      = Some (resetSome now visited u)).
      { rewrite findById_map.
        - destruct (findById_present u rows Hu) as (r & Hr & Hrin & Hrid).
          change (valet_id u') with (valet_id u). rewrite Hr. simpl.
          f_equal. f_equal.
          clear - Hnd Hu Hrin Hrid. induction rows as [| y rows IHr]; [contradiction |].
          simpl in Hnd. inversion Hnd as [| ? ? Hy Hrest]; subst.
          destruct Hu as [-> | Hu], Hrin as [-> | Hrin]; auto.
          + exfalso. apply Hy. rewrite <- Hrid. apply in_map, Hrin.
          + exfalso. apply Hy. rewrite Hrid. apply in_map, Hu.
        - intros x. unfold resetSome. destruct (has visited (valet_id x)); reflexivity. }
      rewrite Hfind. f_equal. rewrite map_map. apply map_ext_in. intros x Hx.
      unfold ValetRepository.writeRow, resetSome.
      assert (Hidx : valet_id (if has visited (valet_id x) then resetRow now x else x)
                     = valet_id x) by (destruct (has visited (valet_id x)); reflexivity).
      rewrite Hidx. change (valet_id u') with (valet_id u).
      unfold has. rewrite existsb_app. simpl existsb. rewrite orb_false_r.
      fold (has visited (valet_id x)).
      destruct (String.eqb_spec (valet_id x) (valet_id u)) as [E | E].
      - assert (x = u).
        { clear - Hnd Hu Hx E. induction rows as [| y rows IHr]; [contradiction |].
          simpl in Hnd. inversion Hnd as [| ? ? Hy Hrest]; subst.
          destruct Hx as [-> | Hx], Hu as [-> | Hu]; auto.
          + exfalso. apply Hy. rewrite E. apply in_map, Hu.
          + exfalso. apply Hy. rewrite <- E. apply in_map, Hx. }
        subst x. rewrite orb_true_r.
        destruct (has visited (valet_id u)); reflexivity.
      - rewrite orb_false_r. reflexivity. }
    change (ValetEntity.resetDailyCounters now u) with (Ok tt, u').
    cbv beta iota.
    erewrite bind_Ok; [| erewrite bind_Ok; [reflexivity | exact Hstep]].
    rewrite IH by (intros w Hw; apply Hsub; right; exact Hw).
    rewrite <- app_assoc. reflexivity.
Qed.

(** X14.  The daily reset: with unique ids in the table, [resetDailyCounters]
    succeeds and leaves every row with its sequence and its count of the
    day at zero, stamped with the time of the reset, and with its status,
    total count and every other column as before; a second reset at the
    same time changes nothing more. *)
Theorem X14_daily_reset (now : Date) (rows : list Valet) :
  NoDup (map valet_id rows) ->
  resetDailyCounters now rows = (Ok tt, map (resetRow now) rows) /\
  resetDailyCounters now (map (resetRow now) rows)
  = (Ok tt, map (resetRow now) rows).
Proof.
  assert (Hone : forall t, NoDup (map valet_id t) ->
                   resetDailyCounters now t = (Ok tt, map (resetRow now) t)).
  { intros t Hnd. unfold resetDailyCounters.
    erewrite bind_Ok by (unfold gets; reflexivity).
    pose proof (reset_loop now t Hnd (ValetRepository.findAll t) []) as Hloop.
    assert (Hid : map (resetSome now []) t = t).
    { rewrite <- (map_id t) at 2. apply map_ext. reflexivity. }
    rewrite Hid in Hloop. rewrite Hloop.
    - f_equal. apply map_ext_in. intros x Hx. unfold resetSome.
      assert (Hhas : has ([] ++ map valet_id (ValetRepository.findAll t)) (valet_id x) = true).
      { unfold has. apply existsb_exists. exists (valet_id x).
        split; [| apply String.eqb_refl]. simpl. apply in_map.
        unfold ValetRepository.findAll. apply sortWith_In. exact Hx. }
      rewrite Hhas. reflexivity.
    - intros u Hu. unfold ValetRepository.findAll in Hu.
      apply sortWith_In in Hu. exact Hu. }
  intros Hnd. split; [apply Hone, Hnd |].
  rewrite Hone.
  - f_equal. rewrite map_map. apply map_ext. reflexivity.
  - rewrite map_map. exact Hnd.
Qed.

Lemma X14_daily_reset_witness :
  resetDailyCounters 900 [Sample.busyValet; Sample.anil]
  = (Ok tt, [resetRow 900 Sample.busyValet; resetRow 900 Sample.anil]) /\
  status (resetRow 900 Sample.busyValet) = BUSY /\
  totalCount (resetRow 900 Sample.busyValet) = 40.
Proof.
  destruct (X14_daily_reset 900 [Sample.busyValet; Sample.anil]) as [H _].
  - repeat constructor; simpl; intuition discriminate.
  - split; [exact H | split; reflexivity].
Defined.

End ReassignAndReset.


(* ------------------------------------------------------------------ *)
(** * Further properties of the entry use case: normalization *)

Section NormalizationProperties.
Import JS CreateVehicleEntryUseCase.

Lemma upperChar_facts (c : ascii) :
  isSpace (upperChar c) = isSpace c /\
  upperChar (upperChar c) = upperChar c /\
  isLowerCase (upperChar c) = false.
Proof.
  destruct c as [[] [] [] [] [] [] [] []]; repeat split.
Qed.

Lemma allChars_mapChars (p : ascii -> bool) (f : ascii -> ascii) (s : string) :
  allChars p (mapChars f s) = allChars (fun c => p (f c)) s.
Proof. induction s as [| c s IH]; simpl; [reflexivity | rewrite IH; reflexivity]. Qed.

Lemma allChars_impl (p q : ascii -> bool) (s : string) :
  (forall c, p c = true -> q c = true) ->
  allChars p s = true -> allChars q s = true.
Proof.
  intros H. induction s as [| c s IH]; simpl; [reflexivity |].
  intros Hs. apply andb_true_iff in Hs as [H1 H2].
  rewrite (H c H1), (IH H2). reflexivity.
Qed.

Lemma mapChars_idem (f : ascii -> ascii) (s : string) :
  (forall c, f (f c) = f c) -> mapChars f (mapChars f s) = mapChars f s.
Proof.
  intros H. induction s as [| c s IH]; simpl; [reflexivity |].
  rewrite H, IH. reflexivity.
Qed.

Lemma filterChars_mapChars (p : ascii -> bool) (f : ascii -> ascii) (s : string) :
  (forall c, p (f c) = p c) ->
  filterChars p (mapChars f s) = mapChars f (filterChars p s).
Proof.
  intros H. induction s as [| c s IH]; simpl; [reflexivity |].
  rewrite H. destruct (p c); simpl; rewrite IH; reflexivity.
Qed.

Lemma trim_without_spaces (s : string) :
  allChars (fun c => negb (isSpace c)) s = true -> trim s = s.
Proof.
  intros H. unfold trim.
  assert (Hs : trimStart s = s).
  { destruct s as [| c s]; [reflexivity |]. simpl in *.
    apply andb_true_iff in H as [Hc _]. apply negb_true_iff in Hc.
    rewrite Hc. reflexivity. }
  rewrite Hs. induction s as [| c s IH]; [reflexivity |].
  simpl in H. apply andb_true_iff in H as [Hc Hrest].
  apply negb_true_iff in Hc. simpl.
  rewrite IH.
  - destruct s; [rewrite Hc |]; reflexivity.
  - exact Hrest.
  - destruct s as [| c' s]; [reflexivity |]. simpl in *.
    apply andb_true_iff in Hrest as [Hc' _]. apply negb_true_iff in Hc'.
    rewrite Hc'. reflexivity.
Qed.

Lemma upper_has_no_spaces (s : string) :
  allChars (fun c => negb (isSpace c)) (toUpperCase (removeWhitespace s)) = true.
Proof.
  unfold toUpperCase, removeWhitespace. rewrite allChars_mapChars.
  eapply allChars_impl; [| apply allChars_filterChars].
  intros c Hc. simpl in Hc. destruct (upperChar_facts c) as [-> _]. exact Hc.
Qed.

Lemma normalizeVehicleNumber_eq (s : string) :
  normalizeVehicleNumber s = toUpperCase (removeWhitespace s).
Proof. unfold normalizeVehicleNumber. apply trim_without_spaces, upper_has_no_spaces. Qed.

(** X15.  Plate normalization is a projection: normalizing twice is normalizing
    once, the result holds no white space and no lower-case letter, and
    plates that differ only in white space or in the case of their letters
    have the same normal form. *)
Theorem X15_plate_normalization (s : string) :
  normalizeVehicleNumber (normalizeVehicleNumber s) = normalizeVehicleNumber s /\
  allChars (fun c => negb (isSpace c) && negb (isLowerCase c))
           (normalizeVehicleNumber s) = true /\
  normalizeVehicleNumber (removeWhitespace s) = normalizeVehicleNumber s /\
  normalizeVehicleNumber (toUpperCase s) = normalizeVehicleNumber s /\
  (forall a b, normalizeVehicleNumber (a ++ " " ++ b)
               = normalizeVehicleNumber (a ++ b)).
Proof.
  assert (Hrm : forall t, removeWhitespace (removeWhitespace t) = removeWhitespace t).
  { intros t. unfold removeWhitespace. apply filterChars_all, allChars_filterChars. }
  assert (Hcomm : forall t, removeWhitespace (toUpperCase t)
                            = toUpperCase (removeWhitespace t)).
  { intros t. unfold removeWhitespace, toUpperCase. apply filterChars_mapChars.
    intros c. destruct (upperChar_facts c) as [-> _]. reflexivity. }
  assert (Hup : forall t, toUpperCase (toUpperCase t) = toUpperCase t).
  { intros t. unfold toUpperCase. apply mapChars_idem.
    intros c. apply (upperChar_facts c). }
  rewrite !normalizeVehicleNumber_eq. repeat split.
  - rewrite Hcomm, Hrm, Hup. reflexivity.
  - unfold toUpperCase. rewrite allChars_mapChars.
    eapply allChars_impl; [| apply (allChars_filterChars (fun c => negb (isSpace c)))].
    intros c Hc. simpl in Hc. destruct (upperChar_facts c) as (-> & _ & ->).
    rewrite Hc. reflexivity.
  - rewrite Hrm. reflexivity.
  - rewrite Hcomm, Hup. reflexivity.
  - intros a b. rewrite !normalizeVehicleNumber_eq. unfold removeWhitespace.
    rewrite !filterChars_app. reflexivity.
Qed.

Lemma strlen_length (s : string) (n : nat) :
  strlen s = Z.of_nat n <-> String.length s = n.
Proof. unfold strlen. lia. Qed.

(** X16.  Phone normalization returns digits only and is a projection; on a
    phone number that [validateInput] accepts it is the removal of the
    non-digits and nothing more, and what it returns is a ten-digit number
    that the pattern of the validation accepts. *)
Theorem X16_phone_normalization (dto : CreateVehicleEntryDTO) :
  let phone' := dto_customerPhone dto in
  allChars isDigit (normalizePhoneNumber phone') = true /\
  normalizePhoneNumber (normalizePhoneNumber phone') = normalizePhoneNumber phone' /\
  (validateInput dto = Ok tt ->
   normalizePhoneNumber phone' = removeNonDigits phone' /\
   phoneRegex_test (normalizePhoneNumber phone') = true).
Proof.
  cbv zeta. remember (dto_customerPhone dto) as p eqn:Hp.
  assert (Hd : allChars isDigit (removeNonDigits p) = true)
    by apply allChars_filterChars.
  assert (Hn : allChars isDigit (normalizePhoneNumber p) = true).
  { unfold normalizePhoneNumber.
    destruct (startsWith "91" (removeNonDigits p) && (strlen (removeNonDigits p) =? 12));
      [apply allChars_sliceFrom |]; exact Hd. }
  assert (Hfix : forall t, allChars isDigit t = true ->
            (startsWith "91" t && (strlen t =? 12)) = false ->
            normalizePhoneNumber t = t).
  { intros t Ht Hc. unfold normalizePhoneNumber, removeNonDigits.
    rewrite (filterChars_all _ _ Ht), Hc. reflexivity. }
  split; [exact Hn | split].
  - unfold normalizePhoneNumber at 2 3.
    destruct (startsWith "91" (removeNonDigits p) && (strlen (removeNonDigits p) =? 12))
      eqn:Hc.
    + apply andb_true_iff in Hc as [_ Hlen]. apply Z.eqb_eq in Hlen.
      apply Hfix; [apply allChars_sliceFrom, Hd |].
      assert (Hl : strlen (sliceFrom 2 (removeNonDigits p)) = 10).
      { unfold strlen in *. rewrite length_sliceFrom. lia. }
      rewrite Hl. apply andb_false_r.
    + apply Hfix; [exact Hd |].
      unfold removeNonDigits in *. exact Hc.
  - intros Hok. apply validateInput_ok in Hok as (_ & _ & _ & _ & Hre & _).
    rewrite <- Hp in Hre.
    assert (Hlen : strlen (removeNonDigits p) = 10)
      by (apply phoneRegex_test_length, Hre).
    assert (Heq : normalizePhoneNumber p = removeNonDigits p).
    { unfold normalizePhoneNumber. rewrite Hlen. rewrite andb_false_r. reflexivity. }
    split; [exact Heq | rewrite Heq; exact Hre].
Qed.

Lemma X16_phone_normalization_witness :
  normalizePhoneNumber "+91 98765-43210" = "9876543210" /\
  normalizePhoneNumber "98765 43210" = "9876543210" /\
  phoneRegex_test (normalizePhoneNumber "98765 43210") = true.
Proof.
  destruct (X16_phone_normalization
              (mkDTO "KL07AB1234" "98765 43210" None "op-1"))
    as (_ & _ & Hok).
  destruct (Hok eq_refl) as [_ Hre].
  split; [reflexivity | split; [reflexivity | exact Hre]].
Defined.

End NormalizationProperties.

(* ------------------------------------------------------------------ *)
(** * Further properties of the entry use case: failures and accounting *)

Section EntryAccounting.
Import JS CreateVehicleEntryUseCase.

Lemma validateInput_error (dto : CreateVehicleEntryDTO) (e : Error) :
  validateInput dto = Err e -> isInsertError e = false.
Proof.
  unfold validateInput. cbv zeta.
  repeat match goal with
         | |- context [if ?c then _ else _] => destruct c
         end; intros H; inversion H; reflexivity.
Qed.

Lemma noAvailableValet_not_insert (e : Error) :
  AssignValetRoundRobinUseCase.isNoAvailableValetError e = true ->
  isInsertError e = false.
Proof. destruct e; simpl; intros H; try discriminate H; reflexivity. Qed.

(** The three ways [execute] can end: a failure that has written nothing,
    the failure of the insert after the valet has been assigned, or
    success. *)
Lemma entry_cases (env : Env) (dto : CreateVehicleEntryDTO) (db : Database) :
  (exists e, execute env dto db = (Err e, db) /\ isInsertError e = false) \/
  (exists sel,
     assignable (env_now env) (valets db) sel /\
     execute env dto db
     = (Err (UniqueConstraintFailed "token"),
        mkDatabase
          (map (ValetRepository.writeRow (env_now env)
                  (assigned (env_now env) sel)) (valets db))
          (vehicles db) (parking_zones db))) \/
  (exists res db', execute env dto db = (Ok res, db')).
Proof.
  destruct db as [vs ws zs]. unfold execute.
  destruct (validateInput dto) as [[] | e0] eqn:Hval.
  2: { left. exists e0. split; [| eapply validateInput_error, Hval].
       erewrite bind_Err; [reflexivity |]. unfold lift. reflexivity. }
  erewrite bind_Ok by (unfold lift; reflexivity).
  destruct (VehicleRepository.findActiveByVehicleNumber
              (normalizeVehicleNumber (dto_vehicleNumber dto)) ws)
    as [dup |] eqn:Hdup.
  { left. exists (VehicleAlreadyParked
                    (normalizeVehicleNumber (dto_vehicleNumber dto))
                    (token dup) (state dup)).
    split; [| reflexivity].
    erewrite bind_Err; [reflexivity |].
    unfold onVehicles, checkDuplicateEntry, bind, gets.
    cbn [parking_zones valets vehicles]. rewrite Hdup. reflexivity. }
  erewrite bind_Ok
    by (unfold onVehicles, checkDuplicateEntry, bind, gets;
        cbn [parking_zones valets vehicles]; rewrite Hdup; reflexivity).
  erewrite bind_Ok by (unfold gets; reflexivity).
  cbv beta. cbn [parking_zones valets vehicles].
  destruct (ParkingZoneRepository.findAvailableZone zs) as [zone' |] eqn:Hzone.
  2: { left. exists NoParkingSlotsAvailable. split; reflexivity. }
  destruct (AssignValetRoundRobinUseCase.execute (env_now env) vs)
    as [r vs'] eqn:Hvalet.
  destruct (execute_inv _ _ _ _ Hvalet)
    as [(sel & -> & Hsel & ->) | (e & -> & -> & He)].
  2: { left. exists e. split; [| apply noAvailableValet_not_insert, He].
       erewrite bind_Err; [reflexivity |].
       unfold onValets. cbn [parking_zones valets vehicles].
       rewrite Hvalet. reflexivity. }
  erewrite bind_Ok
    by (unfold onValets; cbn [parking_zones valets vehicles]; rewrite Hvalet;
        reflexivity).
  cbv beta zeta.
  fold (entryVehicle env dto zone' (assigned (env_now env) sel)).
  destruct (VehicleRepository.findByToken
              (token (entryVehicle env dto zone' (assigned (env_now env) sel)))
              ws) as [clash |] eqn:Htok.
  { right. left. exists sel. split; [exact Hsel |].
    erewrite bind_Err; [reflexivity |].
    unfold onVehicles, VehicleRepository.create, bind, gets.
    cbn [parking_zones valets vehicles]. rewrite Htok. reflexivity. }
  right. right.
  erewrite bind_Ok
    by (unfold onVehicles, VehicleRepository.create, bind, gets, modify, ret;
        cbn [parking_zones valets vehicles]; rewrite Htok; reflexivity).
  assert (Hf : ParkingZoneRepository.findById (zone_id zone') zs <> None).
  { apply zone_findById_present, findAvailableZone_In, Hzone. }
  destruct (ParkingZoneRepository.findById (zone_id zone') zs)
    as [found |] eqn:Hfound; [| congruence].
  erewrite bind_Ok
    by (unfold onZones, ParkingZoneRepository.decrementAvailableSlots, bind,
          gets, modify; cbn [parking_zones valets vehicles]; rewrite Hfound;
        reflexivity).
  eexists. eexists. reflexivity.
Qed.

(** X17.  A createEntry that fails for any reason other than the insert of
    the vehicle row has written nothing: the database after the failure is
    the database before it.  Whatever the failure, the vehicles table and
    the zones table are untouched. *)
Theorem X17_failed_entry_writes_nothing (env : Env)
  (dto : CreateVehicleEntryDTO) (db db' : Database) (e : Error) :
  execute env dto db = (Err e, db') ->
  vehicles db' = vehicles db /\
  parking_zones db' = parking_zones db /\
  (isInsertError e = false -> db' = db).
Proof.
  intros H.
  destruct (entry_cases env dto db)
    as [(e0 & Hrun & He0) | [(sel & _ & Hrun) | (res & db1 & Hrun)]];
    rewrite Hrun in H.
  - injection H as <- <-. auto.
  - injection H as <- <-. repeat split. intros Hx. discriminate Hx.
  - discriminate H.
Qed.

Lemma X17_failed_entry_writes_nothing_witness :
  snd (execute Sample.firstEnv Sample.firstEntry Sample.fullLot)
  = Sample.fullLot.
Proof.
  apply (X17_failed_entry_writes_nothing Sample.firstEnv Sample.firstEntry
           Sample.fullLot _ NoParkingSlotsAvailable eq_refl).
  reflexivity.
Defined.

(** X18.  The valet is assigned before the vehicle row is inserted and the
    assignment is not taken back: when the insert fails, the valets table
    holds the selected valet as BUSY with its counters raised, although no
    vehicle has been admitted and no slot has been taken. *)
Theorem X18_failed_insert_keeps_the_valet_busy (env : Env)
  (dto : CreateVehicleEntryDTO) (db db' : Database) (e : Error) :
  execute env dto db = (Err e, db') ->
  isInsertError e = true ->
  exists sel,
    assignable (env_now env) (valets db) sel /\
    db' = mkDatabase
            (map (ValetRepository.writeRow (env_now env)
                    (assigned (env_now env) sel)) (valets db))
            (vehicles db) (parking_zones db) /\
    option_map status (ValetRepository.findById (valet_id sel) (valets db'))
    = Some BUSY.
Proof.
  intros H He.
  destruct (entry_cases env dto db)
    as [(e0 & Hrun & He0) | [(sel & Hsel & Hrun) | (res & db1 & Hrun)]];
    rewrite Hrun in H.
  - injection H as <- <-. congruence.
  - injection H as <- <-. exists sel. split; [exact Hsel | split; [reflexivity |]].
    cbn [valets]. destruct Hsel as [Hin _].
    destruct (findById_present sel (valets db) Hin) as (row & Hf & _ & Hid).
    rewrite findById_map by apply writeRow_id.
    rewrite Hf. simpl. unfold ValetRepository.writeRow.
    cbn [valet_id assigned]. rewrite Hid, String.eqb_refl. reflexivity.
  - discriminate H.
Qed.

Lemma X18_failed_insert_keeps_the_valet_busy_witness :
  exists sel,
    assignable (env_now Sample.firstEnv) (valets Sample.occupiedLot) sel /\
    vehicles (snd (execute Sample.firstEnv Sample.secondEntry Sample.occupiedLot))
    = vehicles Sample.occupiedLot /\
    option_map status
      (ValetRepository.findById (valet_id sel)
         (valets (snd (execute Sample.firstEnv Sample.secondEntry
                         Sample.occupiedLot))))
    = Some BUSY.
Proof.
  destruct (X18_failed_insert_keeps_the_valet_busy Sample.firstEnv
              Sample.secondEntry Sample.occupiedLot _
              (UniqueConstraintFailed "token") eq_refl eq_refl)
    as (sel & H1 & _ & H3).
  exists sel. split; [exact H1 | split; [reflexivity | exact H3]].
Defined.

End EntryAccounting.

(* ------------------------------------------------------------------ *)
(** * Slot accounting and plates over a sequence of arrivals *)

Section SlotAccounting.
Import JS CreateVehicleEntryUseCase.

Lemma addSlots_id (id : string) (k : Z) (z : ParkingZone) :
  zone_id (ParkingZoneRepository.addSlots id k z) = zone_id z.
Proof.
  unfold ParkingZoneRepository.addSlots.
  destruct (String.eqb (zone_id z) id); reflexivity.
Qed.

Lemma map_addSlots_ids (id : string) (k : Z) (zones : list ParkingZone) :
  map zone_id (map (ParkingZoneRepository.addSlots id k) zones)
  = map zone_id zones.
Proof.
  rewrite map_map. apply map_ext. intros z. apply addSlots_id.
Qed.

Lemma addSlots_absent (id : string) (k : Z) (zones : list ParkingZone) :
  ~ In id (map zone_id zones) ->
  map (ParkingZoneRepository.addSlots id k) zones = zones.
Proof.
  induction zones as [| z zones IH]; simpl; [reflexivity |].
  intros Hn. rewrite IH by tauto. f_equal.
  unfold ParkingZoneRepository.addSlots.
  destruct (String.eqb_spec (zone_id z) id) as [E | E]; [| reflexivity].
  exfalso. apply Hn. left. exact E.
Qed.

Lemma totalAvailable_addSlots (id : string) (k : Z) (zones : list ParkingZone) :
  NoDup (map zone_id zones) -> In id (map zone_id zones) ->
  totalAvailable (map (ParkingZoneRepository.addSlots id k) zones)
  = totalAvailable zones + k.
Proof.
  induction zones as [| z zones IH]; simpl; [tauto |].
  intros Hnd Hin. apply NoDup_cons_iff in Hnd as [Hz Hnd].
  unfold ParkingZoneRepository.addSlots at 1.
  destruct (String.eqb_spec (zone_id z) id) as [E | E].
  - rewrite addSlots_absent by (rewrite <- E; exact Hz). simpl. lia.
  - destruct Hin as [Hin | Hin]; [contradiction |].
    rewrite (IH Hnd Hin). lia.
Qed.

Lemma NoDup_map_inj {A B : Type} (f : A -> B) (l : list A) (x y : A) :
  NoDup (map f l) -> In x l -> In y l -> f x = f y -> x = y.
Proof.
  induction l as [| a l IH]; simpl; [tauto |].
  intros Hnd Hx Hy E. apply NoDup_cons_iff in Hnd as [Ha Hnd].
  destruct Hx as [-> | Hx], Hy as [-> | Hy]; auto.
  - exfalso. apply Ha. rewrite E. apply in_map, Hy.
  - exfalso. apply Ha. rewrite <- E. apply in_map, Hx.
Qed.

(** The tables after one call of [execute], whatever its outcome. *)
Lemma entry_tables (env : Env) (dto : CreateVehicleEntryDTO) (db : Database) :
  (vehicles (snd (execute env dto db)) = vehicles db /\
   parking_zones (snd (execute env dto db)) = parking_zones db) \/
  (exists zone' row,
     ParkingZoneRepository.findAvailableZone (parking_zones db) = Some zone' /\
     VehicleRepository.findActiveByVehicleNumber
       (normalizeVehicleNumber (dto_vehicleNumber dto)) (vehicles db) = None /\
     vehicleNumber row = normalizeVehicleNumber (dto_vehicleNumber dto) /\
     state row = PARKING /\
     vehicles (snd (execute env dto db)) = (vehicles db ++ [row])%list /\
     parking_zones (snd (execute env dto db))
     = map (ParkingZoneRepository.addSlots (zone_id zone') (-1))
           (parking_zones db)).
Proof.
  destruct (entry_cases env dto db)
    as [(e0 & Hrun & He0) | [(sel & _ & Hrun) | (res & db1 & Hrun)]].
  - left. rewrite Hrun. split; reflexivity.
  - left. rewrite Hrun. split; reflexivity.
  - right. rewrite Hrun.
    apply execute_ok_inv in Hrun
      as (_ & Hdup & zone' & valet & valets' & Hzone & _ & _ & _ & ->).
    exists zone'. eexists. repeat split; [exact Hzone | exact Hdup | ..];
      reflexivity.
Qed.

Lemma entry_step (env : Env) (dto : CreateVehicleEntryDTO) (db : Database) :
  NoDup (map zone_id (parking_zones db)) ->
  (forall z, In z (parking_zones db) -> 0 <= availableSlots z <= totalSlots z) ->
  let db' := snd (execute env dto db) in
  map zone_id (parking_zones db') = map zone_id (parking_zones db) /\
  (forall z, In z (parking_zones db') -> 0 <= availableSlots z <= totalSlots z) /\
  totalAvailable (parking_zones db') + Z.of_nat (List.length (vehicles db'))
  = totalAvailable (parking_zones db) + Z.of_nat (List.length (vehicles db)).
Proof.
  intros Hnd Hb db'. subst db'.
  destruct (entry_tables env dto db)
    as [[Hv Hz] | (zone' & row & Hzone & _ & _ & _ & Hv & Hz)];
    rewrite Hv, Hz.
  - auto.
  - apply findAvailableZone_In in Hzone as (Hin & Hpos & _).
    split; [apply map_addSlots_ids | split].
    + intros z Hz'. apply in_map_iff in Hz' as (x & <- & Hx).
      specialize (Hb x Hx). unfold ParkingZoneRepository.addSlots.
      destruct (String.eqb_spec (zone_id x) (zone_id zone')) as [E | E];
        [| exact Hb].
      assert (x = zone') as -> by
          (apply (NoDup_map_inj zone_id (parking_zones db)); assumption).
      simpl. lia.
    + rewrite totalAvailable_addSlots by (auto using in_map).
      rewrite length_app. simpl. lia.
Qed.

(** X19.  Slot accounting of the entry path.  From a zones table with
    distinct ids whose counters lie between 0 and the capacity, any
    sequence of arrivals, accepted or refused, leaves the same zones with
    counters between 0 and the capacity, and each admitted vehicle has
    taken exactly one slot: free slots plus vehicle records stay
    constant. *)
Theorem X19_entries_keep_the_slot_account
  (calls : list (Env * CreateVehicleEntryDTO)) (db : Database) :
  NoDup (map zone_id (parking_zones db)) ->
  (forall z, In z (parking_zones db) -> 0 <= availableSlots z <= totalSlots z) ->
  let db' := runEntries calls db in
  map zone_id (parking_zones db') = map zone_id (parking_zones db) /\
  (forall z, In z (parking_zones db') -> 0 <= availableSlots z <= totalSlots z) /\
  totalAvailable (parking_zones db') + Z.of_nat (List.length (vehicles db'))
  = totalAvailable (parking_zones db) + Z.of_nat (List.length (vehicles db)).
Proof.
  revert db. induction calls as [| [env dto] rest IH]; intros db Hnd Hb.
  - simpl. auto.
  - destruct (entry_step env dto db Hnd Hb) as (Hids & Hb1 & Hsum).
    cbn [runEntries]. cbv zeta.
    destruct (IH (snd (execute env dto db))) as (Hids' & Hb' & Hsum').
    + rewrite Hids. exact Hnd.
    + exact Hb1.
    + cbv zeta in Hids', Hb', Hsum'.
      split; [congruence | split; [exact Hb' | lia]].
Qed.

Lemma X19_entries_keep_the_slot_account_witness :
  let db' := runEntries [(Sample.firstEnv, Sample.firstEntry);
                         (Sample.firstEnv, Sample.badPhoneEntry);
                         (Sample.secondEnv, Sample.secondEntry)]
                        Sample.emptyLot in
  totalAvailable (parking_zones db') + Z.of_nat (List.length (vehicles db'))
  = 2.
Proof.
  apply (X19_entries_keep_the_slot_account
           [(Sample.firstEnv, Sample.firstEntry);
            (Sample.firstEnv, Sample.badPhoneEntry);
            (Sample.secondEnv, Sample.secondEntry)] Sample.emptyLot).
  - repeat constructor. simpl. tauto.
  - intros z [<- | []]. simpl. lia.
Defined.

Lemma activePlates_In (plate : string) (rows : list Vehicle) :
  VehicleRepository.findActiveByVehicleNumber plate rows = None ->
  ~ In plate (activePlates rows).
Proof.
  intros Hnone Hin. unfold activePlates in Hin.
  apply in_map_iff in Hin as (v & Hplate & Hv).
  apply filter_In in Hv as [Hv Hact].
  destruct (proj1 (findActive_none plate rows) Hnone v Hv Hplate) as [E | E];
    unfold isActiveRecord in Hact; rewrite E in Hact; discriminate Hact.
Qed.

(** X20.  No plate is inside twice: when the plates of the vehicles that
    are neither DELIVERED nor CLOSED are pairwise distinct, they are still
    pairwise distinct after any sequence of arrivals. *)
Theorem X20_active_plates_stay_distinct
  (calls : list (Env * CreateVehicleEntryDTO)) (db : Database) :
  NoDup (activePlates (vehicles db)) ->
  NoDup (activePlates (vehicles (runEntries calls db))).
Proof.
  revert db. induction calls as [| [env dto] rest IH]; intros db Hnd.
  - exact Hnd.
  - cbn [runEntries]. apply IH.
    destruct (entry_tables env dto db)
      as [[Hv _] | (zone' & row & _ & Hdup & Hplate & Hst & Hv & _)];
      rewrite Hv; [exact Hnd |].
    unfold activePlates. rewrite filter_app, map_app.
    apply NoDup_app; [exact Hnd | |].
    + simpl. unfold isActiveRecord. rewrite Hst. simpl.
      repeat constructor. simpl. tauto.
    + intros a Ha Hin. simpl in Hin. unfold isActiveRecord in Hin.
      rewrite Hst in Hin. simpl in Hin. destruct Hin as [<- | []].
      rewrite Hplate in Ha. exact (activePlates_In _ _ Hdup Ha).
Qed.

Lemma X20_active_plates_stay_distinct_witness :
  NoDup (activePlates
           (vehicles (runEntries [(Sample.firstEnv, Sample.firstEntry);
                                  (Sample.secondEnv, Sample.firstEntry);
                                  (Sample.secondEnv, Sample.secondEntry)]
                                 Sample.vacatedLot))).
Proof.
  apply X20_active_plates_stay_distinct. simpl. constructor.
Defined.

Lemma findAvailableZone_least (rows : list ParkingZone) (z : ParkingZone) :
  ParkingZoneRepository.findAvailableZone rows = Some z ->
  forall z2, In z2 rows -> ParkingZoneEntity.hasAvailability z2 = true ->
             priority z <= priority z2.
Proof.
  unfold ParkingZoneRepository.findAvailableZone. intros H z2 Hin Hav.
  destruct (sortBy priority _) as [| z' more] eqn:Hs; [discriminate H |].
  injection H as ->.
  destruct (sortBy_head_min _ _ _ _ Hs) as [_ Hmin].
  apply Hmin. apply filter_In. split; [exact Hin | exact Hav].
Qed.

Lemma findAvailableZone_None (rows : list ParkingZone) :
  (forall z, In z rows -> ParkingZoneEntity.hasAvailability z = false) ->
  ParkingZoneRepository.findAvailableZone rows = None.
Proof.
  intros Hall.
  destruct (ParkingZoneRepository.findAvailableZone rows) as [z |] eqn:H;
    [| reflexivity].
  apply findAvailableZone_In in H as (Hin & Hpos & Hact).
  specialize (Hall z Hin). unfold ParkingZoneEntity.hasAvailability in Hall.
  rewrite Hact in Hall. apply Z.ltb_lt in Hpos. rewrite Hpos in Hall.
  discriminate Hall.
Qed.

(** X21.  The zone of an admitted vehicle is an active zone with a free
    slot whose priority number is the least among such zones, and it is
    that zone, identified by its id, that loses a slot.  When no active
    zone has a free slot, an entry that passes validation and the duplicate
    check is refused with the no-slots error and nothing is written. *)
Theorem X21_entry_takes_the_zone_of_least_priority (env : Env)
  (dto : CreateVehicleEntryDTO) (db : Database) :
  (forall res db', execute env dto db = (Ok res, db') ->
     exists z, In z (parking_zones db) /\
       ParkingZoneEntity.hasAvailability z = true /\
       (forall z2, In z2 (parking_zones db) ->
                   ParkingZoneEntity.hasAvailability z2 = true ->
                   priority z <= priority z2) /\
       res_zone res = zoneCode z /\ zone (res_vehicle res) = zoneCode z /\
       parking_zones db'
       = map (ParkingZoneRepository.addSlots (zone_id z) (-1))
             (parking_zones db)) /\
  ((forall z, In z (parking_zones db) ->
              ParkingZoneEntity.hasAvailability z = false) ->
   validateInput dto = Ok tt ->
   VehicleRepository.findActiveByVehicleNumber
     (normalizeVehicleNumber (dto_vehicleNumber dto)) (vehicles db) = None ->
   execute env dto db = (Err NoParkingSlotsAvailable, db)).
Proof.
  split.
  - intros res db' Hrun.
    apply execute_ok_inv in Hrun
      as (_ & _ & zone' & valet & valets' & Hzone & _ & _ & -> & ->).
    exists zone'. apply findAvailableZone_In in Hzone as Hz.
    destruct Hz as (Hin & Hpos & Hact).
    split; [exact Hin | split].
    + unfold ParkingZoneEntity.hasAvailability. rewrite Hact.
      apply Z.ltb_lt in Hpos. rewrite Hpos. reflexivity.
    + split; [exact (findAvailableZone_least _ _ Hzone) |].
      repeat split.
  - intros Hall Hval Hdup. apply findAvailableZone_None in Hall.
    destruct db as [vs ws zs]. cbn [parking_zones valets vehicles] in *.
    unfold execute.
    erewrite bind_Ok by (unfold lift; rewrite Hval; reflexivity).
    erewrite bind_Ok
      by (unfold onVehicles, checkDuplicateEntry, bind, gets;
          cbn [parking_zones valets vehicles]; rewrite Hdup; reflexivity).
    erewrite bind_Ok by (unfold gets; reflexivity).
    cbv beta. cbn [parking_zones valets vehicles]. rewrite Hall. reflexivity.
Qed.

Lemma X21_entry_takes_the_zone_of_least_priority_witness :
  (exists z, In z (parking_zones Sample.emptyLot) /\
             ParkingZoneEntity.hasAvailability z = true /\
             parking_zones
               (snd (execute Sample.firstEnv Sample.firstEntry Sample.emptyLot))
             = map (ParkingZoneRepository.addSlots (zone_id z) (-1))
                   (parking_zones Sample.emptyLot)) /\
  execute Sample.firstEnv Sample.firstEntry Sample.fullLot
  = (Err NoParkingSlotsAvailable, Sample.fullLot).
Proof.
  split.
  - destruct (proj1 (X21_entry_takes_the_zone_of_least_priority
                       Sample.firstEnv Sample.firstEntry Sample.emptyLot)
                _ _ eq_refl) as (z & H1 & H2 & _ & _ & _ & H3).
    exists z. split; [exact H1 | split; [exact H2 | exact H3]].
  - apply (X21_entry_takes_the_zone_of_least_priority Sample.firstEnv
             Sample.firstEntry Sample.fullLot).
    + intros z [<- | []]. reflexivity.
    + reflexivity.
    + reflexivity.
Defined.

End SlotAccounting.

(* ------------------------------------------------------------------ *)
(** * MarkVehicleParked: outcomes, and its composition with the entry *)

Section MarkParkedProperties.
Import JS CreateVehicleEntryUseCase.

Lemma markAsParked_eq (now : Date) (v : Vehicle) :
  VehicleEntity.markAsParked now v
  = if VehicleEntity.canBeMarkedParked v
    then (Ok tt, VehicleEntity.set_updatedAt now
                   (VehicleEntity.set_parkedAt (Some now)
                      (VehicleEntity.set_state PARKED v)))
    else (Err (CannotMarkParked (state v)), v).
Proof.
  unfold VehicleEntity.markAsParked, bind, gets, throwIf.
  destruct (VehicleEntity.canBeMarkedParked v) eqn:Hc; [| reflexivity].
  unfold VehicleEntity.canBeMarkedParked in Hc.
  apply andb_true_iff in Hc as [Hst _].
  destruct (state v); try discriminate Hst. reflexivity.
Qed.

Lemma completeTask_eq (now : Date) (v : Valet) :
  ValetEntity.completeTask now v
  = if ValetStatus_eqb (status v) BUSY
    then (Ok tt, ValetEntity.set_updatedAt now (ValetEntity.set_status FREE v))
    else (Err (CannotCompleteTask (status v)), v).
Proof.
  unfold ValetEntity.completeTask, bind, gets, throwIf.
  destruct (ValetStatus_eqb (status v) BUSY); reflexivity.
Qed.

Lemma vehicle_findById_Some (id : string) (rows : list Vehicle) (row : Vehicle) :
  VehicleRepository.findById id rows = Some row -> In row rows /\ v_id row = id.
Proof.
  unfold VehicleRepository.findById. intros H. apply find_some in H as [H1 H2].
  apply String.eqb_eq in H2. auto.
Qed.

Lemma writeState_id (id : string) (st : VehicleState) (v : Vehicle) :
  v_id (VehicleRepository.writeState id st v) = v_id v.
Proof.
  unfold VehicleRepository.writeState.
  destruct (String.eqb (v_id v) id); reflexivity.
Qed.

Lemma vehicle_findById_map (f : Vehicle -> Vehicle) (id : string)
  (rows : list Vehicle) :
  (forall x, v_id (f x) = v_id x) ->
  VehicleRepository.findById id (map f rows)
  = option_map f (VehicleRepository.findById id rows).
Proof.
  intros Hid. unfold VehicleRepository.findById.
  induction rows as [| x rows IH]; simpl; [reflexivity |].
  rewrite Hid. destruct (String.eqb (v_id x) id); [reflexivity | exact IH].
Qed.

Lemma vehicle_findById_app (id : string) (rows : list Vehicle) (row : Vehicle) :
  VehicleRepository.findById id rows = None -> v_id row = id ->
  VehicleRepository.findById id (rows ++ [row])%list = Some row.
Proof.
  unfold VehicleRepository.findById. intros Hnone Hid.
  induction rows as [| x rows IH]; simpl in *.
  - rewrite Hid, String.eqb_refl. reflexivity.
  - destruct (String.eqb (v_id x) id); [discriminate Hnone | exact (IH Hnone)].
Qed.

(** The outcome of [execute], step by step. *)
Lemma markParked_eq (now : Date) (vehicleId : string) (db : Database) :
  MarkVehicleParkedUseCase.execute now vehicleId db
  = match VehicleRepository.findById vehicleId (vehicles db) with
    | None => (Err VehicleNotFound, db)
    | Some vehicle =>
        match parkingValetId vehicle with
        | None => (Err NoParkingValetAssigned, db)
        | Some valetId =>
            if falsy valetId then (Err NoParkingValetAssigned, db)
            else
              match ValetRepository.findById valetId (valets db) with
              | None => (Err AssignedValetNotFound, db)
              | Some valet =>
                  if VehicleState_eqb (state vehicle) PARKING
                  then
                    let rows :=
                      map (VehicleRepository.writeState vehicleId PARKED)
                          (vehicles db) in
                    if ValetStatus_eqb (status valet) BUSY
                    then
                      (Ok (VehicleEntity.set_updatedAt now
                             (VehicleEntity.set_parkedAt (Some now)
                                (VehicleEntity.set_state PARKED vehicle))),
                       mkDatabase
                         (map (ValetRepository.writeRow now
                                 (ValetEntity.set_updatedAt now
                                    (ValetEntity.set_status FREE valet)))
                              (valets db))
                         rows (parking_zones db))
                    else
                      (Err (CannotCompleteTask (status valet)),
                       mkDatabase (valets db) rows (parking_zones db))
                  else (Err (CannotMarkParked (state vehicle)), db)
              end
        end
    end.
Proof.
  destruct db as [vs ws zs]. unfold MarkVehicleParkedUseCase.execute.
  erewrite bind_Ok by (unfold gets; reflexivity).
  cbv beta. cbn [vehicles valets parking_zones].
  destruct (VehicleRepository.findById vehicleId ws) as [vehicle |] eqn:Hveh;
    [| reflexivity].
  destruct (parkingValetId vehicle) as [valetId |] eqn:Hpv; [| reflexivity].
  destruct (falsy valetId) eqn:Hfalsy.
  { erewrite bind_Err; [reflexivity |]. unfold throwIf.
    reflexivity. }
  erewrite bind_Ok by (unfold throwIf; reflexivity).
  erewrite bind_Ok by (unfold gets; reflexivity).
  cbv beta. cbn [vehicles valets parking_zones].
  destruct (ValetRepository.findById valetId vs) as [valet |] eqn:Hval;
    [| reflexivity].
  rewrite markAsParked_eq. unfold VehicleEntity.canBeMarkedParked.
  rewrite Hpv, andb_true_r.
  destruct (VehicleState_eqb (state vehicle) PARKING) eqn:Hst; [| reflexivity].
  apply vehicle_findById_Some in Hveh as Hveh'. destruct Hveh' as [Hin Hid].
  assert (Hup : onVehicles
                  (VehicleRepository.updateState
                     (v_id (VehicleEntity.set_updatedAt now
                              (VehicleEntity.set_parkedAt (Some now)
                                 (VehicleEntity.set_state PARKED vehicle))))
                     (state (VehicleEntity.set_updatedAt now
                               (VehicleEntity.set_parkedAt (Some now)
                                  (VehicleEntity.set_state PARKED vehicle)))))
                  (mkDatabase vs ws zs)
                = (Ok (VehicleRepository.writeState vehicleId PARKED vehicle),
                   mkDatabase vs
                     (map (VehicleRepository.writeState vehicleId PARKED) ws) zs)).
  { unfold onVehicles, VehicleRepository.updateState, bind, gets, modify, ret.
    cbn [vehicles valets parking_zones VehicleEntity.set_updatedAt
         VehicleEntity.set_parkedAt VehicleEntity.set_state v_id state].
    rewrite Hid, Hveh. reflexivity. }
  rewrite (bind_Ok _ _ _ _ _ Hup).
  rewrite completeTask_eq.
  destruct (ValetStatus_eqb (status valet) BUSY) eqn:Hbusy; [| reflexivity].
  apply findById_Some in Hval as Hval'. destruct Hval' as [Hvin Hvid].
  destruct (update_present now
              (ValetEntity.set_updatedAt now (ValetEntity.set_status FREE valet))
              vs) as (saved & Hsave).
  { exists valet. split; [exact Hvin | reflexivity]. }
  erewrite bind_Ok
    by (unfold onValets; cbn [vehicles valets parking_zones]; rewrite Hsave;
        reflexivity).
  reflexivity.
Qed.

(** X22.  MarkVehicleParked writes the vehicle before it releases the
    valet.  A failure leaves the valets and the zones as they were, and
    leaves the whole database as it was unless the failure is the valet's
    refusal to complete a task; in that case the parking valet was not BUSY,
    the call has failed, and the vehicle, PARKING before, is stored as
    PARKED. *)
Theorem X22_markParked_failure (now : Date) (vehicleId : string)
  (db db' : Database) (e : Error) :
  MarkVehicleParkedUseCase.execute now vehicleId db = (Err e, db') ->
  valets db' = valets db /\ parking_zones db' = parking_zones db /\
  ((forall st, e <> CannotCompleteTask st) -> db' = db) /\
  (forall st, e = CannotCompleteTask st ->
     st <> BUSY /\
     option_map state (VehicleRepository.findById vehicleId (vehicles db))
     = Some PARKING /\
     option_map state (VehicleRepository.findById vehicleId (vehicles db'))
     = Some PARKED).
Proof.
  rewrite markParked_eq.
  destruct (VehicleRepository.findById vehicleId (vehicles db))
    as [vehicle |] eqn:Hveh.
  2: { intros H. injection H as <- <-. repeat split; intros; congruence. }
  destruct (parkingValetId vehicle) as [valetId |].
  2: { intros H. injection H as <- <-. repeat split; intros; congruence. }
  destruct (falsy valetId).
  { intros H. injection H as <- <-. repeat split; intros; congruence. }
  destruct (ValetRepository.findById valetId (valets db)) as [valet |].
  2: { intros H. injection H as <- <-. repeat split; intros; congruence. }
  destruct (VehicleState_eqb (state vehicle) PARKING) eqn:Hst.
  2: { intros H. injection H as <- <-. repeat split; intros; congruence. }
  cbv zeta. destruct (ValetStatus_eqb (status valet) BUSY) eqn:Hbusy.
  { intros H. discriminate H. }
  intros H. injection H as <- <-. cbn [valets vehicles parking_zones].
  split; [reflexivity | split; [reflexivity | split]].
  - intros Hno. exfalso. apply (Hno (status valet)). reflexivity.
  - intros st Hst'. injection Hst' as <-. split; [| split].
    + intros E. rewrite E in Hbusy. discriminate Hbusy.
    + simpl. destruct (state vehicle); try discriminate Hst. reflexivity.
    + rewrite vehicle_findById_map by (intros x; apply writeState_id).
      rewrite Hveh. simpl. unfold VehicleRepository.writeState.
      apply vehicle_findById_Some in Hveh as [_ ->].
      rewrite String.eqb_refl. reflexivity.
Qed.

Lemma X22_markParked_failure_witness :
  let db := mkDatabase [Sample.anil; Sample.binu]
              [VehicleEntity.set_state PARKING Sample.scheduledVehicle]
              [Sample.zoneA] in
  fst (MarkVehicleParkedUseCase.execute 180000 "veh-1" db)
  = Err (CannotCompleteTask FREE) /\
  option_map state
    (VehicleRepository.findById "veh-1"
       (vehicles (snd (MarkVehicleParkedUseCase.execute 180000 "veh-1" db))))
  = Some PARKED.
Proof.
  intros db. split; [reflexivity |].
  destruct (X22_markParked_failure 180000 "veh-1" db _
              (CannotCompleteTask FREE) eq_refl) as (_ & _ & _ & H).
  destruct (H FREE eq_refl) as (_ & _ & Hst). exact Hst.
Defined.

(** X23.  Entry and parking compose.  After a successful createEntry whose
    row id is new to the vehicles table, in a valets table without empty
    ids, MarkVehicleParked on the admitted vehicle succeeds: the vehicle is
    returned and stored as PARKED, the valet that createEntry assigned is
    FREE again, and the zones are not touched. *)
Theorem X23_entry_then_markParked (env : Env) (dto : CreateVehicleEntryDTO)
  (db db1 : Database) (res : VehicleEntryResponse) (later : Date) :
  execute env dto db = (Ok res, db1) ->
  VehicleRepository.findById (env_rowId env) (vehicles db) = None ->
  (forall v, In v (valets db) -> falsy (valet_id v) = false) ->
  exists parked db2,
    MarkVehicleParkedUseCase.execute later (v_id (res_vehicle res)) db1
    = (Ok parked, db2) /\
    state parked = PARKED /\ parkedAt parked = Some later /\
    token parked = res_token res /\
    option_map state
      (VehicleRepository.findById (v_id (res_vehicle res)) (vehicles db2))
    = Some PARKED /\
    option_map status
      (ValetRepository.findById (fst (res_assignedValet res)) (valets db2))
    = Some FREE /\
    parking_zones db2 = parking_zones db1.
Proof.
  intros Hrun Hfresh Hids.
  apply execute_ok_inv in Hrun
    as (_ & _ & zone' & valet & valets' & _ & Hvalet & _ & -> & ->).
  destruct (execute_inv _ _ _ _ Hvalet)
    as [(sel & Hsel & [Hin Hcan] & ->) | (e & He & _)]; [| discriminate He].
  injection Hsel as ->.
  cbn [res_vehicle res_token res_assignedValet fst].
  set (row := VehicleRepository.newRow (env_now env) (env_rowId env)
                (entryVehicle env dto zone' (assigned (env_now env) sel))).
  change (v_id row) with (env_rowId env).
  change (valet_id (assigned (env_now env) sel)) with (valet_id sel).
  destruct (findById_present sel (valets db) Hin) as (row0 & Hf & Hin0 & Hid0).
  rewrite markParked_eq. cbn [vehicles valets parking_zones].
  rewrite (vehicle_findById_app _ _ row Hfresh eq_refl).
  change (parkingValetId row) with (Some (valet_id sel)). cbv beta iota.
  rewrite (Hids sel Hin).
  rewrite findById_map by apply writeRow_id. rewrite Hf.
  cbn [option_map]. change (state row) with PARKING.
  cbn [VehicleState_eqb]. cbv zeta.
  assert (Hbusy : status (ValetRepository.writeRow (env_now env)
                            (assigned (env_now env) sel) row0) = BUSY).
  { unfold ValetRepository.writeRow. cbn [valet_id assigned].
    rewrite Hid0, String.eqb_refl. reflexivity. }
  rewrite Hbusy. cbn [ValetStatus_eqb].
  eexists. eexists. split; [reflexivity |].
  cbn [vehicles valets parking_zones].
  split; [reflexivity | split; [reflexivity | split; [reflexivity |]]].
  split; [| split; [| reflexivity]].
  - rewrite vehicle_findById_map by (intros x; apply writeState_id).
    rewrite (vehicle_findById_app _ _ row Hfresh eq_refl). simpl.
    unfold VehicleRepository.writeState.
    change (v_id row) with (env_rowId env). rewrite String.eqb_refl.
    reflexivity.
  - rewrite !findById_map by apply writeRow_id. rewrite Hf. simpl.
    unfold ValetRepository.writeRow at 1.
    cbn [valet_id ValetEntity.set_updatedAt ValetEntity.set_status].
    rewrite !writeRow_id. rewrite String.eqb_refl. reflexivity.
Qed.

Lemma X23_entry_then_markParked_witness :
  exists parked db2,
    MarkVehicleParkedUseCase.execute 1700000300000 "veh-1"
      (snd (execute Sample.firstEnv Sample.firstEntry Sample.emptyLot))
    = (Ok parked, db2) /\
    state parked = PARKED /\
    option_map status (ValetRepository.findById "valet-1" (valets db2))
    = Some FREE.
Proof.
  destruct (X23_entry_then_markParked Sample.firstEnv Sample.firstEntry
              Sample.emptyLot _ _ 1700000300000 eq_refl eq_refl)
    as (parked & db2 & Hrun & Hst & _ & _ & _ & Hfree & _).
  - intros v [<- | [<- | []]]; reflexivity.
  - exists parked, db2. split; [exact Hrun | split; [exact Hst | exact Hfree]].
Defined.

End MarkParkedProperties.

(* ------------------------------------------------------------------ *)
(** * The digits of a token *)

Section TokenProperties.
Import JS CreateVehicleEntryUseCase.

Lemma append_assoc (a b c : string) :
  ((a ++ b) ++ c)%string = (a ++ (b ++ c))%string.
Proof. induction a as [| x a IH]; simpl; [reflexivity | rewrite IH; reflexivity]. Qed.

Lemma append_inv_head (a x y : string) :
  (a ++ x)%string = (a ++ y)%string -> x = y.
Proof.
  induction a as [| c a IH]; simpl; intros H; [exact H |].
  injection H as H. exact (IH H).
Qed.

Lemma append_inj_length (a : string) :
  forall a' b b', String.length a = String.length a' ->
    (a ++ b)%string = (a' ++ b')%string -> a = a' /\ b = b'.
Proof.
  induction a as [| c a IH]; intros [| c' a'] b b' Hlen H; simpl in *;
    try discriminate Hlen.
  - auto.
  - injection H as -> H. injection Hlen as Hlen.
    destruct (IH a' b b' Hlen H) as [-> ->]. auto.
Qed.

Lemma sliceTo_append (x y : string) :
  sliceTo (String.length x) (x ++ y) = x.
Proof. induction x as [| c x IH]; simpl; [destruct y |]; congruence. Qed.

Lemma sliceFrom_all (s : string) : sliceFrom (String.length s) s = EmptyString.
Proof. induction s as [| c s IH]; simpl; [reflexivity | exact IH]. Qed.

Lemma sliceFrom_append (j : nat) :
  forall s t, (j <= String.length s)%nat ->
    sliceFrom j (s ++ t) = (sliceFrom j s ++ t)%string.
Proof.
  induction j as [| j IH]; intros [| c s] t H; simpl in *;
    try reflexivity; try lia.
  apply IH. lia.
Qed.

Lemma sliceLast_snoc (k : nat) (s : string) (c : ascii) :
  sliceLast (S k) (s ++ String c EmptyString)
  = (sliceLast k s ++ String c EmptyString)%string.
Proof.
  unfold sliceLast. rewrite length_append. simpl String.length.
  replace (String.length s + 1 - S k)%nat with (String.length s - k)%nat by lia.
  apply sliceFrom_append. lia.
Qed.

Lemma digitsFuel_S (fuel : nat) (n : Z) (acc : string) :
  digitsFuel (S fuel) n acc
  = if n <? 10 then String (digitChar (n mod 10)) acc
    else digitsFuel fuel (n / 10) (String (digitChar (n mod 10)) acc).
Proof. reflexivity. Qed.

Lemma digitsFuel_acc (fuel : nat) :
  forall n acc,
    digitsFuel fuel n acc = (digitsFuel fuel n EmptyString ++ acc)%string.
Proof.
  induction fuel as [| fuel IH]; intros n acc; [reflexivity |].
  rewrite !digitsFuel_S. destruct (n <? 10); [reflexivity |].
  rewrite (IH (n / 10) (String (digitChar (n mod 10)) acc)).
  rewrite (IH (n / 10) (String (digitChar (n mod 10)) EmptyString)).
  rewrite append_assoc. reflexivity.
Qed.

(** With enough fuel the digits do not depend on the fuel. *)
Lemma digitsFuel_fuel (f : nat) :
  forall f' n acc,
    0 <= n < 2 ^ Z.of_nat (S f) -> n < 2 ^ Z.of_nat (S f') ->
    digitsFuel (S f) n acc = digitsFuel (S f') n acc.
Proof.
  induction f as [| f IH]; intros f' n acc Hn Hn'; rewrite !digitsFuel_S.
  - change (2 ^ Z.of_nat 1) with 2 in Hn.
    destruct (Z.ltb_spec n 10); [reflexivity | lia].
  - destruct (Z.ltb_spec n 10); [reflexivity |].
    destruct f' as [| f']; [change (2 ^ Z.of_nat 1) with 2 in Hn'; lia |].
    rewrite Nat2Z.inj_succ, Z.pow_succ_r in Hn, Hn' by lia.
    apply IH.
    + split; [apply Z.div_pos; lia | apply Z.div_lt_upper_bound; lia].
    + apply Z.div_lt_upper_bound; lia.
Qed.

Lemma numberToString_small (n : Z) :
  0 <= n < 10 -> numberToString n = String (digitChar (n mod 10)) EmptyString.
Proof.
  intros H. unfold numberToString. destruct (Z.ltb_spec n 0); [lia |].
  rewrite digitsFuel_S. destruct (Z.ltb_spec n 10); [reflexivity | lia].
Qed.

Lemma numberToString_snoc (n : Z) :
  10 <= n ->
  numberToString n
  = (numberToString (n / 10) ++ String (digitChar (n mod 10)) EmptyString)%string.
Proof.
  intros H. unfold numberToString.
  assert (Hq : 0 < n / 10) by (apply Z.div_str_pos; lia).
  destruct (Z.ltb_spec n 0); [lia |].
  destruct (Z.ltb_spec (n / 10) 0); [lia |].
  rewrite digitsFuel_S. destruct (Z.ltb_spec n 10); [lia |].
  rewrite digitsFuel_acc. f_equal.
  assert (Hlog : 3 <= Z.log2 n) by (apply Z.log2_le_pow2; simpl; lia).
  pose proof (Z.log2_spec n ltac:(lia)) as [_ Hhi].
  rewrite Z.pow_succ_r in Hhi by lia.
  destruct (Z.to_nat (Z.log2 n)) as [| g] eqn:Hg; [lia |].
  apply digitsFuel_fuel.
  - rewrite <- Hg, Z2Nat.id by lia.
    split; [lia | apply Z.div_lt_upper_bound; lia].
  - apply numberToString_fuel. exact Hq.
Qed.

Lemma sliceLast_decimal (k : nat) :
  forall n, 0 <= n -> (k <= String.length (numberToString n))%nat ->
    sliceLast k (numberToString n) = decimal k n.
Proof.
  induction k as [| k IH]; intros n Hn Hlen.
  - unfold sliceLast. rewrite Nat.sub_0_r. apply sliceFrom_all.
  - destruct (Z.ltb_spec n 10) as [Hlt | Hge].
    + rewrite numberToString_small in Hlen |- * by lia.
      simpl in Hlen. assert (k = 0)%nat by lia. subst k. reflexivity.
    + rewrite numberToString_snoc in Hlen |- * by exact Hge.
      rewrite length_append in Hlen. simpl in Hlen.
      rewrite sliceLast_snoc. cbn [decimal].
      rewrite IH; [reflexivity | apply Z.div_pos; lia | lia].
Qed.

Lemma length_decimal (k : nat) : forall n, String.length (decimal k n) = k.
Proof.
  induction k as [| k IH]; intros n; simpl; [reflexivity |].
  rewrite length_append, IH. simpl. lia.
Qed.

Lemma append_snoc_inj (a : string) :
  forall b c d,
    (a ++ String c EmptyString)%string = (b ++ String d EmptyString)%string ->
    a = b /\ c = d.
Proof.
  induction a as [| x a IH]; intros [| y b] c d H; simpl in H.
  - injection H as ->. auto.
  - injection H as _ H. destruct b; discriminate H.
  - injection H as _ H. destruct a; discriminate H.
  - injection H as -> H. destruct (IH b c d H) as [-> ->]. auto.
Qed.

Lemma digitChar_inj (x y : Z) :
  0 <= x < 10 -> 0 <= y < 10 -> digitChar x = digitChar y -> x = y.
Proof.
  intros Hx Hy H. unfold digitChar in H.
  apply (f_equal N_of_ascii) in H.
  rewrite !N_ascii_embedding in H by lia. lia.
Qed.

(** Two numbers have the same [k] low digits exactly when they agree
    modulo [10^k]. *)
Lemma decimal_mod (k : nat) :
  forall n m, decimal k n = decimal k m
              <-> n mod 10 ^ Z.of_nat k = m mod 10 ^ Z.of_nat k.
Proof.
  induction k as [| k IH]; intros n m.
  - simpl. rewrite !Z.mod_1_r. tauto.
  - rewrite Nat2Z.inj_succ, Z.pow_succ_r by lia.
    assert (Hp : 0 < 10 ^ Z.of_nat k) by (apply Z.pow_pos_nonneg; lia).
    rewrite (Z.rem_mul_r n 10 (10 ^ Z.of_nat k)) by lia.
    rewrite (Z.rem_mul_r m 10 (10 ^ Z.of_nat k)) by lia.
    pose proof (Z.mod_pos_bound n 10 ltac:(lia)) as Hn.
    pose proof (Z.mod_pos_bound m 10 ltac:(lia)) as Hm.
    cbn [decimal]. split.
    + intros H. apply append_snoc_inj in H as [Hhi Hlo].
      apply IH in Hhi. apply digitChar_inj in Hlo; [| lia | lia]. lia.
    + intros H.
      assert (Hlo : n mod 10 = m mod 10) by lia.
      assert (Hhi : (n / 10) mod 10 ^ Z.of_nat k = (m / 10) mod 10 ^ Z.of_nat k)
        by lia.
      apply IH in Hhi. rewrite Hhi, Hlo. reflexivity.
Qed.

Lemma padStart_decimal (d : Z) :
  0 <= d < 1000 -> padStart 3 "0" (numberToString d) = decimal 3 d.
Proof.
  intros H.
  assert (Hall : forallb
                   (fun n => String.eqb
                               (padStart 3 "0" (numberToString (Z.of_nat n)))
                               (decimal 3 (Z.of_nat n)))
                   (seq 0 1000) = true) by (vm_compute; reflexivity).
  rewrite forallb_forall in Hall. specialize (Hall (Z.to_nat d)).
  rewrite Z2Nat.id in Hall by lia. apply String.eqb_eq, Hall, in_seq. lia.
Qed.

(** The token spelled out: the six low digits of the clock and the two
    high digits of the draw padded to three. *)
Lemma generateToken_decimal (now d : Z) :
  100000 <= now -> 0 <= d < 1000 ->
  generateToken now d = ("VLT-" ++ decimal 6 now ++ decimal 2 (d / 10))%string.
Proof.
  intros Hnow Hd. unfold generateToken.
  rewrite sliceLast_decimal
    by (try lia; apply (numberToString_length_ge 5); simpl; lia).
  rewrite padStart_decimal by exact Hd.
  change (decimal 3 d)
    with (decimal 2 (d / 10) ++ String (digitChar (d mod 10)) EmptyString)%string.
  rewrite <- (append_assoc (decimal 6 now)).
  rewrite <- (append_assoc "VLT-").
  replace 12%nat
    with (String.length ("VLT-" ++ decimal 6 now ++ decimal 2 (d / 10))%string).
  - apply sliceTo_append.
  - rewrite !length_append, !length_decimal. reflexivity.
Qed.

(** X24.  Which tokens coincide.  For a clock reading of six digits or
    more, the token is [VLT-], the six low decimal digits of the clock and
    the two high digits of the draw padded to three: the last digit of the
    draw is cut off.  Two tokens are therefore equal exactly when the clock
    readings agree modulo 1000000 ms and the draws agree up to their last
    digit. *)
Theorem X24_token_collisions (now now' d d' : Z) :
  100000 <= now -> 100000 <= now' -> 0 <= d < 1000 -> 0 <= d' < 1000 ->
  generateToken now d = ("VLT-" ++ decimal 6 now ++ decimal 2 (d / 10))%string /\
  (generateToken now d = generateToken now' d'
   <-> now mod 1000000 = now' mod 1000000 /\ d / 10 = d' / 10).
Proof.
  intros Hnow Hnow' Hd Hd'. split; [apply generateToken_decimal; assumption |].
  rewrite !generateToken_decimal by assumption.
  assert (Hq : 0 <= d / 10 < 100)
    by (split; [apply Z.div_pos; lia | apply Z.div_lt_upper_bound; lia]).
  assert (Hq' : 0 <= d' / 10 < 100)
    by (split; [apply Z.div_pos; lia | apply Z.div_lt_upper_bound; lia]).
  pose proof (decimal_mod 6 now now') as H6.
  pose proof (decimal_mod 2 (d / 10) (d' / 10)) as H2.
  change (10 ^ Z.of_nat 6) with 1000000 in H6.
  change (10 ^ Z.of_nat 2) with 100 in H2.
  rewrite !Z.mod_small in H2 by lia.
  split.
  - intros H. apply append_inv_head in H.
    apply append_inj_length in H as [Ha Hb];
      [| rewrite !length_decimal; reflexivity].
    split; [apply H6, Ha | apply H2, Hb].
  - intros [Ha Hb]. apply H6 in Ha. apply H2 in Hb. rewrite Ha, Hb. reflexivity.
Qed.

Lemma X24_token_collisions_witness :
  generateToken 1700000123456 7 = generateToken 1700001123456 3.
Proof.
  apply (X24_token_collisions 1700000123456 1700001123456 7 3);
    try lia. split; reflexivity.
Defined.

End TokenProperties.

(* ------------------------------------------------------------------ *)
(** * The vehicles table: the day query and the state update *)

Section VehicleTableProperties.
Import JS CreateVehicleEntryUseCase.

Lemma inDay_iff (date t : Date) :
  (VehicleRepository.startOfDay date <=? t)
  && (t <=? VehicleRepository.endOfDay date) = true
  <-> t / 86400000 = date / 86400000.
Proof.
  unfold VehicleRepository.endOfDay, VehicleRepository.startOfDay.
  rewrite andb_true_iff, !Z.leb_le.
  pose proof (Z.div_mod date 86400000 ltac:(lia)) as Hd.
  pose proof (Z.mod_pos_bound date 86400000 ltac:(lia)) as Hdb.
  pose proof (Z.div_mod t 86400000 ltac:(lia)) as Ht.
  pose proof (Z.mod_pos_bound t 86400000 ltac:(lia)) as Htb.
  lia.
Qed.

(** X25.  [findByDate] returns exactly the vehicles created on the day of
    the date given (days counted from the epoch, 86400000 ms each), and it
    returns them in table order, whatever the time of day of the date. *)
Theorem X25_findByDate_is_the_calendar_day (date : Date) (rows : list Vehicle) :
  (forall v, In v (VehicleRepository.findByDate date rows)
             <-> In v rows /\ v_createdAt v / 86400000 = date / 86400000) /\
  (forall date', date' / 86400000 = date / 86400000 ->
     VehicleRepository.findByDate date' rows
     = VehicleRepository.findByDate date rows) /\
  (forall more, VehicleRepository.findByDate date (rows ++ more)
                = (VehicleRepository.findByDate date rows
                   ++ VehicleRepository.findByDate date more)%list).
Proof.
  split; [| split].
  - intros v. unfold VehicleRepository.findByDate.
    rewrite filter_In, inDay_iff. reflexivity.
  - intros date' Hsame. unfold VehicleRepository.findByDate.
    apply filter_ext. intros v.
    destruct ((VehicleRepository.startOfDay date <=? v_createdAt v)
              && (v_createdAt v <=? VehicleRepository.endOfDay date)) eqn:E.
    + apply inDay_iff. apply inDay_iff in E. lia.
    + apply not_true_is_false. intros E'. apply inDay_iff in E'.
      assert (E2 : v_createdAt v / 86400000 = date / 86400000) by lia.
      apply inDay_iff in E2. congruence.
  - intros more. apply filter_app.
Qed.

Lemma X25_findByDate_is_the_calendar_day_witness :
  VehicleRepository.findByDate 86399999 [Sample.scheduledVehicle]
  = VehicleRepository.findByDate 0 [Sample.scheduledVehicle].
Proof.
  exact (proj1 (proj2 (X25_findByDate_is_the_calendar_day
                         0 [Sample.scheduledVehicle])) 86399999 eq_refl).
Defined.

Lemma findByToken_app (tok : string) (rows : list Vehicle) (row : Vehicle) :
  VehicleRepository.findByToken tok rows = None -> token row = tok ->
  VehicleRepository.findByToken tok (rows ++ [row])%list = Some row.
Proof.
  unfold VehicleRepository.findByToken. intros Hnone Htok.
  induction rows as [| x rows IH]; simpl in *.
  - rewrite Htok, String.eqb_refl. reflexivity.
  - destruct (String.eqb (token x) tok); [discriminate Hnone | exact (IH Hnone)].
Qed.

(** X26.  A vehicle that createEntry admits is found by [findByDate] for
    the day of the entry, at the end of the list, and in [findByToken]
    under the token returned; the lists of every other day are as they
    were. *)
Theorem X26_entered_vehicle_is_in_the_day_list (env : Env)
  (dto : CreateVehicleEntryDTO) (db db' : Database)
  (res : VehicleEntryResponse) :
  execute env dto db = (Ok res, db') ->
  VehicleRepository.findByDate (env_now env) (vehicles db')
  = (VehicleRepository.findByDate (env_now env) (vehicles db)
     ++ [res_vehicle res])%list /\
  VehicleRepository.findByToken (res_token res) (vehicles db')
  = Some (res_vehicle res) /\
  (forall date, date / 86400000 <> env_now env / 86400000 ->
     VehicleRepository.findByDate date (vehicles db')
     = VehicleRepository.findByDate date (vehicles db)).
Proof.
  intros Hrun.
  apply execute_ok_inv in Hrun
    as (_ & _ & zone' & valet & valets' & _ & _ & Htok & -> & ->).
  cbn [vehicles res_vehicle res_token].
  set (row := VehicleRepository.newRow (env_now env) (env_rowId env)
                (entryVehicle env dto zone' valet)) in *.
  assert (Hrow : v_createdAt row = env_now env) by reflexivity.
  split; [| split].
  - unfold VehicleRepository.findByDate. rewrite filter_app. f_equal.
    cbn [filter]. rewrite Hrow.
    rewrite (proj2 (inDay_iff (env_now env) (env_now env)) eq_refl).
    reflexivity.
  - apply findByToken_app; [exact Htok | reflexivity].
  - intros date Hday. unfold VehicleRepository.findByDate.
    rewrite filter_app. cbn [filter]. rewrite Hrow.
    destruct ((VehicleRepository.startOfDay date <=? env_now env)
              && (env_now env <=? VehicleRepository.endOfDay date)) eqn:E.
    + apply inDay_iff in E. congruence.
    + apply app_nil_r.
Qed.

Lemma X26_entered_vehicle_is_in_the_day_list_witness :
  VehicleRepository.findByToken "VLT-12345600"
    (vehicles (snd (execute Sample.firstEnv Sample.firstEntry Sample.emptyLot)))
  = Some (VehicleRepository.newRow 1700000123456 "veh-1"
            (entryVehicle Sample.firstEnv Sample.firstEntry Sample.zoneA
               (assigned 1700000123456 Sample.anil))).
Proof.
  apply (X26_entered_vehicle_is_in_the_day_list Sample.firstEnv
           Sample.firstEntry Sample.emptyLot _ _ eq_refl).
Defined.

(** X27.  [updateState] and the queries.  On an id of the table the update
    succeeds; the vehicle is then read back with the new state and its
    other columns, the rows of other ids read back as before, and the
    vehicle is in [findParkedVehicles] exactly when the new state is
    PARKED.  On an id that is not in the table it fails with the
    record-not-found error and writes nothing. *)
Theorem X27_updateState_then_query (id : string) (st : VehicleState)
  (rows : list Vehicle) :
  (VehicleRepository.findById id rows = None ->
   VehicleRepository.updateState id st rows = (Err RecordNotFound, rows)) /\
  (forall row, VehicleRepository.findById id rows = Some row ->
     exists rows',
       VehicleRepository.updateState id st rows
       = (Ok (VehicleEntity.set_state st row), rows') /\
       VehicleRepository.findById id rows'
       = Some (VehicleEntity.set_state st row) /\
       (forall other, other <> id ->
          VehicleRepository.findById other rows'
          = VehicleRepository.findById other rows) /\
       (In (VehicleEntity.set_state st row)
           (VehicleRepository.findParkedVehicles rows') <-> st = PARKED)).
Proof.
  split.
  - intros Hnone. unfold VehicleRepository.updateState, bind, gets.
    rewrite Hnone. reflexivity.
  - intros row Hfind. apply vehicle_findById_Some in Hfind as Hrow.
    destruct Hrow as [Hin Hid].
    assert (Hw : VehicleRepository.writeState id st row
                 = VehicleEntity.set_state st row).
    { unfold VehicleRepository.writeState. rewrite Hid, String.eqb_refl.
      reflexivity. }
    exists (map (VehicleRepository.writeState id st) rows).
    split; [| split; [| split]].
    + unfold VehicleRepository.updateState, bind, gets, modify, ret.
      rewrite Hfind, Hw. reflexivity.
    + rewrite vehicle_findById_map by (intros x; apply writeState_id).
      rewrite Hfind. simpl. rewrite Hw. reflexivity.
    + intros other Hother.
      rewrite vehicle_findById_map by (intros x; apply writeState_id).
      destruct (VehicleRepository.findById other rows) as [x |] eqn:Hx;
        [| reflexivity].
      apply vehicle_findById_Some in Hx as [_ Hxid]. simpl.
      unfold VehicleRepository.writeState.
      destruct (String.eqb_spec (v_id x) id); [congruence | reflexivity].
    + unfold VehicleRepository.findParkedVehicles. rewrite filter_In. split.
      * intros [_ Hst]. cbn [state VehicleEntity.set_state] in Hst.
        destruct st; try discriminate Hst. reflexivity.
      * intros ->. split; [| reflexivity].
        rewrite <- Hw. apply in_map, Hin.
Qed.

Lemma X27_updateState_then_query_witness :
  VehicleRepository.updateState "veh-9" PARKED [Sample.scheduledVehicle]
  = (Err RecordNotFound, [Sample.scheduledVehicle]) /\
  fst (VehicleRepository.updateState "veh-1" RETRIEVAL_ASSIGNED
         [Sample.scheduledVehicle])
  = Ok (VehicleEntity.set_state RETRIEVAL_ASSIGNED Sample.scheduledVehicle).
Proof.
  split.
  - apply (X27_updateState_then_query "veh-9" PARKED [Sample.scheduledVehicle]).
    reflexivity.
  - destruct (proj2 (X27_updateState_then_query "veh-1" RETRIEVAL_ASSIGNED
                       [Sample.scheduledVehicle]) Sample.scheduledVehicle eq_refl)
      as (rows' & Hrun & _).
    exact (f_equal fst Hrun).
Defined.

End VehicleTableProperties.

(* ------------------------------------------------------------------ *)
(** * The two permission checks *)

Section PermissionProperties.
Import JS StaffPermissions.

Lemma eqb_append_r (a b t : string) :
  String.eqb (a ++ t) (b ++ t) = String.eqb a b.
Proof.
  destruct (String.eqb_spec a b) as [-> | Hne].
  - apply String.eqb_refl.
  - apply String.eqb_neq. intros H. apply Hne.
    assert (Hlen : String.length a = String.length b).
    { apply (f_equal String.length) in H. rewrite !length_append in H. lia. }
    apply (append_inj_length a b t t Hlen H).
Qed.

Lemma supervisor_wildcards (resource : string) :
  has (PERMISSIONS SUPERVISOR) (resource ++ ".*")
  = has ["vehicle"; "valet"; "zone"; "staff"; "reports"; "markout"] resource.
Proof.
  unfold has, PERMISSIONS. cbn [existsb].
  change "vehicle.*" with ("vehicle" ++ ".*")%string.
  change "valet.*" with ("valet" ++ ".*")%string.
  change "zone.*" with ("zone" ++ ".*")%string.
  change "staff.*" with ("staff" ++ ".*")%string.
  change "reports.*" with ("reports" ++ ".*")%string.
  change "markout.*" with ("markout" ++ ".*")%string.
  rewrite !eqb_append_r. reflexivity.
Qed.

Lemma checkPermission_own (role perm : string) (l : list string) :
  AccessControl.rolePermissions role = AccessControl.OwnSet l ->
  has l "*" = false ->
  AccessControl.checkPermission role perm
  = Ok (has l perm || has l (splitHead "." perm ++ ".*")%string).
Proof.
  intros Hrole Hstar. unfold AccessControl.checkPermission.
  rewrite Hrole, Hstar. cbv zeta.
  destruct (has l perm), (has l (splitHead "." perm ++ ".*")%string);
    reflexivity.
Qed.

(** X28.  The permission check of the middleware against the permission
    matrix of the domain layer.  For the roles ENTRY, EXIT and BILLING the
    two agree on every permission string.  For SUPERVISOR the middleware
    grants every permission, while the domain matrix grants exactly the
    permissions whose resource is vehicle, valet, zone, staff, reports or
    markout.  A role string that is none of the four names is never
    granted anything by the middleware. *)
Theorem X28_middleware_and_domain_permissions :
  (forall r perm, r <> SUPERVISOR ->
     AccessControl.checkPermission (roleName r) perm
     = Ok (hasPermission r perm)) /\
  (forall perm,
     AccessControl.checkPermission (roleName SUPERVISOR) perm = Ok true) /\
  (forall perm,
     hasPermission SUPERVISOR perm
     = has ["vehicle"; "valet"; "zone"; "staff"; "reports"; "markout"]
           (splitHead "." perm)) /\
  (forall role perm, (forall r, role <> roleName r) ->
     AccessControl.checkPermission role perm <> Ok true).
Proof.
  split; [| split; [| split]].
  - intros r perm Hr. unfold hasPermission. cbv zeta.
    destruct r; try congruence; apply checkPermission_own; reflexivity.
  - intros perm. reflexivity.
  - intros perm. unfold hasPermission. cbv zeta.
    rewrite supervisor_wildcards.
    destruct (has (PERMISSIONS SUPERVISOR) perm) eqn:E; [| reflexivity].
    unfold has in E. apply existsb_exists in E as (x & Hx & Heq).
    apply String.eqb_eq in Heq. subst x. simpl in Hx.
    repeat (destruct Hx as [<- | Hx]; [reflexivity |]). destruct Hx.
  - intros role perm Hrole.
    unfold AccessControl.checkPermission, AccessControl.rolePermissions.
    destruct (String.eqb_spec role "ENTRY") as [E | _];
      [exfalso; apply (Hrole ENTRY), E |].
    destruct (String.eqb_spec role "EXIT") as [E | _];
      [exfalso; apply (Hrole EXIT), E |].
    destruct (String.eqb_spec role "SUPERVISOR") as [E | _];
      [exfalso; apply (Hrole SUPERVISOR), E |].
    destruct (String.eqb_spec role "BILLING") as [E | _];
      [exfalso; apply (Hrole BILLING), E |].
    destruct (has AccessControl.objectPrototypeKeys role); discriminate.
Qed.

Lemma X28_middleware_and_domain_permissions_witness :
  AccessControl.checkPermission "EXIT" "vehicle.markDelivered" = Ok true /\
  AccessControl.checkPermission "SUPERVISOR" "billing.refund" = Ok true /\
  hasPermission SUPERVISOR "billing.refund" = false /\
  AccessControl.checkPermission "ADMIN" "vehicle.view" <> Ok true.
Proof.
  destruct X28_middleware_and_domain_permissions as (H1 & H2 & H3 & H4).
  split; [| split; [| split]].
  - apply (H1 EXIT "vehicle.markDelivered"). discriminate.
  - apply (H2 "billing.refund").
  - rewrite (H3 "billing.refund"). reflexivity.
  - apply (H4 "ADMIN" "vehicle.view"). intros r. destruct r; discriminate.
Defined.

End PermissionProperties.

Section RoleMatrix.
Import StaffPermissions.

(** X29.  Who may do what.  Vehicle entries may be created by ENTRY and
    SUPERVISOR, deliveries marked by EXIT and SUPERVISOR, mark-outs
    triggered by BILLING and SUPERVISOR, and reports read by SUPERVISOR
    alone; on these four permissions the middleware decides as the domain
    helpers do. *)
Theorem X29_who_may_do_what (r : StaffRole) :
  (canCreateVehicleEntry r = true <-> r = ENTRY \/ r = SUPERVISOR) /\
  (canMarkDelivered r = true <-> r = EXIT \/ r = SUPERVISOR) /\
  (canTriggerMarkOut r = true <-> r = BILLING \/ r = SUPERVISOR) /\
  canAccessReports r = isSupervisor r /\
  AccessControl.checkPermission (roleName r) "vehicle.create"
  = Ok (canCreateVehicleEntry r) /\
  AccessControl.checkPermission (roleName r) "vehicle.markDelivered"
  = Ok (canMarkDelivered r) /\
  AccessControl.checkPermission (roleName r) "markout.trigger"
  = Ok (canTriggerMarkOut r) /\
  AccessControl.checkPermission (roleName r) "reports.*"
  = Ok (canAccessReports r).
Proof.
  destruct r; repeat split; try reflexivity; auto;
    try (intros H; discriminate H);
    try (intros [H | H]; discriminate H).
Qed.

End RoleMatrix.

(* ------------------------------------------------------------------ *)
(** * Slot accounting: the entity, the repository counters and the
      reservation path *)

Section SlotClaim.
Import JS CreateVehicleEntryUseCase.

(** C4, as stated, fails on the counters of the repository: a decrement on
    a zone without a free slot succeeds and leaves the count at -1, and an
    increment on a zone that is all free succeeds and leaves the count above
    the capacity. *)
Lemma C4_repository_counters_carry_no_bound_check :
  availableSlots Sample.fullZone = 0 /\
  ParkingZoneRepository.decrementAvailableSlots "zone-1" [Sample.fullZone]
  = (Ok tt, [ParkingZoneEntity.set_availableSlots (-1) Sample.fullZone]) /\
  availableSlots Sample.zoneA = totalSlots Sample.zoneA /\
  ParkingZoneRepository.incrementAvailableSlots "zone-1" [Sample.zoneA]
  = (Ok tt, [ParkingZoneEntity.set_availableSlots 3 Sample.zoneA]) /\
  totalSlots Sample.zoneA = 2.
Proof. repeat split. Qed.

(** The decrement on the zone that [findAvailableZone] returns. *)
Lemma reserved_decrement_in_bounds (rows : list ParkingZone)
  (chosen : ParkingZone) :
  NoDup (map zone_id rows) ->
  (forall x, In x rows -> 0 <= availableSlots x <= totalSlots x) ->
  ParkingZoneRepository.findAvailableZone rows = Some chosen ->
  ParkingZoneRepository.decrementAvailableSlots (zone_id chosen) rows
  = (Ok tt, map (ParkingZoneRepository.addSlots (zone_id chosen) (-1)) rows) /\
  forall x,
    In x (map (ParkingZoneRepository.addSlots (zone_id chosen) (-1)) rows) ->
    0 <= availableSlots x <= totalSlots x.
Proof.
  intros Hnd Hb Hzone.
  apply findAvailableZone_In in Hzone as (Hin & Hpos & _). split.
  - unfold ParkingZoneRepository.decrementAvailableSlots, bind, gets, modify.
    pose proof (zone_findById_present chosen rows Hin) as Hf.
    destruct (ParkingZoneRepository.findById (zone_id chosen) rows);
      [reflexivity | congruence].
  - intros x Hx. apply in_map_iff in Hx as (y & <- & Hy).
    specialize (Hb y Hy). unfold ParkingZoneRepository.addSlots.
    destruct (String.eqb_spec (zone_id y) (zone_id chosen)) as [E | E];
      [| exact Hb].
    assert (y = chosen) as -> by
        (apply (NoDup_map_inj zone_id rows); assumption).
    simpl. lia.
Qed.

(** C4, amended.  On a zone whose [availableSlots] is within
    [0, totalSlots], every sequence of [occupySlot] and [releaseSlot] calls
    of the zone entity leaves it within these bounds; [occupySlot] at
    [availableSlots = 0] fails and changes nothing, and [releaseSlot] at
    [availableSlots = totalSlots] fails with the all-slots-already-free
    error and changes nothing.  The decrement of the repository has no
    check of its own: the reservation is guarded by the selection.  In a
    zones table of distinct ids with every count within [0, totalSlots],
    the zone that [findAvailableZone] returns has a free slot, and the
    decrement on it succeeds and leaves every count within
    [0, totalSlots]; when every zone is at 0 no createEntry succeeds; and
    any sequence of createEntry calls, accepted or refused, leaves every
    count within [0, totalSlots]. *)
Theorem C4_availableSlots_within_bounds (z : ParkingZone)
  (ops : list ParkingZoneEntity.Op)
  (calls : list (Env * CreateVehicleEntryDTO)) (db : Database) :
  0 <= availableSlots z <= totalSlots z ->
  NoDup (map zone_id (parking_zones db)) ->
  (forall x, In x (parking_zones db) -> 0 <= availableSlots x <= totalSlots x) ->
  (0 <= availableSlots (ParkingZoneEntity.runAll ops z)
     <= totalSlots (ParkingZoneEntity.runAll ops z) /\
   totalSlots (ParkingZoneEntity.runAll ops z) = totalSlots z /\
   (availableSlots z = 0 ->
    ParkingZoneEntity.occupySlot z = (Err NoSlotsAvailable, z)) /\
   (availableSlots z = totalSlots z ->
    ParkingZoneEntity.releaseSlot z = (Err AllSlotsAlreadyFree, z))) /\
  (forall chosen,
     ParkingZoneRepository.findAvailableZone (parking_zones db) = Some chosen ->
     0 < availableSlots chosen /\
     exists zones',
       ParkingZoneRepository.decrementAvailableSlots (zone_id chosen)
         (parking_zones db) = (Ok tt, zones') /\
       forall x, In x zones' -> 0 <= availableSlots x <= totalSlots x) /\
  ((forall x, In x (parking_zones db) -> availableSlots x = 0) ->
   forall env dto res db', execute env dto db <> (Ok res, db')) /\
  (forall x, In x (parking_zones (runEntries calls db)) ->
             0 <= availableSlots x <= totalSlots x).
Proof.
  intros Hz Hnd Hb. split; [| split; [| split]].
  - apply entity_slots_within_bounds, Hz.
  - intros chosen Hzone.
    destruct (reserved_decrement_in_bounds _ _ Hnd Hb Hzone) as [Hdec Hb'].
    apply findAvailableZone_In in Hzone as (_ & Hpos & _).
    split; [exact Hpos |]. eexists. split; [exact Hdec | exact Hb'].
  - intros Hzero env dto res db' Hrun.
    apply execute_ok_inv in Hrun
      as (_ & _ & zone' & valet & valets' & Hzone & _).
    apply findAvailableZone_In in Hzone as (Hin & Hpos & _).
    rewrite (Hzero zone' Hin) in Hpos. lia.
  - clear z ops Hz. revert db Hnd Hb.
    induction calls as [| [env dto] rest IH]; intros db Hnd Hb; [exact Hb |].
    destruct (entry_step env dto db Hnd Hb) as (Hids & Hb1 & _).
    cbn [runEntries]. apply IH; [rewrite Hids; exact Hnd | exact Hb1].
Qed.

Lemma C4_availableSlots_within_bounds_witness :
  let ops := [ParkingZoneEntity.OpOccupySlot; ParkingZoneEntity.OpReleaseSlot;
              ParkingZoneEntity.OpReleaseSlot; ParkingZoneEntity.OpReleaseSlot;
              ParkingZoneEntity.OpOccupySlot] in
  let calls := [(Sample.firstEnv, Sample.firstEntry);
                (Sample.secondEnv, Sample.secondEntry);
                (Sample.secondEnv, Sample.firstEntry)] in
  0 <= availableSlots (ParkingZoneEntity.runAll ops Sample.fullZone) <= 2 /\
  ParkingZoneEntity.occupySlot Sample.fullZone
  = (Err NoSlotsAvailable, Sample.fullZone) /\
  ParkingZoneEntity.releaseSlot Sample.zoneA
  = (Err AllSlotsAlreadyFree, Sample.zoneA) /\
  (forall x, In x (parking_zones (runEntries calls Sample.emptyLot)) ->
             0 <= availableSlots x <= totalSlots x) /\
  (forall res db',
     execute Sample.firstEnv Sample.firstEntry Sample.fullLot <> (Ok res, db')).
Proof.
  intros ops calls.
  assert (Hfull : 0 <= availableSlots Sample.fullZone <= totalSlots Sample.fullZone)
    by (simpl; lia).
  assert (HA : 0 <= availableSlots Sample.zoneA <= totalSlots Sample.zoneA)
    by (simpl; lia).
  assert (Hnd : NoDup (map zone_id (parking_zones Sample.emptyLot)))
    by (repeat constructor; simpl; tauto).
  assert (Hb : forall x, In x (parking_zones Sample.emptyLot) ->
                         0 <= availableSlots x <= totalSlots x)
    by (intros x [<- | []]; simpl; lia).
  destruct (C4_availableSlots_within_bounds Sample.fullZone ops calls
              Sample.emptyLot Hfull Hnd Hb)
    as ((Hbound & Htot & Hocc & _) & _ & _ & Hseq).
  destruct (C4_availableSlots_within_bounds Sample.zoneA [] []
              Sample.emptyLot HA Hnd Hb)
    as ((_ & _ & _ & Hrel) & _).
  split; [| split; [| split; [| split]]].
  - rewrite Htot in Hbound. exact Hbound.
  - apply Hocc. reflexivity.
  - apply Hrel. reflexivity.
  - exact Hseq.
  - assert (Hnd' : NoDup (map zone_id (parking_zones Sample.fullLot)))
      by (repeat constructor; simpl; tauto).
    assert (Hb' : forall x, In x (parking_zones Sample.fullLot) ->
                            0 <= availableSlots x <= totalSlots x)
      by (intros x [<- | []]; simpl; lia).
    destruct (C4_availableSlots_within_bounds Sample.fullZone [] []
                Sample.fullLot Hfull Hnd' Hb') as (_ & _ & Hnone & _).
    apply Hnone. intros x [<- | []]. reflexivity.
Defined.

End SlotClaim.
